(** * io_mesh_cdb: the ANSYS cdb reader, face extraction, renumbering and writer

    A shallow embedding of [import_cdb.py] and [export_cdb.py].  Python
    integers are [Z], tuples and lists of integers are [list Z] (wrapped in
    [pyseq] where the code can return either), dictionaries whose order is
    never observed are [gmap]s, the element dictionary (whose iteration
    order is observed) is an insertion-ordered association list, and the
    exceptions the code can raise are made explicit in [result]. *)

From Stdlib Require Import ZArith Ascii String DecimalString DecimalPos
  DecimalFacts Lia.
From stdpp Require Import base decidable option list strings gmap.

Local Open Scope Z_scope.

(** ** Outcomes of a Python call *)

Inductive exn : Type :=
  | KeyError
  | NameError
  | UnboundLocalError
  | IndexError
  | TypeError
  | ValueError.

(** [Ok] is a normal return, [Raise] an exception that leaves the function,
    [Diverge] a loop that has used up the fuel it was run with. *)
Inductive result (A : Type) : Type :=
  | Ok (a : A)
  | Raise (e : exn)
  | Diverge.

Arguments Ok {A} a.
Arguments Raise {A} e.
Arguments Diverge {A}.

Definition bind {A B : Type} (r : result A) (k : A -> result B) : result B :=
  match r with
  | Ok a => k a
  | Raise e => Raise e
  | Diverge => Diverge
  end.

Notation "x <- r ;; k" := (bind r (fun x => k))
  (at level 100, r at next level, right associativity).

(** A name that may not have been assigned yet. *)
Definition load {A : Type} (e : exn) (v : option A) : result A :=
  match v with
  | Some a => Ok a
  | None => Raise e
  end.

(** Monadic left fold: a [for] loop whose body can raise. *)
Fixpoint for_each {A S : Type} (body : S -> A -> result S) (xs : list A) (s : S)
  : result S :=
  match xs with
  | [] => Ok s
  | x :: xs' => s' <- body s x ;; for_each body xs' s'
  end.

(** ** Sequences *)

(** A tuple, or a list: [order_face] and [inverse_face] return the list [[]]
    on an empty argument and a tuple otherwise.  Only tuples are hashable. *)
Inductive pyseq : Type :=
  | PyTuple (items : list Z)
  | PyList (items : list Z).

(** [hash(s)], as a dictionary or set needs it. *)
Definition hashable (s : pyseq) : result (list Z) :=
  match s with
  | PyTuple xs => Ok xs
  | PyList _ => Raise TypeError
  end.

(** [f[i]] for an index the code keeps in range. *)
Definition item (f : list Z) (i : nat) : Z := nth i f 0.

Module Faces.

(** [order_face(f)]: the rotation of [f] that starts at the first occurrence
    of its lowest number.  [min_step] is the body of its first loop. *)
Definition min_step (f : list Z) (min_index i : nat) : nat :=
  if decide (item f (i + 1) < item f min_index) then (i + 1)%nat else min_index.

Definition min_index_of (f : list Z) : nat :=
  foldl (min_step f) 0%nat (seq 0 (length f - 1)).

Definition order_face (f : list Z) : pyseq :=
  if decide (length f = 0%nat) then PyList []
  else
    let min_index := min_index_of f in
    PyTuple
      (foldl (fun ordered_face i =>
                let index := (min_index + i)%nat in
                let index :=
                  if decide (length f <= index)%nat then (index - length f)%nat
                  else index in
                ordered_face ++ [item f index])
             [] (seq 0 (length f))).

(** [inverse_face(f)]: keeps [f[0]] and reverses the rest. *)
Definition inverse_face (f : list Z) : pyseq :=
  if decide (length f = 0%nat) then PyList []
  else
    PyTuple
      (foldl (fun inversed_face i =>
                inversed_face ++ [item f (length f - i - 1)])
             [item f 0] (seq 0 (length f - 1))).

(** *** Face tables *)

Definition faces_on_8hexahedral (v1 v2 v3 v4 v5 v6 v7 v8 : Z) : list pyseq :=
  [ order_face [v1; v4; v3; v2];
    order_face [v1; v2; v6; v5];
    order_face [v2; v3; v7; v6];
    order_face [v3; v4; v8; v7];
    order_face [v4; v1; v5; v8];
    order_face [v5; v6; v7; v8] ].

Definition faces_on_6wedge (v1 v2 v3 v4 v5 v6 : Z) : list pyseq :=
  [ order_face [v1; v3; v2];
    order_face [v1; v2; v5; v4];
    order_face [v2; v3; v6; v5];
    order_face [v3; v1; v4; v6];
    order_face [v4; v5; v6] ].

Definition faces_on_5pyramid (v1 v2 v3 v4 v5 : Z) : list pyseq :=
  [ order_face [v1; v4; v3; v2];
    order_face [v1; v2; v5];
    order_face [v2; v3; v5];
    order_face [v3; v4; v5];
    order_face [v4; v1; v5] ].

Definition faces_on_4tetrahedral (v1 v2 v3 v4 : Z) : list pyseq :=
  [ order_face [v1; v3; v2];
    order_face [v1; v2; v4];
    order_face [v2; v3; v4];
    order_face [v3; v1; v4] ].

Definition faces_on_20hexahedral
    (v1 v2 v3 v4 v5 v6 v7 v8 v12 v23 v34 v14 v56 v67 v78 v58 v15 v26 v37 v48 : Z)
  : list pyseq :=
  [ order_face [v1; v14; v4; v34; v3; v23; v2; v12];
    order_face [v1; v12; v2; v26; v6; v56; v5; v15];
    order_face [v2; v23; v3; v37; v7; v67; v6; v26];
    order_face [v3; v34; v4; v48; v8; v78; v7; v37];
    order_face [v4; v14; v1; v15; v5; v58; v8; v48];
    order_face [v5; v56; v6; v67; v7; v78; v8; v58] ].

(** The body of [faces_on_15wedge] reads [v32] in its first statement, a name
    bound in no enclosing scope: every call raises [NameError]. *)
Definition faces_on_15wedge
    (v1 v2 v3 v4 v5 v6 v12 v23 v13 v45 v56 v46 v14 v25 v36 : Z)
  : result (list pyseq) :=
  Raise NameError.

Definition faces_on_13pyramid
    (v1 v2 v3 v4 v5 v12 v23 v34 v14 v15 v25 v35 v45 : Z) : list pyseq :=
  [ order_face [v1; v14; v4; v34; v3; v23; v2; v12];
    order_face [v1; v12; v2; v25; v5; v15];
    order_face [v2; v23; v3; v35; v5; v25];
    order_face [v3; v34; v4; v45; v5; v35];
    order_face [v4; v14; v1; v15; v5; v45] ].

Definition faces_on_10tetrahedral
    (v1 v2 v3 v4 v12 v23 v13 v14 v24 v34 : Z) : list pyseq :=
  [ order_face [v1; v13; v3; v23; v2; v12];
    order_face [v1; v12; v2; v24; v4; v14];
    order_face [v2; v23; v3; v34; v4; v24];
    order_face [v3; v13; v1; v14; v4; v34] ].

Definition faces_on_4rectangle (v1 v2 v3 v4 : Z) : list pyseq :=
  [ order_face [v1; v2; v3; v4] ].

Definition faces_on_3triangle (v1 v2 v3 : Z) : list pyseq :=
  [ order_face [v1; v2; v3] ].

Definition faces_on_8rectangle (v1 v2 v3 v4 v12 v23 v34 v14 : Z) : list pyseq :=
  [ order_face [v1; v12; v2; v23; v3; v34; v4; v14] ].

Definition faces_on_6triangle (v1 v12 v2 v23 v3 v13 : Z) : list pyseq :=
  [ order_face [v1; v12; v2; v23; v3; v13] ].

(** *** Counting faces per (material, real constant) *)

(** [e[lo:hi]] *)
Definition slice {A : Type} (lo hi : nat) (e : list A) : list A :=
  take (hi - lo) (drop lo e).

(** What [get_all_faces] keeps from one element to the next: the dictionary
    it fills, and its local [v13], which only the branch for families 92 and
    187 assigns and which the branch for families 93 and 281 reads. *)
Record faces_state : Type := FacesState {
  counted_faces : gmap (Z * Z) (gmap (list Z) Z);
  local_v13 : option Z
}.

Definition family_in (etype : Z) (codes : list Z) : bool :=
  bool_decide (etype ∈ codes).

(** The faces of one element; [None] is [continue], the second component is
    the binding of [v13] afterwards. *)
Definition faces_of_element (etype : Z) (e : list Z) (v13 : option Z)
  : result (option (list pyseq) * option Z) :=
  if family_in etype [28; 63; 152] then
    if decide (length e < 7)%nat then Ok (None, v13)
    else match slice 3 7 e with
         | [v1; v2; v3; v4] =>
             if decide (v3 = v4) then Ok (Some (faces_on_3triangle v1 v2 v3), v13)
             else Ok (Some (faces_on_4rectangle v1 v2 v3 v4), v13)
         | _ => Raise ValueError
         end
  else if family_in etype [93; 281] then
    if decide (length e < 11)%nat then Ok (None, v13)
    else match slice 3 11 e with
         | [v1; v2; v3; v4; v12; v23; v34; v14] =>
             if decide (v3 = v4) then
               v13' <- load UnboundLocalError v13 ;;
               Ok (Some (faces_on_6triangle v1 v12 v2 v23 v3 v13'), v13)
             else Ok (Some (faces_on_8rectangle v1 v2 v3 v4 v12 v23 v34 v14), v13)
         | _ => Raise ValueError
         end
  else if family_in etype [45; 185] then
    if decide (length e < 11)%nat then Ok (None, v13)
    else match slice 3 11 e with
         | [v1; v2; v3; v4; v5; v6; v7; v8] =>
             if decide (v3 = v4 /\ v7 = v8) then
               Ok (Some (faces_on_6wedge v1 v2 v3 v5 v6 v7), v13)
             else if decide (v5 = v6 /\ v5 = v7 /\ v5 = v8) then
               Ok (Some (faces_on_5pyramid v1 v2 v3 v4 v5), v13)
             else if decide (v3 = v4 /\ v5 = v6 /\ v5 = v7 /\ v5 = v8) then
               Ok (Some (faces_on_4tetrahedral v1 v2 v3 v5), v13)
             else Ok (Some (faces_on_8hexahedral v1 v2 v3 v4 v5 v6 v7 v8), v13)
         | _ => Raise ValueError
         end
  else if family_in etype [95; 186] then
    if decide (length e < 23)%nat then Ok (None, v13)
    else match slice 3 23 e with
         | [v1; v2; v3; v4; v5; v6; v7; v8; v12; v23; v34; v14; v56; v67; v78;
            v58; v15; v26; v37; v48] =>
             if decide (v3 = v4 /\ v7 = v8) then
               (* the value of the call is dropped: [faces] stays [[]] *)
               _ <- faces_on_15wedge v1 v2 v3 v5 v6 v7 v12 v23 v14 v56 v67 v58
                      v15 v26 v37 ;;
               Ok (Some [], v13)
             else if decide (v5 = v6 /\ v5 = v7 /\ v5 = v8) then
               Ok (Some (faces_on_13pyramid v1 v2 v3 v4 v5 v12 v23 v34 v14 v15
                           v26 v37 v48), v13)
             else if decide (v3 = v4 /\ v5 = v6 /\ v5 = v7 /\ v5 = v8) then
               Ok (Some (faces_on_10tetrahedral v1 v2 v3 v5 v12 v23 v14 v15 v26
                           v37), v13)
             else
               Ok (Some (faces_on_20hexahedral v1 v2 v3 v4 v5 v6 v7 v8 v12 v23
                           v34 v14 v56 v67 v78 v58 v15 v26 v37 v48), v13)
         | _ => Raise ValueError
         end
  else if family_in etype [92; 187] then
    if decide (length e < 13)%nat then Ok (None, v13)
    else match slice 3 13 e with
         | [v1; v2; v3; v4; v12; v23; v13'; v14; v24; v34] =>
             Ok (Some (faces_on_10tetrahedral v1 v2 v3 v4 v12 v23 v13' v14 v24
                         v34), Some v13')
         | _ => Raise ValueError
         end
  else Ok (None, v13).

(** The counting loop over the faces of one element. *)
Definition count_face (group : gmap (list Z) Z) (face : pyseq)
  : result (gmap (list Z) Z) :=
  key <- hashable face ;;
  let face_count := default 0 (group !! key) in
  let face_count := face_count + 1 in
  Ok (<[key := face_count]> group).

(** One iteration of [for e in global_e.values()]. *)
Definition get_all_faces_step (global_et : gmap Z Z) (st : faces_state)
    (e : list Z) : result faces_state :=
  match e !! 2%nat with
  | None => Ok st
  | Some type_id =>
      match global_et !! type_id with
      | None => Ok st
      | Some etype =>
          r <- faces_of_element etype e (local_v13 st) ;;
          match r with
          | (None, v13) => Ok (FacesState (counted_faces st) v13)
          | (Some faces, v13) =>
              match slice 0 2 e with
              | [element_mat; element_real] =>
                  let element_id := (element_mat, element_real) in
                  let group := default ∅ (counted_faces st !! element_id) in
                  group' <- for_each count_face faces group ;;
                  Ok (FacesState (<[element_id := group']> (counted_faces st)) v13)
              | _ => Raise ValueError
              end
          end
      end
  end.

(** [get_all_faces()], on the values of [global_e] in dictionary order. *)
Definition get_all_faces (elements : list (list Z)) (global_et : gmap Z Z)
  : result (gmap (Z * Z) (gmap (list Z) Z)) :=
  st <- for_each (get_all_faces_step global_et) elements (FacesState ∅ None) ;;
  Ok (counted_faces st).

(** [inverse_face(f) not in group] *)
Definition not_in_dict (s : pyseq) (group : gmap (list Z) Z) : result bool :=
  key <- hashable s ;;
  Ok (bool_decide (group !! key = None)).

(** The test of [get_outer_faces]; [and] and [or] evaluate their right
    operand only when the left one does not decide. *)
Definition is_outer (remove_duplicates : bool) (group : gmap (list Z) Z)
    (f : list Z) : result bool :=
  absent <- not_in_dict (inverse_face f) group ;;
  if absent then
    if negb remove_duplicates then Ok true
    else
      c <- load KeyError (group !! f) ;;
      Ok (bool_decide (c = 1))
  else Ok false.

Definition outer_of_group (remove_duplicates : bool) (group : gmap (list Z) Z)
  : result (gset (list Z)) :=
  for_each (fun (s : gset (list Z)) (f : list Z) =>
              b <- is_outer remove_duplicates group f ;;
              Ok (if b then {[f]} ∪ s else s))
           (map_to_list group).*1 ∅.

(** [get_outer_faces(remove_duplicates)] *)
Definition get_outer_faces (remove_duplicates : bool)
    (counted : gmap (Z * Z) (gmap (list Z) Z))
  : result (gmap (Z * Z) (gset (list Z))) :=
  for_each (fun (outer_faces : gmap (Z * Z) (gset (list Z))) element_id =>
              group <- load KeyError (counted !! element_id) ;;
              s <- outer_of_group remove_duplicates group ;;
              Ok (<[element_id := s]> outer_faces))
           (map_to_list counted).*1 ∅.

(** [get_faces(global_e, global_et, remove_duplicates)] *)
Definition get_faces (elements : list (list Z)) (global_et : gmap Z Z)
    (remove_duplicates : bool) : result (gmap (Z * Z) (gset (list Z))) :=
  counted <- get_all_faces elements global_et ;;
  get_outer_faces remove_duplicates counted.

End Faces.


(** ** Notions the statements use *)

(** The lowest number of a non-empty face. *)
Definition lowest (f : list Z) : Z := foldr Z.min (item f 0) f.

(** How often [x] occurs in [f]. *)
Definition occurrences (x : Z) (f : list Z) : nat :=
  length (filter (fun y => y = x) f).

(** A face in canonical form: non-empty, with a lowest number in front. *)
Definition canonical (f : list Z) : bool :=
  match f with
  | [] => false
  | x :: t => forallb (Z.leb x) t
  end.

(** A counted-face dictionary none of whose keys is the empty tuple. *)
Definition keys_nonempty (group : gmap (list Z) Z) : Prop :=
  forall k, is_Some (group !! k) -> k <> [].

(** ** Renumbering *)

Module Renumber.

Section WithCoordinates.

(** The values of the node table: hashable coordinate triples, compared by
    value (a NaN coordinate is outside this model). *)
Context {C : Type} `{Countable C}.

(** What the loop over one group keeps: [index_number], [vert_coords] and
    the list [verts[face_type]]. *)
Record group_state : Type := GroupState {
  index_number : Z;
  vert_coords : gmap C Z;
  verts : list C
}.

(** The body of [for v in f]. *)
Definition renumber_node (global_n : gmap Z C) (acc : group_state * list Z)
    (v : Z) : result (group_state * list Z) :=
  let (st, face) := acc in
  coord <- load KeyError (global_n !! v) ;;
  match vert_coords st !! coord with
  | Some index => Ok (st, face ++ [index])
  | None =>
      let index := index_number st in
      Ok (GroupState (index_number st + 1)
                     (<[coord := index]> (vert_coords st))
                     (verts st ++ [coord]),
          face ++ [index])
  end.

(** The body of [for f in global_faces[face_type]]. *)
Definition renumber_face (global_n : gmap Z C)
    (acc : group_state * list (list Z)) (f : list Z)
  : result (group_state * list (list Z)) :=
  let (st, faces) := acc in
  r <- for_each (renumber_node global_n) f (st, []) ;;
  Ok (r.1, faces ++ [r.2]).

(** One group: [fs] is the group's set of faces in the order the loop
    meets them. *)
Definition renumber_group (global_n : gmap Z C) (fs : list (list Z))
  : result (list C * list (list Z)) :=
  r <- for_each (renumber_face global_n) fs (GroupState 0 ∅ [], []) ;;
  Ok (verts r.1, r.2).

(** [renumber(global_n, global_faces)]; [iter] is the order in which a set
    of faces is iterated, which Python leaves to the hash table. *)
Definition renumber (iter : gset (list Z) -> list (list Z))
    (global_n : gmap Z C) (global_faces : gmap (Z * Z) (gset (list Z)))
  : result (gmap (Z * Z) (list C) * gmap (Z * Z) (list (list Z))) :=
  for_each (fun (acc : gmap (Z * Z) (list C) * gmap (Z * Z) (list (list Z)))
                (face_type : Z * Z) =>
              s <- load KeyError (global_faces !! face_type) ;;
              r <- renumber_group global_n (iter s) ;;
              Ok (<[face_type := r.1]> acc.1, <[face_type := r.2]> acc.2))
           (map_to_list global_faces).*1 (∅, ∅).

(** The distinct items of a list, in the order of their first occurrence. *)
Fixpoint first_seen (l : list C) : list C :=
  match l with
  | [] => []
  | x :: l' => x :: filter (fun y => y <> x) (first_seen l')
  end.

(** The coordinates a list of node ids refers to, in order. *)
Definition coords_of (global_n : gmap Z C) (vs : list Z) : list C :=
  omap (fun v => global_n !! v) vs.

(** The invariant of the loops of [renumber] once the coordinates [cs] have
    been met: [verts] lists them in first-seen order, [index_number] is its
    length and [vert_coords] maps each to its position. *)
Definition renumber_inv (cs : list C) (st : group_state) : Prop :=
  verts st = first_seen cs /\
  index_number st = Z.of_nat (length (verts st)) /\
  (forall c i, vert_coords st !! c = Some i <->
               0 <= i /\ verts st !! Z.to_nat i = Some c).

(** The index [i] written for node [v] points at the coordinate of [v] in
    the vertex list [vs]. *)
Definition points_at (global_n : gmap Z C) (vs : list C) (v i : Z) : Prop :=
  0 <= i /\ exists c, global_n !! v = Some c /\ vs !! Z.to_nat i = Some c.

(** A face all of whose node ids are in the node table. *)
Definition face_present (global_n : gmap Z C) (f : list Z) : Prop :=
  Forall (fun v => is_Some (global_n !! v)) f.

End WithCoordinates.

End Renumber.

(** ** Strings *)

(** A Python [str], restricted to the characters of ASCII. *)
Abbreviation str := (list ascii).

Module PyStr.

Definition lit (s : string) : str := list_ascii_of_string s.

Definition code (c : ascii) : N := N_of_ascii c.

(** [c.isdigit()] *)
Definition isdigit (c : ascii) : bool :=
  ((48 <=? code c) && (code c <=? 57))%N.

(** [c.isspace()]: tab to carriage return, the four separators, space. *)
Definition isspace (c : ascii) : bool :=
  (((9 <=? code c) && (code c <=? 13)) || ((28 <=? code c) && (code c <=? 32)))%N.

Definition lower_char (c : ascii) : ascii :=
  if ((65 <=? code c) && (code c <=? 90))%N then ascii_of_N (code c + 32) else c.

(** [s.lower()] *)
Definition lower (s : str) : str := map lower_char s.

Fixpoint lstrip_by (p : ascii -> bool) (s : str) : str :=
  match s with
  | [] => []
  | c :: r => if p c then lstrip_by p r else s
  end.

Definition strip_by (p : ascii -> bool) (s : str) : str :=
  reverse (lstrip_by p (reverse (lstrip_by p s))).

(** [s.strip()] *)
Definition strip (s : str) : str := strip_by isspace s.

(** [s.strip(c)] for a one-character argument *)
Definition strip_char (c : ascii) (s : str) : str :=
  strip_by (fun d => bool_decide (d = c)) s.

(** [s.split(sep)] for a one-character separator *)
Fixpoint split (sep : ascii) (s : str) : list str :=
  match s with
  | [] => [[]]
  | c :: r =>
      if decide (c = sep) then [] :: split sep r
      else match split sep r with
           | h :: t => (c :: h) :: t
           | [] => [[c]]
           end
  end.

(** [s.find(c)]: the first index of [c], or -1. *)
Fixpoint find (c : ascii) (s : str) : Z :=
  match s with
  | [] => -1
  | d :: r =>
      if decide (d = c) then 0
      else let i := find c r in if decide (i < 0) then -1 else i + 1
  end.

(** [s.rfind(c)]: the last index of [c], or -1. *)
Fixpoint rfind (c : ascii) (s : str) : Z :=
  match s with
  | [] => -1
  | d :: r =>
      let i := rfind c r in
      if decide (0 <= i) then i + 1
      else if decide (d = c) then 0 else -1
  end.

(** [s.startswith(c)] for a one-character argument *)
Definition startswith (c : ascii) (s : str) : bool :=
  match s with
  | d :: _ => bool_decide (d = c)
  | [] => false
  end.

Definition len {A : Type} (s : list A) : Z := Z.of_nat (length s).

(** [s[a:b]], with Python's treatment of negative and oversized bounds. *)
Definition clamp {A : Type} (s : list A) (i : Z) : nat :=
  Z.to_nat (if decide (i < 0) then Z.max (i + len s) 0 else Z.min i (len s)).

Definition py_slice {A : Type} (s : list A) (a b : Z) : list A :=
  take (clamp s b - clamp s a) (drop (clamp s a) s).

(** [s[a:]] *)
Definition slice_from {A : Type} (s : list A) (a : Z) : list A :=
  drop (clamp s a) s.

(** Digits with single underscores between them, as [int] accepts. *)
Fixpoint digits (acc : Z) (after_digit : bool) (s : str) : option Z :=
  match s with
  | [] => if after_digit then Some acc else None
  | c :: r =>
      if isdigit c then digits (10 * acc + (Z.of_N (code c) - 48)) true r
      else if decide (c = "_"%char) then
        if after_digit then digits acc false r else None
      else None
  end.

(** [int(s)]; [None] is [ValueError]. *)
Definition int (s : str) : option Z :=
  match strip s with
  | c :: r =>
      if decide (c = "-"%char) then Z.opp <$> digits 0 false r
      else if decide (c = "+"%char) then digits 0 false r
      else digits 0 false (c :: r)
  | [] => None
  end.

(** [str(z)] and ["%i" % z] *)
Definition decimal (z : Z) : str := lit (NilZero.string_of_int (Z.to_int z)).

(** ["%8i" % z]: right-justified in [width] columns. *)
Definition pad_left (width : nat) (s : str) : str :=
  replicate (width - length s) " "%char ++ s.

Definition fmt_i8 (z : Z) : str := pad_left 8 (decimal z).

(** [filehandle.readline()]: up to and including the next newline; empty at
    the end of the file.  [text] is the stream of characters that the file
    object opened in text mode delivers, in which every line end of the file
    has already become the newline character. *)
Fixpoint readline (text : str) : str * str :=
  match text with
  | [] => ([], [])
  | c :: r =>
      if decide (c = "010"%char) then ([c], r)
      else let (l, r') := readline r in (c :: l, r')
  end.

End PyStr.

(** ** Insertion-ordered dictionaries *)

Module PyDict.

Section WithValues.

Context {V : Type}.

Fixpoint get (k : Z) (d : list (Z * V)) : option V :=
  match d with
  | [] => None
  | (k', v) :: r => if decide (k' = k) then Some v else get k r
  end.

(** [d[k] = v]: an existing key keeps its place. *)
Fixpoint set (k : Z) (v : V) (d : list (Z * V)) : list (Z * V) :=
  match d with
  | [] => [(k, v)]
  | (k', v') :: r => if decide (k' = k) then (k, v) :: r else (k', v') :: set k v r
  end.

Definition values (d : list (Z * V)) : list V := d.*2.

End WithValues.

End PyDict.

(** ** The cdb reader *)

Module Reader.

Import PyStr.

Section WithFloats.

(** Python's [float]: the values, the conversion [float(s)] ([None] is
    [ValueError]) and the float equal to the integer 0 that the code uses
    as default coordinate. *)
Context {F : Type}.
Variable float_of : str -> option F.
Variable zero : F.

(** A field of a format line: [(str_type, identifier1, identifier2)]. *)
Definition form : Type := str * Z * Z.

Definition width (fm : form) : Z := fm.1.2.

(** The four strings [detectFormat] collects from one group. *)
Record raw_form : Type := RawForm {
  raw_count : str;
  str_type : str;
  raw_identifier1 : str;
  raw_identifier2 : str
}.

Definition scan_char (r : raw_form) (c : ascii) : raw_form :=
  if (length (str_type r) =? 0)%nat && isdigit c then
    RawForm (raw_count r ++ [c]) (str_type r) (raw_identifier1 r) (raw_identifier2 r)
  else if (length (raw_identifier1 r) =? 0)%nat && negb (isdigit c) then
    RawForm (raw_count r) (str_type r ++ [c]) (raw_identifier1 r) (raw_identifier2 r)
  else if (length (raw_identifier2 r) =? 0)%nat && negb (bool_decide (c = "."%char)) then
    RawForm (raw_count r) (str_type r) (raw_identifier1 r ++ [c]) (raw_identifier2 r)
  else
    RawForm (raw_count r) (str_type r) (raw_identifier1 r) (raw_identifier2 r ++ [c]).

(** The [try] block of [detectFormat]; [None] is the [except: pass]. *)
Definition expand_form (r : raw_form) : option (list form) :=
  count ← int (raw_count r);
  identifier1 ← int (raw_identifier1 r);
  identifier2 ←
    (if (0 <? length (raw_identifier2 r))%nat
     then int (strip_char "."%char (raw_identifier2 r))
     else Some 0);
  Some (replicate (Z.to_nat count) (str_type r, identifier1, identifier2)).

(** [detectFormat(line)] *)
Definition detectFormat (line : str) : list form :=
  if decide (len line < 3) then []
  else
    let r1 := find "("%char line in
    let r2 := rfind ")"%char line in
    let r2 := if decide (r2 < 0) then len line else r2 in
    let line_split := split ","%char (py_slice line (r1 + 1) r2) in
    foldl (fun forms raw =>
             let r := foldl scan_char (RawForm [] [] [] []) raw in
             match expand_form r with
             | Some new => forms ++ new
             | None => forms
             end)
          [] line_split.

(** The tables of [read3DMesh], the module-level names that the [global]
    statements of its nested functions bind ([None]: not bound yet), and
    the unread rest of the file. *)
Record state : Type := State {
  global_et : gmap Z Z;
  global_e : list (Z * list Z);
  global_n : gmap Z (F * F * F);
  module_current_element : option Z;
  module_current_type : option Z;
  module_current_mat : option Z;
  module_current_real : option Z;
  rest : str
}.

(** The locals of [read3DMesh] that its nested functions read: no nested
    function assigns them (their assignments go to the module level), so
    they keep their initial value. *)
Definition current_mat : Z := 1.
Definition current_real : Z := 1.
Definition current_type : Z := 1.

Definition set_rest (st : state) (r : str) : state :=
  State (global_et st) (global_e st) (global_n st) (module_current_element st)
        (module_current_type st) (module_current_mat st) (module_current_real st) r.

Definition set_global_n (st : state) (n : gmap Z (F * F * F)) : state :=
  State (global_et st) (global_e st) n (module_current_element st)
        (module_current_type st) (module_current_mat st) (module_current_real st)
        (rest st).

Definition set_global_e (st : state) (e : list (Z * list Z)) : state :=
  State (global_et st) e (global_n st) (module_current_element st)
        (module_current_type st) (module_current_mat st) (module_current_real st)
        (rest st).

Definition set_current_element (st : state) (v : Z) : state :=
  State (global_et st) (global_e st) (global_n st) (Some v)
        (module_current_type st) (module_current_mat st) (module_current_real st)
        (rest st).

(** [float(tokens[i])] in a [try] whose handler keeps the default 0. *)
Definition float_or_zero (s : option str) : F :=
  default zero (s ≫= float_of).

(** [readN(tokens)] *)
Definition readN (tokens : list str) (st : state) : result state :=
  if decide (len tokens < 4) then Ok st
  else
    TYPE <- load IndexError (tokens !! 2%nat) ;;
    if negb (bool_decide (TYPE = lit "loc")) then Ok st
    else
      match tokens !! 3%nat ≫= int with
      | None => Ok st
      | Some node_number =>
          if decide (node_number <= 0) then Ok st
          else
            let x := float_or_zero (tokens !! 6%nat) in
            let y := float_or_zero (tokens !! 7%nat) in
            let z := float_or_zero (tokens !! 8%nat) in
            Ok (set_global_n st (<[node_number := (x, y, z)]> (global_n st)))
      end.

(** [int(tokens[i])] in a [try] whose handler takes [d]. *)
Definition int_or (d : Z) (s : option str) : Z := default d (s ≫= int).

(** All of [tokens[4:]] as integers, or [None] if one of them is not. *)
Definition node_tokens (tokens : list str) : option (list Z) :=
  mapM int (drop 4 tokens).

(** [readEN(tokens)] *)
Definition readEN (tokens : list str) (st : state) : result state :=
  if decide (len tokens < 4) then Ok st
  else
    sub <- load IndexError (tokens !! 2%nat) ;;
    if bool_decide (sub = lit "attr") then
      let element_mat := int_or current_mat (tokens !! 4%nat) in
      let element_type := int_or current_type (tokens !! 5%nat) in
      let element_real := int_or current_real (tokens !! 6%nat) in
      r <- match tokens !! 9%nat ≫= int with
           | Some element_number =>
               Ok (element_number, set_current_element st element_number)
           | None =>
               element_number <- load NameError (module_current_element st) ;;
               Ok (element_number, st)
           end ;;
      let element_number := r.1 in
      let st := r.2 in
      let element_data :=
        match PyDict.get element_number (global_e st) with
        | Some old =>
            if decide (3 <= len old)
            then element_mat :: element_real :: element_type :: drop 3 old
            else [element_mat; element_real; element_type]
        | None => [element_mat; element_real; element_type]
        end in
      Ok (set_global_e st (PyDict.set element_number element_data (global_e st)))
    else if bool_decide (sub = lit "node") then
      current_element <- load NameError (module_current_element st) ;;
      let element_data :=
        default [current_mat; current_real; current_type]
                (PyDict.get current_element (global_e st)) in
      match node_tokens tokens with
      | None => Ok st
      | Some nodes =>
          Ok (set_global_e st
                (PyDict.set current_element (element_data ++ nodes) (global_e st)))
      end
    else Ok st.

(** [max(d)] over the keys of a non-empty dictionary. *)
Definition max_key (keys : list Z) : Z :=
  match keys with
  | k :: r => foldr Z.max k r
  | [] => 0
  end.

(** [readET(tokens)]: [et_type] is assigned only where the type number is
    given. *)
Definition readET (tokens : list str) (st : state) : result state :=
  if decide (len tokens < 3) then Ok st
  else
    t1 <- load IndexError (tokens !! 1%nat) ;;
    r <- (if bool_decide (t1 = [])
          then
            let max_et :=
              if decide (0 < len (map_to_list (global_et st)))
              then max_key (map_to_list (global_et st)).*1
              else 0 in
            Ok (Some (max_et + 1, @None Z))
          else
            match int t1, tokens !! 2%nat ≫= int with
            | Some et_number, Some et_type => Ok (Some (et_number, Some et_type))
            | _, _ => Ok None
            end) ;;
    match r with
    | None => Ok st
    | Some (et_number, et_type) =>
        et_type <- load UnboundLocalError et_type ;;
        Ok (State (<[et_number := et_type]> (global_et st)) (global_e st)
                  (global_n st) (module_current_element st) (Some et_number)
                  (module_current_mat st) (module_current_real st) (rest st))
    end.

(** [readTYPE], [readMAT], [readREAL]: each binds a module-level name. *)
Definition readTYPE (tokens : list str) (st : state) : result state :=
  match tokens !! 1%nat ≫= int with
  | Some v =>
      Ok (State (global_et st) (global_e st) (global_n st)
                (module_current_element st) (Some v) (module_current_mat st)
                (module_current_real st) (rest st))
  | None => Ok st
  end.

Definition readMAT (tokens : list str) (st : state) : result state :=
  match tokens !! 1%nat ≫= int with
  | Some v =>
      Ok (State (global_et st) (global_e st) (global_n st)
                (module_current_element st) (module_current_type st) (Some v)
                (module_current_real st) (rest st))
  | None => Ok st
  end.

Definition readREAL (tokens : list str) (st : state) : result state :=
  match tokens !! 1%nat ≫= int with
  | Some v =>
      Ok (State (global_et st) (global_e st) (global_n st)
                (module_current_element st) (module_current_type st)
                (module_current_mat st) (Some v) (rest st))
  | None => Ok st
  end.

(** *** Block commands *)

(** [forms[i][1]]; [None] is [IndexError]. *)
Definition width_at (forms : list form) (i : nat) : option Z :=
  width <$> forms !! i.

(** [readNBLOCK]'s loop over the node lines.  Every iteration reads a line,
    and the loop returns at the end of the file. *)
Fixpoint nblock_loop (fuel : nat) (forms : list form)
    (start_x start_y start_z end_z : Z) (st : state) : result state :=
  match fuel with
  | O => Diverge
  | S fuel' =>
      let (node_line, rest') := readline (rest st) in
      let st := set_rest st rest' in
      if decide (len node_line = 0) then Ok st
      else
        first <- load IndexError (strip node_line !! 0%nat) ;;
        if bool_decide (lower_char first = "n"%char) then Ok st
        else
          match width_at forms 0 ≫= (fun w0 => int (py_slice node_line 0 w0)) with
          | None => nblock_loop fuel' forms start_x start_y start_z end_z st
          | Some node_number =>
              let x := float_or_zero (Some (py_slice node_line start_x start_y)) in
              let y := float_or_zero (Some (py_slice node_line start_y start_z)) in
              let z := float_or_zero (Some (py_slice node_line start_z end_z)) in
              nblock_loop fuel' forms start_x start_y start_z end_z
                (set_global_n st (<[node_number := (x, y, z)]> (global_n st)))
          end
  end.

(** [readNBLOCK(tokens, filehandle)] *)
Definition readNBLOCK (fuel : nat) (tokens : list str) (st : state)
  : result state :=
  let (format_line, rest') := readline (rest st) in
  let st := set_rest st rest' in
  let forms := detectFormat format_line in
  if decide (len forms < 6) then Ok st
  else
    match width <$> take 6 forms with
    | [w0; w1; w2; w3; w4; w5] =>
        let start_x := w0 + w1 + w2 in
        let start_y := start_x + w3 in
        let start_z := start_y + w4 in
        let end_z := start_z + w5 in
        nblock_loop fuel forms start_x start_y start_z end_z st
    | _ => Raise IndexError
    end.

(** The locals of [readEBLOCK] that one record can leave to the next:
    [field] and [end] are assigned only inside [try] blocks. *)
Record field_locals : Type := FieldLocals {
  fields : list Z;
  local_field : option Z;
  local_end : option Z;
  local_start : Z
}.

(** One iteration of [for i in range(Num_fields)] in the SOLID layout: a
    failed [try] is passed over and the stale [field] is appended. *)
Definition solid_field (forms : list form) (element_line : str)
    (loc : field_locals) (i : nat) : result field_locals :=
  let (fld, en) :=
    match width_at forms i with
    | None => (local_field loc, local_end loc)
    | Some w =>
        let en := local_start loc + w in
        match int (py_slice element_line (local_start loc) en) with
        | None => (local_field loc, Some en)
        | Some v => (Some v, Some en)
        end
    end in
  field <- load UnboundLocalError fld ;;
  end_ <- load UnboundLocalError en ;;
  Ok (FieldLocals (fields loc ++ [field]) (Some field) (Some end_) end_).

(** The inner [while True] of the continuation: [field_count] and [start]
    are the same in every iteration ([++field_count] is an expression
    without effect). *)
Fixpoint continuation_fields (fuel : nat) (forms : list form)
    (element_line : str) (field_count : nat) (loc : field_locals)
  : result field_locals :=
  match fuel with
  | O => Diverge
  | S fuel' =>
      match width_at forms field_count with
      | None => Ok loc
      | Some w =>
          let en := local_start loc + w in
          match int (py_slice element_line (local_start loc) en) with
          | None =>
              Ok (FieldLocals (fields loc) (local_field loc) (Some en)
                              (local_start loc))
          | Some v =>
              continuation_fields fuel' forms element_line field_count
                (FieldLocals (fields loc ++ [v]) (Some v) (Some en)
                             (local_start loc))
          end
      end
  end.

(** [while field_count < fields[8] + 11]: reads further lines. *)
Fixpoint continuation (fuel inner_fuel : nat) (forms : list form)
    (field_count : nat) (loc : field_locals) (text : str)
  : result (field_locals * str) :=
  match fuel with
  | O => Diverge
  | S fuel' =>
      nnodes <- load IndexError (fields loc !! 8%nat) ;;
      if decide (Z.of_nat field_count < nnodes + 11) then
        let (element_line, text') := readline text in
        let loc := FieldLocals (fields loc) (local_field loc) (local_end loc) 0 in
        loc' <- continuation_fields inner_fuel forms element_line field_count loc ;;
        continuation fuel' inner_fuel forms field_count loc' text'
      else Ok (loc, text)
  end.

(** What one record does to the loop of [readEBLOCK]. *)
Inductive record_outcome : Type :=
  | Stored (st : state) (field : option Z) (end_ : option Z)
  | Return (st : state).

(** One record of the SOLID layout. *)
Definition solid_record (fuel : nat) (Num_fields : Z) (forms : list form)
    (element_line : str) (field end_ : option Z) (st : state)
  : result record_outcome :=
  loc <- for_each (solid_field forms element_line)
           (seq 0 (Z.to_nat Num_fields)) (FieldLocals [] field end_ 0) ;;
  let field_count := length (fields loc) in
  if decide (field_count < 8)%nat then Ok (Return st)
  else
    r <- continuation fuel fuel forms field_count loc (rest st) ;;
    let loc := r.1 in
    let st := set_rest st r.2 in
    match py_slice (fields loc) 0 3, fields loc !! 10%nat with
    | [element_mat; element_type; element_real], Some element_number =>
        let element_nodes := slice_from (fields loc) 11 in
        Ok (Stored
              (set_global_e st
                 (PyDict.set element_number
                    ([element_mat; element_real; element_type] ++ element_nodes)
                    (global_e st)))
              (local_field loc) (local_end loc))
    | _, _ => Ok (Return st)
    end.

(** One iteration of [for i in range(Num_fields)] in the other layout;
    [None] is the [return] of the handler. *)
Definition plain_field (forms : list form) (element_line : str)
    (acc : option (list Z * Z)) (i : nat) : option (list Z * Z) :=
  '(flds, start) ← acc;
  w ← width_at forms i;
  v ← int (py_slice element_line start (start + w));
  Some (flds ++ [v], start + w).

(** One record of the layout without the SOLID key.  This layout assigns
    [field] and [end] before every use, so what it leaves in them is not
    tracked. *)
Definition plain_record (Num_fields : Z) (forms : list form)
    (element_line : str) (field end_ : option Z) (st : state)
  : record_outcome :=
  match foldl (plain_field forms element_line) (Some ([], 0))
              (seq 0 (Z.to_nat Num_fields)) with
  | None => Return st
  | Some (flds, _) =>
      match py_slice flds 0 4 with
      | [element_number; element_type; element_real; element_mat] =>
          let element_nodes := slice_from flds 5 in
          Stored
            (set_global_e st
               (PyDict.set element_number
                  ([element_mat; element_real; element_type] ++ element_nodes)
                  (global_e st)))
            field end_
      | _ => Return st
      end
  end.

(** The [while True] of [readEBLOCK]: a line that starts with [-] ends the
    block; the end of the file does not. *)
Fixpoint eblock_loop (fuel inner_fuel : nat) (isSOLID : bool) (Num_fields : Z)
    (forms : list form) (field end_ : option Z) (st : state) : result state :=
  match fuel with
  | O => Diverge
  | S fuel' =>
      let (element_line, rest') := readline (rest st) in
      let st := set_rest st rest' in
      if startswith "-"%char (strip element_line) then Ok st
      else
        r <- (if isSOLID
              then solid_record inner_fuel Num_fields forms element_line
                     field end_ st
              else Ok (plain_record Num_fields forms element_line field end_ st)) ;;
        match r with
        | Return st' => Ok st'
        | Stored st' field' end' =>
            eblock_loop fuel' inner_fuel isSOLID Num_fields forms field' end' st'
        end
  end.

(** [readEBLOCK(tokens, filehandle)] *)
Definition readEBLOCK (fuel : nat) (tokens : list str) (st : state)
  : result state :=
  if decide (len tokens < 3) then Ok st
  else
    match tokens !! 1%nat ≫= int with
    | None => Ok st
    | Some Num_fields =>
        solkey <- load IndexError (tokens !! 2%nat) ;;
        let isSOLID := bool_decide (solkey = lit "solid") in
        let (format_line, rest') := readline (rest st) in
        let st := set_rest st rest' in
        let forms := detectFormat format_line in
        if (isSOLID && bool_decide (len forms < 12)) || bool_decide (len forms < 6)
        then Ok st
        else eblock_loop fuel fuel isSOLID Num_fields forms None None st
    end.

(** [parseCommand(first_line, filehandle)] *)
Definition parseCommand (fuel : nat) (first_line : str) (st : state)
  : result state :=
  let tokens := (fun t => lower (strip t)) <$> split ","%char first_line in
  command <- load IndexError (tokens !! 0%nat) ;;
  if bool_decide (command = lit "n") then readN tokens st
  else if bool_decide (command = lit "en") then readEN tokens st
  else if bool_decide (command = lit "nblock") then readNBLOCK fuel tokens st
  else if bool_decide (command = lit "eblock") then readEBLOCK fuel tokens st
  else if bool_decide (command = lit "et") then readET tokens st
  else if bool_decide (command = lit "type") then readTYPE tokens st
  else if bool_decide (command = lit "mat") then readMAT tokens st
  else if bool_decide (command = lit "real") then readREAL tokens st
  else Ok st.

(** The loop of [read3DMesh] over the command lines. *)
Fixpoint read_loop (fuel inner_fuel : nat) (st : state) : result state :=
  match fuel with
  | O => Diverge
  | S fuel' =>
      let (line, rest') := readline (rest st) in
      let st := set_rest st rest' in
      if decide (len line = 0) then Ok st
      else
        st' <- parseCommand inner_fuel line st ;;
        read_loop fuel' inner_fuel st'
  end.

(** The module-level names before the first call. *)
Definition fresh (text : str) : state :=
  State ∅ [] ∅ None None None None text.

(** [read3DMesh(cdbfilename)] on a file with contents [text], every loop
    being given [fuel] iterations. *)
Definition read3DMesh (fuel : nat) (text : str)
  : result (gmap Z (F * F * F) * list (Z * list Z) * gmap Z Z) :=
  st <- read_loop fuel fuel (fresh text) ;;
  Ok (global_n st, global_e st, global_et st).

End WithFloats.

End Reader.

(** ** The reading pipeline *)

Module Pipeline.

Section WithFloats.

Context {F : Type} `{Countable F}.
Variable float_of : str -> option F.
Variable zero : F.

(** [readMesh] up to the calls into the host: [read3DMesh], [get_faces],
    [renumber]. *)
Definition readMesh (fuel : nat) (iter : gset (list Z) -> list (list Z))
    (text : str) (remove_duplicates : bool)
  : result (gmap (Z * Z) (list (F * F * F)) * gmap (Z * Z) (list (list Z))) :=
  r <- Reader.read3DMesh float_of zero fuel text ;;
  let n := r.1.1 in
  let e := r.1.2 in
  let et := r.2 in
  f <- Faces.get_faces (PyDict.values e) et remove_duplicates ;;
  Renumber.renumber iter n f.

End WithFloats.

End Pipeline.

(** ** The cdb writer *)

Module Writer.

Import PyStr.

Section WithFloats.

(** ["%16.9g" % x] *)
Context {F : Type}.
Variable fmt_g16_9 : F -> str.

Definition four_noded_shell : Z * Z := (1, 63).
Definition eight_noded_shell : Z * Z := (2, 93).

Definition newline : str := ["010"%char].

(** [writeHeader] *)
Definition writeHeader : str := lit "/PREP7" ++ newline ++ lit "/TITLE," ++ newline.

(** [writeET] *)
Definition writeET : str :=
  lit "ET," ++ decimal four_noded_shell.1 ++ lit "," ++ decimal four_noded_shell.2
  ++ newline
  ++ lit "ET," ++ decimal eight_noded_shell.1 ++ lit "," ++ decimal eight_noded_shell.2
  ++ newline.

(** [writeNBLOCK], on the items of the node dictionary in its order. *)
Definition node_record (node : Z * (F * F * F)) : str :=
  fmt_i8 node.1 ++ fmt_i8 0 ++ fmt_i8 0
  ++ fmt_g16_9 node.2.1.1 ++ fmt_g16_9 node.2.1.2 ++ fmt_g16_9 node.2.2
  ++ newline.

Definition writeNBLOCK (n : list (Z * (F * F * F))) : str :=
  lit "NBLOCK,6,SOLID" ++ newline ++ lit "(3i8,6g16.9)" ++ newline
  ++ concat (node_record <$> n)
  ++ lit "N,R5.3,LOC,-1," ++ newline.

(** The element type and the node list written for a face; [None] is the
    [continue] for a face of any other size. *)
Definition shell_of_face (face : list Z) : option (Z * list Z) :=
  match face with
  | [_; _; _; _] => Some (four_noded_shell.1, face)
  | [_; _; _; _; _; _; _; _] => Some (eight_noded_shell.1, face)
  | [f0; f1; f2] => Some (four_noded_shell.1, [f0; f1; f2; f2])
  | [f0; f1; f2; f3; f4; f5] =>
      Some (eight_noded_shell.1, [f0; f2; f4; f4; f1; f3; f4; f5])
  | _ => None
  end.

Definition element_record (element_mat element_type element_real
    element_number : Z) (nodes : list Z) : str :=
  concat (fmt_i8 <$> [element_mat; element_type; element_real; 1; 0; 0; 0; 0;
                      len nodes; 0; element_number]
                     ++ take 4 nodes)
  ++ (if decide (4 < len nodes)
      then concat (fmt_i8 <$> take 4 (drop 4 nodes)) ++ newline
      else newline).

(** What the loops of [writeEBLOCK] carry: the text written so far and
    [element_number], [element_mat], [element_real]. *)
Record eblock_state : Type := EblockState {
  written : str;
  element_number : Z;
  element_mat : Z;
  element_real : Z
}.

Definition write_face (s : eblock_state) (face : list Z) : eblock_state :=
  match shell_of_face face with
  | None => s
  | Some (element_type, nodes) =>
      EblockState
        (written s ++ element_record (element_mat s) element_type
                        (element_real s) (element_number s) nodes)
        (element_number s + 1) (element_mat s) (element_real s)
  end.

Definition write_face_list (inc_mat inc_real : bool) (s : eblock_state)
    (face_list : list (list Z)) : eblock_state :=
  let s := foldl write_face s face_list in
  EblockState (written s) (element_number s)
    (if inc_mat then element_mat s + 1 else element_mat s)
    (if inc_real then element_real s + 1 else element_real s).

(** [writeEBLOCK] *)
Definition writeEBLOCK (faces : list (list (list Z))) (init_mat : Z)
    (inc_mat : bool) (init_real : Z) (inc_real : bool) : str :=
  let face_count := foldl (fun c face_list => c + len face_list) 0 faces in
  let head :=
    lit "EBLOCK,19,SOLID," ++ decimal face_count ++ newline
    ++ lit "(19i8)" ++ newline in
  written (foldl (write_face_list inc_mat inc_real)
                 (EblockState head 1 init_mat init_real) faces)
  ++ lit "-1," ++ newline.

(** [writeFINISH] *)
Definition writeFINISH : str := lit "FINISH" ++ newline.

(** What [write] puts into the file, given the nodes and faces that
    [processSelectedObjs] extracted from the scene. *)
Definition write (n : list (Z * (F * F * F))) (f : list (list (list Z)))
    (initial_mat : Z) (increment_mat : bool) (initial_real : Z)
    (increment_real : bool) : str :=
  writeHeader ++ writeET ++ writeNBLOCK n
  ++ writeEBLOCK f initial_mat increment_mat initial_real increment_real
  ++ writeFINISH.

End WithFloats.

End Writer.

(** ** Sample files *)

Module Samples.

Import PyStr.

(** A SOLID block whose only record declares 20 nodes, on three lines. *)
Definition twenty_node_file : str := lit
"EBLOCK,19,SOLID,1
(19i8)
       1       1       1       1       0       0       0       0      20       0       1       1       2       3       4       5       6       7       8
       9      10      11      12      13      14      15      16
      17      18      19      20
-1
".

(** A SOLID block cut off after its format line. *)
Definition cut_after_format : str := lit
"EBLOCK,19,SOLID,1
(19i8)
".

(** A SOLID block cut off after one four-node record. *)
Definition cut_after_record : str := lit
"EBLOCK,19,SOLID,1
(19i8)
       1       1       1       1       0       0       0       0       4       0       1       1       2       3       4
".

(** A node block cut off after one node line. *)
Definition cut_node_block : str := lit
"NBLOCK,6,SOLID
(3i8,6g16.9)
       7       0       0               1               2               3
".

(** The unit cube as [processSelectedObjs] hands it to the writer: nodes 1
    to 8 on coordinates [a0] and [a1], one object of six quadrilaterals. *)
Definition cube_nodes {F : Type} (a0 a1 : F) : list (Z * (F * F * F)) :=
  [ (1, (a0, a0, a0)); (2, (a1, a0, a0)); (3, (a1, a1, a0)); (4, (a0, a1, a0));
    (5, (a0, a0, a1)); (6, (a1, a0, a1)); (7, (a1, a1, a1)); (8, (a0, a1, a1)) ].

Definition cube_faces : list (list (list Z)) :=
  [ [ [1; 4; 3; 2]; [5; 6; 7; 8]; [1; 2; 6; 5];
      [2; 3; 7; 6]; [3; 4; 8; 7]; [4; 1; 5; 8] ] ].

(** The file the writer produces for the cube when 0.0 and 1.0 are printed
    as [0] and [1] in 16 columns. *)
Definition cube_file : str := lit
"/PREP7
/TITLE,
ET,1,63
ET,2,93
NBLOCK,6,SOLID
(3i8,6g16.9)
       1       0       0               0               0               0
       2       0       0               1               0               0
       3       0       0               1               1               0
       4       0       0               0               1               0
       5       0       0               0               0               1
       6       0       0               1               0               1
       7       0       0               1               1               1
       8       0       0               0               1               1
N,R5.3,LOC,-1,
EBLOCK,19,SOLID,6
(19i8)
       1       1       1       1       0       0       0       0       4       0       1       1       4       3       2
       1       1       1       1       0       0       0       0       4       0       2       5       6       7       8
       1       1       1       1       0       0       0       0       4       0       3       1       2       6       5
       1       1       1       1       0       0       0       0       4       0       4       2       3       7       6
       1       1       1       1       0       0       0       0       4       0       5       3       4       8       7
       1       1       1       1       0       0       0       0       4       0       6       4       1       5       8
-1,
FINISH
".

(** The element table read back from [cube_file]: every record is padded
    to eight node slots with its last node. *)
Definition cube_elements : list (Z * list Z) :=
  [ (1, [1; 1; 1; 1; 4; 3; 2; 2; 2; 2; 2]);
    (2, [1; 1; 1; 5; 6; 7; 8; 8; 8; 8; 8]);
    (3, [1; 1; 1; 1; 2; 6; 5; 5; 5; 5; 5]);
    (4, [1; 1; 1; 2; 3; 7; 6; 6; 6; 6; 6]);
    (5, [1; 1; 1; 3; 4; 8; 7; 7; 7; 7; 7]);
    (6, [1; 1; 1; 4; 1; 5; 8; 8; 8; 8; 8]) ].

(** The outer faces of the cube, in canonical form. *)
Definition cube_outer : gset (list Z) :=
  {[ [1; 4; 3; 2]; [5; 6; 7; 8]; [1; 2; 6; 5];
     [2; 3; 7; 6]; [3; 4; 8; 7]; [1; 5; 8; 4] ]}.

End Samples.

(** ** Elements that face extraction cannot handle *)

Module Degenerate.

Import Faces.

(** The family code of an element, if its type is defined. *)
Definition family_of (global_et : gmap Z Z) (e : list Z) : option Z :=
  e !! 2%nat ≫= (fun type_id => global_et !! type_id).

(** A 20-node solid with [v3 == v4] and [v7 == v8]. *)
Definition midside_wedge (global_et : gmap Z Z) (e : list Z) : bool :=
  match family_of global_et e with
  | Some etype =>
      family_in etype [95; 186] && bool_decide (23 <= length e)%nat
      && bool_decide (item e 5 = item e 6) && bool_decide (item e 9 = item e 10)
  | None => false
  end.

(** An 8-node shell with [v3 == v4]. *)
Definition midside_triangle (global_et : gmap Z Z) (e : list Z) : bool :=
  match family_of global_et e with
  | Some etype =>
      family_in etype [93; 281] && bool_decide (11 <= length e)%nat
      && bool_decide (item e 5 = item e 6)
  | None => false
  end.

(** A 10-node tetrahedron: the only element that assigns [v13]. *)
Definition binds_v13 (global_et : gmap Z Z) (e : list Z) : bool :=
  match family_of global_et e with
  | Some etype => family_in etype [92; 187] && bool_decide (13 <= length e)%nat
  | None => false
  end.

End Degenerate.

(** ** What a written file holds *)

Module Exported.

Import Writer PyStr.

(** The numbers that ["%8i"] prints in exactly eight columns. *)
Definition fits_i8 (z : Z) : Prop := -10000000 < z < 100000000.

(** The coordinates that survive the file: ["%16.9g"] prints them in
    sixteen columns on one line, and [float] reads the same value back. *)
Definition reads_back {F : Type} (fmt_g16_9 : F -> str)
    (float_of : str -> option F) (x : F) : Prop :=
  length (fmt_g16_9 x) = 16%nat /\ ("010"%char ∉ fmt_g16_9 x)
  /\ float_of (fmt_g16_9 x) = Some x.

(** The element table entry for a face that [writeEBLOCK] writes: the
    material, the real constant, the element type and the nodes, those of
    a four-node record followed by four more copies of the last one (the
    slots of the 19-field line that the record leaves empty). *)
Definition shell_element (mat real : Z) (face : list Z) : option (list Z) :=
  '(element_type, nodes) ← shell_of_face face;
  Some ([mat; real; element_type] ++ nodes
        ++ replicate (8 - length nodes) (item nodes 3)).

(** The entries for the faces of the [k]-th object. *)
Definition object_elements (init_mat : Z) (inc_mat : bool) (init_real : Z)
    (inc_real : bool) (k : nat) (face_list : list (list Z)) : list (list Z) :=
  omap (shell_element (if inc_mat then init_mat + Z.of_nat k else init_mat)
                      (if inc_real then init_real + Z.of_nat k else init_real))
       face_list.

(** The element table of the file: the entries of all objects, numbered
    from 1. *)
Definition element_table (faces : list (list (list Z))) (init_mat : Z)
    (inc_mat : bool) (init_real : Z) (inc_real : bool) : list (Z * list Z) :=
  imap (fun i e => (Z.of_nat i + 1, e))
       (concat (imap (object_elements init_mat inc_mat init_real inc_real) faces)).

(** The element types that [writeET] defines. *)
Definition element_types : gmap Z Z :=
  {[ four_noded_shell.1 := four_noded_shell.2;
     eight_noded_shell.1 := eight_noded_shell.2 ]}.

End Exported.

(** * Properties of canonicalization and inversion *)

Import Faces Renumber PyStr Reader Writer Samples Pipeline Degenerate Exported.

Section FaceLemmas.

Implicit Types f p s t : list Z.

Lemma foldl_snoc_map {A B : Type} (g : A -> B) (xs : list A) (acc : list B) :
  foldl (fun acc i => acc ++ [g i]) acc xs = acc ++ map g xs.
Proof.
  revert acc. induction xs as [|x xs IH]; intros acc; simpl.
  - by rewrite app_nil_r.
  - rewrite IH, <- app_assoc. reflexivity.
Qed.

Lemma item_lookup f i x : f !! i = Some x -> item f i = x.
Proof. intros H. unfold item. by apply nth_lookup_Some with (d := 0) in H. Qed.

Lemma item_app_l p s i : (i < length p)%nat -> item (p ++ s) i = item p i.
Proof. intros H. unfold item. by rewrite app_nth1. Qed.

Lemma item_app_r p s i : item (p ++ s) (length p + i) = item s i.
Proof.
  unfold item. rewrite app_nth2 by lia. f_equal. lia.
Qed.

Lemma map_item_seq f a n :
  (a + n <= length f)%nat -> map (item f) (seq a n) = take n (drop a f).
Proof.
  revert a. induction n as [|n IH]; intros a H; simpl.
  - by rewrite take_0.
  - destruct (lookup_lt_is_Some_2 f a) as [x Hx]; [lia|].
    rewrite (drop_S _ _ _ Hx), (item_lookup _ _ _ Hx). simpl.
    f_equal. apply IH. lia.
Qed.

(** The second loop of [order_face] is the rotation by [min_index]. *)
Lemma rotation_loop f m :
  (m < length f)%nat ->
  foldl (fun ordered_face i =>
           let index := (m + i)%nat in
           let index :=
             if decide (length f <= index)%nat then (index - length f)%nat
             else index in
           ordered_face ++ [item f index])
        [] (seq 0 (length f))
  = drop m f ++ take m f.
Proof.
  intros Hm.
  rewrite (foldl_snoc_map
             (fun i => item f (if decide (length f <= m + i)%nat
                               then (m + i - length f)%nat else (m + i)%nat))).
  simpl. apply list_eq. intros i.
  rewrite list_lookup_fmap.
  destruct (decide (i < length f)%nat) as [Hi|Hi].
  - rewrite lookup_seq_lt by done. simpl.
    destruct (decide (length f <= m + i)%nat) as [Hw|Hw].
    + rewrite lookup_app_r by (rewrite length_drop; lia).
      rewrite length_drop, lookup_take_lt by lia.
      destruct (lookup_lt_is_Some_2 f (i - (length f - m))) as [x Hx]; [lia|].
      rewrite Hx. f_equal. apply item_lookup.
      rewrite <- Hx. f_equal. lia.
    + rewrite lookup_app_l by (rewrite length_drop; lia).
      rewrite lookup_drop.
      destruct (lookup_lt_is_Some_2 f (m + i)) as [x Hx]; [lia|].
      rewrite Hx. f_equal. by apply item_lookup.
  - rewrite lookup_seq_ge by lia. simpl. symmetry.
    apply lookup_ge_None_2.
    rewrite length_app, length_drop, length_take. lia.
Qed.

(** The first loop of [order_face], run for [k] steps, holds the index of the
    first lowest number among positions [0..k]. *)
Lemma min_scan_spec f k :
  let m := foldl (min_step f) 0%nat (seq 0 k) in
  (m <= k)%nat /\
  (forall j, (j <= k)%nat -> item f m <= item f j) /\
  (forall j, (j < m)%nat -> item f m < item f j).
Proof.
  induction k as [|k IH]; cbv zeta.
  - simpl. split; [lia|]. split.
    + intros j Hj. assert (j = 0%nat) as -> by lia. lia.
    + intros j Hj. lia.
  - rewrite seq_S, foldl_app. cbn [foldl]. cbv zeta in IH.
    destruct IH as (Hle & Hmin & Hfirst).
    set (m := foldl (min_step f) 0%nat (seq 0 k)) in *.
    replace (0 + k)%nat with k by lia.
    unfold min_step at 1 2 3 4.
    destruct (decide (item f (k + 1) < item f m)) as [Hlt|Hge].
    + split; [lia|]. split.
      * intros j Hj. destruct (decide (j = k + 1)%nat) as [->|Hne]; [lia|].
        specialize (Hmin j). lia.
      * intros j Hj. specialize (Hmin j). lia.
    + split; [lia|]. split.
      * intros j Hj. destruct (decide (j = S k)) as [->|Hne].
        -- replace (S k) with (k + 1)%nat by lia. lia.
        -- apply Hmin. lia.
      * exact Hfirst.
Qed.

Lemma min_index_of_spec f :
  f <> [] ->
  (min_index_of f < length f)%nat /\
  (forall j, (j < length f)%nat -> item f (min_index_of f) <= item f j) /\
  (forall j, (j < min_index_of f)%nat -> item f (min_index_of f) < item f j).
Proof.
  intros Hne.
  assert (0 < length f)%nat by (destruct f; [done | simpl; lia]).
  destruct (min_scan_spec f (length f - 1)) as (Hle & Hmin & Hfirst).
  change (foldl (min_step f) 0%nat (seq 0 (length f - 1)))
    with (min_index_of f) in *.
  split; [lia|]. split; [|done].
  intros j Hj. apply Hmin. lia.
Qed.

Lemma order_face_unfold f :
  f <> [] ->
  order_face f = PyTuple (drop (min_index_of f) f ++ take (min_index_of f) f).
Proof.
  intros Hne. unfold order_face.
  destruct (decide (length f = 0%nat)) as [H0|_].
  - destruct f; [done | discriminate].
  - simpl. f_equal. apply rotation_loop. by apply min_index_of_spec.
Qed.

(** A lowest number that sits after a strictly larger prefix is where
    [order_face] starts. *)
Lemma min_index_of_split p x s :
  Forall (fun y => x < y) p -> Forall (fun y => x <= y) s ->
  min_index_of (p ++ x :: s) = length p.
Proof.
  intros Hp Hs.
  remember (p ++ x :: s) as f eqn:Ef.
  assert (Hne : f <> []) by (subst f; destruct p; discriminate).
  assert (Hlen : length f = (length p + S (length s))%nat).
  { subst f. rewrite length_app. reflexivity. }
  destruct (min_index_of_spec f Hne) as (Hlt & Hmin & Hfirst).
  assert (Hx : item f (length p) = x).
  { apply item_lookup. subst f. by rewrite list_lookup_middle. }
  remember (min_index_of f) as m eqn:Em. clear Em.
  rewrite Forall_lookup in Hp. rewrite Forall_lookup in Hs.
  destruct (Nat.lt_trichotomy m (length p)) as [Hc|[Hc|Hc]].
  - exfalso.
    destruct (lookup_lt_is_Some_2 p m) as [y Hy]; [done|].
    assert (item f m = y).
    { apply item_lookup. subst f. by rewrite lookup_app_l. }
    specialize (Hp _ _ Hy). simpl in Hp.
    specialize (Hmin (length p)). lia.
  - exact Hc.
  - exfalso. specialize (Hfirst _ Hc).
    destruct (lookup_lt_is_Some_2 s (m - S (length p))) as [y Hy]; [lia|].
    assert (item f m = y).
    { apply item_lookup. subst f. rewrite lookup_app_r by lia.
      replace (m - length p)%nat with (S (m - S (length p))) by lia.
      exact Hy. }
    specialize (Hs _ _ Hy). simpl in Hs. lia.
Qed.

Lemma order_face_split p x s :
  Forall (fun y => x < y) p -> Forall (fun y => x <= y) s ->
  order_face (p ++ x :: s) = PyTuple (x :: s ++ p).
Proof.
  intros Hp Hs.
  rewrite order_face_unfold by (destruct p; discriminate).
  rewrite min_index_of_split by done.
  rewrite drop_app_length, take_app_length. reflexivity.
Qed.

Lemma lowest_from_le d f : foldr Z.min d f <= d.
Proof. induction f as [|y f IH]; simpl; lia. Qed.

Lemma lowest_from_lower d f y : y ∈ f -> foldr Z.min d f <= y.
Proof.
  induction f as [|z f IH]; simpl; intros Hy.
  - by apply elem_of_nil in Hy.
  - apply elem_of_cons in Hy as [->|Hy]; [lia|]. specialize (IH Hy). lia.
Qed.

Lemma lowest_from_elem d f : foldr Z.min d f = d \/ foldr Z.min d f ∈ f.
Proof.
  induction f as [|z f IH]; simpl.
  - by left.
  - destruct (Z.min_spec z (foldr Z.min d f)) as [[_ ->]|[_ ->]].
    + right. apply elem_of_cons. by left.
    + destruct IH as [IH|IH]; [by left|]. right. apply elem_of_cons. by right.
Qed.

Lemma lowest_elem f : f <> [] -> lowest f ∈ f.
Proof.
  intros Hne. unfold lowest.
  destruct (lowest_from_elem (item f 0) f) as [->|H]; [|done].
  destruct f as [|x t]; [done|]. unfold item. simpl.
  apply elem_of_cons. by left.
Qed.

Lemma lowest_lower f y : y ∈ f -> lowest f <= y.
Proof. apply lowest_from_lower. Qed.

Lemma occurrences_zero x f : occurrences x f = 0%nat -> x ∉ f.
Proof.
  unfold occurrences. intros H Hin.
  apply length_zero_iff_nil in H.
  by apply (filter_nil_not_elem_of _ _ x H).
Qed.

(** A face whose lowest number occurs once splits around it. *)
Lemma unique_lowest_split f :
  f <> [] -> occurrences (lowest f) f = 1%nat ->
  exists p s, f = p ++ lowest f :: s /\
    Forall (fun y => lowest f < y) p /\ Forall (fun y => lowest f < y) s.
Proof.
  intros Hne Hocc.
  destruct (list_elem_of_split f (lowest f) (lowest_elem f Hne)) as (p & s & Ef).
  exists p, s. split; [exact Ef|].
  remember (lowest f) as x eqn:Ex.
  assert (Hlow : forall y, y ∈ f -> x <= y).
  { intros y Hy. subst x. by apply lowest_lower. }
  unfold occurrences in Hocc. rewrite Ef in Hocc.
  rewrite filter_app, filter_cons_True, length_app in Hocc by done.
  simpl in Hocc.
  assert (Hp : x ∉ p) by (apply occurrences_zero; unfold occurrences; lia).
  assert (Hs : x ∉ s) by (apply occurrences_zero; unfold occurrences; lia).
  split; apply Forall_forall; intros y Hy.
  - assert (x <= y) by (apply Hlow; rewrite Ef; apply elem_of_app; by left).
    assert (y <> x) by (intros ->; done). lia.
  - assert (x <= y).
    { apply Hlow. rewrite Ef. apply elem_of_app. right. apply elem_of_cons. by right. }
    assert (y <> x) by (intros ->; done). lia.
Qed.

Lemma Forall_lt_le (x : Z) (l : list Z) :
  Forall (fun y => x < y) l -> Forall (fun y => x <= y) l.
Proof. intros H. eapply Forall_impl; [exact H|]. intros y Hy. simpl in *. lia. Qed.

(** Every rotation of a face that splits around a unique lowest number has
    the same canonical form. *)
Lemma order_face_rotate_split p x s k :
  Forall (fun y => x < y) p -> Forall (fun y => x < y) s ->
  order_face (rotate k (p ++ x :: s)) = PyTuple (x :: s ++ p).
Proof.
  intros Hp Hs. unfold rotate.
  remember (k `mod` length (p ++ x :: s))%nat as j eqn:Ej.
  assert (Hj : (j < length (p ++ x :: s))%nat).
  { subst j. apply Nat.mod_upper_bound. rewrite length_app. simpl. lia. }
  rewrite length_app in Hj. simpl in Hj. clear Ej.
  destruct (decide (j <= length p)%nat) as [Hle|Hgt].
  - rewrite drop_app_le, take_app_le by done.
    rewrite <- app_assoc. simpl.
    rewrite order_face_split.
    + rewrite <- app_assoc, take_drop. reflexivity.
    + by apply Forall_drop.
    + apply Forall_lt_le, Forall_app. split; [done | by apply Forall_take].
  - rewrite drop_app_ge, take_app_ge by lia.
    destruct (j - length p)%nat as [|i] eqn:Ei; [lia|]. simpl.
    replace (drop i s ++ p ++ x :: take i s)
      with ((drop i s ++ p) ++ x :: take i s) by (by rewrite <- app_assoc).
    rewrite order_face_split.
    + rewrite app_assoc, take_drop. reflexivity.
    + apply Forall_app. split; [by apply Forall_drop | done].
    + by apply Forall_lt_le, Forall_take.
Qed.

(** C2, as stated, fails: with a repeated lowest number two rotations of one
    cycle are canonicalized differently.  [(1, 3, 1, 2)] is [(1, 2, 1, 3)]
    rotated by two places, and [order_face] leaves both as they are. *)
Lemma order_face_rotation_counterexample :
  rotate 2 [1; 2; 1; 3] = [1; 3; 1; 2] /\
  order_face (rotate 2 [1; 2; 1; 3]) <> order_face [1; 2; 1; 3].
Proof. split; [reflexivity | vm_compute; discriminate]. Qed.

(** C2, amended: for every non-empty face [f] whose lowest node id occurs
    exactly once (in particular every face of pairwise distinct node ids),
    and every cyclic rotation [r] of [f], [order_face(r) == order_face(f)]. *)
Theorem order_face_rotate f k :
  f <> [] -> occurrences (lowest f) f = 1%nat ->
  order_face (rotate k f) = order_face f.
Proof.
  intros Hne Hocc.
  destruct (unique_lowest_split f Hne Hocc) as (p & s & Ef & Hp & Hs).
  remember (lowest f) as x eqn:Ex. clear Ex Hocc Hne. subst f.
  rewrite order_face_rotate_split by done.
  rewrite order_face_split; [reflexivity | done | by apply Forall_lt_le].
Qed.

Lemma order_face_rotate_witness :
  [3; 1; 2] <> [] /\ occurrences (lowest [3; 1; 2]) [3; 1; 2] = 1%nat /\
  order_face (rotate 2 [3; 1; 2]) = order_face [3; 1; 2].
Proof.
  split; [discriminate|]. split; [reflexivity|].
  apply (order_face_rotate [3; 1; 2] 2); [discriminate | reflexivity].
Defined.

(** The loop of [inverse_face] reverses the tail. *)
Lemma inverse_face_cons x t : inverse_face (x :: t) = PyTuple (x :: reverse t).
Proof.
  unfold inverse_face. simpl. f_equal.
  rewrite (foldl_snoc_map (fun i => item (x :: t) (S (length t) - i - 1))).
  unfold item at 1. simpl. f_equal.
  rewrite Nat.sub_0_r.
  apply list_eq. intros i. rewrite list_lookup_fmap.
  destruct (decide (i < length t)%nat) as [Hi|Hi].
  - rewrite lookup_seq_lt, reverse_lookup by done. simpl.
    destruct (lookup_lt_is_Some_2 t (length t - S i)) as [y Hy]; [lia|].
    rewrite Hy. f_equal. apply item_lookup.
    replace (S (length t) - i - 1)%nat with (S (length t - S i)) by lia.
    exact Hy.
  - rewrite lookup_seq_ge by lia. simpl. symmetry.
    apply lookup_ge_None_2. rewrite length_reverse. lia.
Qed.

Lemma canonical_cons x t :
  canonical (x :: t) = true <-> Forall (fun y => x <= y) t.
Proof.
  simpl. rewrite forallb_forall, Forall_forall.
  split; intros H y Hy.
  - apply Z.leb_le, H. by apply list_elem_of_In.
  - apply Z.leb_le, H. by apply list_elem_of_In.
Qed.

(** A canonical face is a fixed point of [order_face]. *)
Lemma canonical_order_face f : canonical f = true -> order_face f = PyTuple f.
Proof.
  destruct f as [|x t]; [discriminate|].
  intros H. apply canonical_cons in H.
  pose proof (order_face_split [] x t (Forall_nil_2 _) H) as Ho.
  by rewrite app_nil_r in Ho.
Qed.

(** C10: for every face [f] in canonical form (its lowest node id at
    position 0), [inverse_face(f)] is a tuple that keeps that lowest id at
    position 0, hence is canonical and a fixed point of [order_face], and
    [inverse_face(inverse_face(f)) == f]. *)
Theorem inverse_face_canonical f :
  canonical f = true ->
  exists g,
    inverse_face f = PyTuple g /\
    item g 0 = item f 0 /\
    canonical g = true /\
    order_face g = PyTuple g /\
    inverse_face g = PyTuple f.
Proof.
  destruct f as [|x t]; [discriminate|].
  intros H. exists (x :: reverse t).
  assert (Hg : canonical (x :: reverse t) = true).
  { apply canonical_cons. apply canonical_cons in H.
    rewrite Forall_forall in *. intros y Hy. apply H.
    by apply elem_of_reverse. }
  split; [apply inverse_face_cons|].
  split; [reflexivity|].
  split; [exact Hg|].
  split; [by apply canonical_order_face|].
  rewrite inverse_face_cons, reverse_involutive. reflexivity.
Qed.

Lemma inverse_face_canonical_witness :
  canonical [1; 5; 7; 3] = true /\
  exists g,
    inverse_face [1; 5; 7; 3] = PyTuple g /\
    item g 0 = item [1; 5; 7; 3] 0 /\
    canonical g = true /\
    order_face g = PyTuple g /\
    inverse_face g = PyTuple [1; 5; 7; 3].
Proof.
  split; [reflexivity|].
  apply (inverse_face_canonical [1; 5; 7; 3]). reflexivity.
Defined.

End FaceLemmas.

(** * The outer-face test *)

Section OuterFaces.

Implicit Types (rd : bool) (f e : list Z) (c : Z) (g : Z * Z).
Implicit Types (es : list (list Z)).

Lemma bind_Ok {A B : Type} (r : result A) (k : A -> result B) (b : B) :
  bind r k = Ok b <-> exists a, r = Ok a /\ k a = Ok b.
Proof.
  destruct r as [a|e|]; simpl; split.
  - intros H. by exists a.
  - by intros (a' & [= ->] & H).
  - discriminate.
  - by intros (a' & [=] & _).
  - discriminate.
  - by intros (a' & [=] & _).
Qed.

(** A loop that adds to a set the items that pass a test. *)
Lemma collect_spec (test : list Z -> result bool) (l : list (list Z))
    (s0 s : gset (list Z)) :
  for_each (fun (s : gset (list Z)) f =>
              b <- test f ;; Ok (if b then {[f]} ∪ s else s)) l s0 = Ok s ->
  forall f, f ∈ s <-> f ∈ s0 \/ (f ∈ l /\ test f = Ok true).
Proof.
  revert s0. induction l as [|x l IH]; intros s0 H f; simpl in H.
  - injection H as <-. split; [by left|].
    intros [?|[Hin _]]; [done|]. by apply elem_of_nil in Hin.
  - apply bind_Ok in H as (s1 & H1 & H).
    apply bind_Ok in H1 as (b & Hb & [= <-]).
    rewrite (IH _ H f). rewrite elem_of_cons.
    destruct b.
    + rewrite elem_of_union, elem_of_singleton. split.
      * intros [[->|?]|[? ?]]; [right; split; [by left|done] | by left |].
        right. split; [by right|done].
      * intros [?|[[->|?] ?]]; [left; by right | left; by left |].
        right. by split.
    + split.
      * intros [?|[? ?]]; [by left|]. right. split; [by right|done].
      * intros [?|[[->|?] Ht]]; [by left | congruence |]. right. by split.
Qed.

Lemma outer_of_group_spec rd (group : gmap (list Z) Z) (s : gset (list Z)) :
  outer_of_group rd group = Ok s ->
  forall f, f ∈ s <-> is_Some (group !! f) /\ is_outer rd group f = Ok true.
Proof.
  intros H f. unfold outer_of_group in H.
  rewrite (collect_spec (is_outer rd group) _ _ _ H f).
  rewrite elem_of_empty.
  assert (Hk : f ∈ (map_to_list group).*1 <-> is_Some (group !! f)).
  { rewrite list_elem_of_fmap. split.
    - intros ([k c] & -> & Hin). apply elem_of_map_to_list in Hin. by exists c.
    - intros [c Hc]. exists (f, c). split; [done|]. by apply elem_of_map_to_list. }
  rewrite Hk. tauto.
Qed.

(** The test on a face the group counts [c] times. *)
Lemma is_outer_true rd (group : gmap (list Z) Z) f c :
  group !! f = Some c ->
  is_outer rd group f = Ok true <->
  not_in_dict (inverse_face f) group = Ok true /\ (rd = false \/ c = 1).
Proof.
  intros Hc. unfold is_outer.
  destruct (not_in_dict (inverse_face f) group) as [[|]|e|]; simpl.
  - destruct rd; simpl.
    + rewrite Hc. simpl. split.
      * intros [= Hb]. apply bool_decide_eq_true in Hb. split; [done | by right].
      * intros [_ [? | ->]]; [done|]. reflexivity.
    + split; [intros _; split; [done | by left] | done].
  - split; [discriminate | by intros [[=] _]].
  - split; [discriminate | by intros [[=] _]].
  - split; [discriminate | by intros [[=] _]].
Qed.

(** What the loop of [get_outer_faces] leaves under each key. *)
Lemma get_outer_faces_loop rd (counted : gmap (Z * Z) (gmap (list Z) Z))
    (keys : list (Z * Z)) (acc outer : gmap (Z * Z) (gset (list Z))) :
  for_each (fun (outer_faces : gmap (Z * Z) (gset (list Z))) element_id =>
              group <- load KeyError (counted !! element_id) ;;
              s <- outer_of_group rd group ;;
              Ok (<[element_id := s]> outer_faces)) keys acc = Ok outer ->
  forall g,
    (g ∈ keys ->
     exists group s, counted !! g = Some group /\
       outer_of_group rd group = Ok s /\ outer !! g = Some s) /\
    (g ∉ keys -> outer !! g = acc !! g).
Proof.
  revert acc. induction keys as [|k keys IH]; intros acc H g; simpl in H.
  - injection H as <-. split; [|done]. intros Hin. by apply elem_of_nil in Hin.
  - apply bind_Ok in H as (acc' & Hbody & H).
    apply bind_Ok in Hbody as (group & Hgroup & Hbody).
    apply bind_Ok in Hbody as (s & Hs & [= <-]).
    destruct (counted !! k) as [group'|] eqn:Hk; [|discriminate].
    injection Hgroup as ->.
    destruct (IH _ H g) as [IHin IHout].
    split.
    + intros Hin. destruct (decide (g ∈ keys)) as [Hg|Hg]; [by apply IHin|].
      apply elem_of_cons in Hin as [->|Hin]; [|done].
      exists group, s. split; [done|]. split; [done|].
      rewrite (IHout Hg). apply lookup_insert_eq.
    + intros Hnot. apply not_elem_of_cons in Hnot as [Hne Hnot].
      rewrite (IHout Hnot). by apply lookup_insert_ne.
Qed.

(** C1: in every (material, real constant) group, a counted face
    [f = (x, t...)] is in the group's outer faces if and only if its inverted
    counterpart [(x, reversed t...)], which is what [inverse_face(f)]
    returns, is not a key of the group's counted-face dictionary and either
    [remove_duplicates] is false or the count of [f] is 1. *)
Theorem outer_face_iff rd (counted : gmap (Z * Z) (gmap (list Z) Z))
    (outer : gmap (Z * Z) (gset (list Z))) g (group : gmap (list Z) Z)
    (x : Z) (t : list Z) c :
  get_outer_faces rd counted = Ok outer ->
  counted !! g = Some group ->
  group !! (x :: t) = Some c ->
  inverse_face (x :: t) = PyTuple (x :: reverse t) /\
  exists s, outer !! g = Some s /\
    (x :: t ∈ s <->
     group !! (x :: reverse t) = None /\ (rd = false \/ c = 1)).
Proof.
  intros Hout Hg Hf. split; [apply inverse_face_cons|].
  destruct (get_outer_faces_loop rd counted _ _ _ Hout g) as [Hin _].
  destruct Hin as (group' & s & Hg' & Hs & Hlook).
  { rewrite list_elem_of_fmap. exists (g, group). split; [done|].
    by apply elem_of_map_to_list. }
  rewrite Hg in Hg'. injection Hg' as <-.
  exists s. split; [done|].
  rewrite (outer_of_group_spec rd group s Hs (x :: t)).
  rewrite (is_outer_true rd group (x :: t) c Hf).
  unfold not_in_dict. rewrite inverse_face_cons. cbn [hashable bind].
  split.
  - intros (_ & [= Habs] & Hc). split; [|done].
    by apply bool_decide_eq_true in Habs.
  - intros [Habs Hc]. split; [by exists c|]. split; [|done].
    by rewrite bool_decide_eq_true_2.
Qed.

Lemma outer_face_iff_witness :
  let group : gmap (list Z) Z :=
    {[ [1; 2; 3] := 1; [1; 3; 2] := 1; [1; 2; 4] := 2; [1; 5; 6] := 1 ]} in
  let counted : gmap (Z * Z) (gmap (list Z) Z) := {[ (1, 1) := group ]} in
  let outer : gmap (Z * Z) (gset (list Z)) := {[ (1, 1) := {[ [1; 5; 6] ]} ]} in
  get_outer_faces true counted = Ok outer /\
  counted !! (1, 1) = Some group /\
  group !! [1; 2; 3] = Some 1 /\
  group !! [1; 3; 2] = Some 1 /\
  inverse_face [1; 2; 3] = PyTuple (1 :: reverse [2; 3]) /\
  exists s, outer !! (1, 1) = Some s /\
    ([1; 2; 3] ∈ s <->
     group !! (1 :: reverse [2; 3]) = None /\ (true = false \/ 1 = 1)).
Proof.
  intros group counted outer.
  assert (H1 : get_outer_faces true counted = Ok outer) by (vm_compute; reflexivity).
  assert (H2 : counted !! (1, 1) = Some group) by (vm_compute; reflexivity).
  assert (H3 : group !! [1; 2; 3] = Some 1) by (vm_compute; reflexivity).
  assert (H4 : group !! [1; 3; 2] = Some 1) by (vm_compute; reflexivity).
  split; [exact H1|]. split; [exact H2|]. split; [exact H3|].
  split; [exact H4|].
  exact (outer_face_iff true counted outer (1, 1) group 1 [2; 3] 1 H1 H2 H3).
Defined.

(** In the branch for families 45 and 185 the wedge test comes first, and a
    collapsed tetrahedron passes it: the tetrahedral table is never used. *)
Lemma collapsed_tetrahedron_is_wedge etype mat real type_id v1 v2 v3 v5 v13 :
  family_in etype [45; 185] = true ->
  faces_of_element etype [mat; real; type_id; v1; v2; v3; v3; v5; v5; v5; v5] v13
  = Ok (Some (faces_on_6wedge v1 v2 v3 v5 v5 v5), v13).
Proof.
  intros H. unfold faces_of_element.
  assert (E1 : family_in etype [28; 63; 152] = false).
  { unfold family_in in *. apply bool_decide_eq_true in H.
    apply bool_decide_eq_false. intros H'.
    repeat (apply elem_of_cons in H as [->|H]);
      repeat (apply elem_of_cons in H' as [?|H']); try lia;
      try (by apply elem_of_nil in H); by apply elem_of_nil in H'. }
  assert (E2 : family_in etype [93; 281] = false).
  { unfold family_in in *. apply bool_decide_eq_true in H.
    apply bool_decide_eq_false. intros H'.
    repeat (apply elem_of_cons in H as [->|H]);
      repeat (apply elem_of_cons in H' as [?|H']); try lia;
      try (by apply elem_of_nil in H); by apply elem_of_nil in H'. }
  rewrite E1, E2, H. simpl.
  destruct (decide (v3 = v3 /\ v5 = v5)) as [_|Hn]; [reflexivity|].
  exfalso. by apply Hn.
Qed.

(** C3 (the code departs from the claim): a family-45 element collapsed by
    [v3 == v4] and [v5 == v6 == v7 == v8] is handled by the wedge branch.
    Of its five counted faces the degenerate [(4, 4, 4)] is its own inverse
    and is dropped; the four outer faces are one triangle and three 4-tuples
    with a repeated node, not four triangles. *)
Theorem collapsed_tetrahedron_outer_faces :
  get_all_faces [[1; 1; 1; 1; 2; 3; 3; 4; 4; 4; 4]] {[1 := 45]}
  = Ok {[ (1, 1) := {[ [1; 3; 2] := 1; [1; 2; 4; 4] := 1; [2; 3; 4; 4] := 1;
                       [1; 4; 4; 3] := 1; [4; 4; 4] := 1 ]} ]} /\
  get_faces [[1; 1; 1; 1; 2; 3; 3; 4; 4; 4; 4]] {[1 := 45]} true
  = Ok {[ (1, 1) := {[ [1; 3; 2]; [1; 2; 4; 4]; [2; 3; 4; 4]; [1; 4; 4; 3] ]} ]} /\
  (faces_on_4tetrahedral 1 2 3 4
   = [PyTuple [1; 3; 2]; PyTuple [1; 2; 4]; PyTuple [2; 3; 4]; PyTuple [1; 4; 3]]).
Proof. split; [|split]; vm_compute; reflexivity. Qed.

(** *** Face extraction leaves nothing for the outer-face test to fail on *)

Lemma for_each_all_ok {A S : Type} (body : S -> A -> result S) (xs : list A)
    (s : S) :
  (forall s x, x ∈ xs -> exists s', body s x = Ok s') ->
  exists s', for_each body xs s = Ok s'.
Proof.
  revert s. induction xs as [|x xs IH]; intros s Hok; [by exists s|].
  cbn [for_each]. destruct (Hok s x) as [s1 ->]; [by left|].
  cbn [bind]. apply IH. intros s2 y Hy. apply Hok. by right.
Qed.

Lemma for_each_invariant {A S : Type} (body : S -> A -> result S)
    (P : S -> Prop) (Q : A -> Prop) (xs : list A) (s s' : S) :
  (forall s x s', P s -> Q x -> body s x = Ok s' -> P s') ->
  P s -> Forall Q xs -> for_each body xs s = Ok s' -> P s'.
Proof.
  intros Hstep. revert s. induction xs as [|x xs IH]; intros s Hs Hq Hrun.
  - simpl in Hrun. by injection Hrun as <-.
  - cbn [for_each] in Hrun. apply bind_Ok in Hrun as (s1 & H1 & Hrun).
    inversion Hq; subst. eapply IH; [|done|exact Hrun]. by eapply Hstep.
Qed.

Lemma hashable_order_face f k : hashable (order_face f) = Ok k -> k <> [].
Proof.
  destruct f as [|x t]; [discriminate|].
  rewrite order_face_unfold by done. intros [= <-] Hnil.
  apply (f_equal length) in Hnil.
  rewrite length_app, length_drop, length_take in Hnil.
  destruct (min_index_of_spec (x :: t)) as [Hlt _]; [done|].
  simpl in *. lia.
Qed.

Lemma count_face_nonempty (group group' : gmap (list Z) Z) f :
  keys_nonempty group -> count_face group (order_face f) = Ok group' ->
  keys_nonempty group'.
Proof.
  intros Hwf Hrun. unfold count_face in Hrun.
  apply bind_Ok in Hrun as (key & Hkey & [= <-]).
  intros k [c Hc]. destruct (decide (key = k)) as [<-|Hne].
  - by eapply hashable_order_face.
  - rewrite lookup_insert_ne in Hc by done. apply Hwf. by exists c.
Qed.

(** Every face that the tables produce is a value of [order_face]. *)
Lemma faces_of_element_canonical etype e v13 faces v13' :
  faces_of_element etype e v13 = Ok (Some faces, v13') ->
  Forall (fun face => exists f, face = order_face f) faces.
Proof.
  unfold faces_of_element, faces_on_3triangle, faces_on_4rectangle,
    faces_on_6triangle, faces_on_8rectangle, faces_on_6wedge,
    faces_on_5pyramid, faces_on_4tetrahedral, faces_on_8hexahedral,
    faces_on_15wedge, faces_on_13pyramid, faces_on_10tetrahedral,
    faces_on_20hexahedral, load.
  intros Hrun.
  repeat case_match; simpl in Hrun; try discriminate;
    injection Hrun as <- <-; repeat constructor; eauto.
Qed.

Lemma get_all_faces_step_nonempty (et : gmap Z Z) (st st' : faces_state) e :
  (forall g group, counted_faces st !! g = Some group -> keys_nonempty group) ->
  get_all_faces_step et st e = Ok st' ->
  forall g group, counted_faces st' !! g = Some group -> keys_nonempty group.
Proof.
  intros Hwf Hrun. unfold get_all_faces_step in Hrun.
  destruct (e !! 2%nat) as [type_id|]; [|by injection Hrun as <-].
  destruct (et !! type_id) as [etype|]; [|by injection Hrun as <-].
  apply bind_Ok in Hrun as ([[faces|] v13] & Hfaces & Hrun);
    [|by injection Hrun as <-].
  destruct (slice 0 2 e) as [|element_mat [|element_real [|]]];
    try discriminate.
  apply bind_Ok in Hrun as (group' & Hcount & [= <-]). simpl.
  intros g group Hg. destruct (decide ((element_mat, element_real) = g)) as [<-|Hne].
  - rewrite lookup_insert_eq in Hg. injection Hg as <-.
    eapply (for_each_invariant count_face keys_nonempty
              (fun face => exists f, face = order_face f));
      [| |by eapply faces_of_element_canonical|exact Hcount].
    + intros gr face gr' Hgr [f ->]. by apply count_face_nonempty.
    + destruct (counted_faces st !! (element_mat, element_real)) as [gr|] eqn:E;
        simpl; [by eapply Hwf|].
      intros k [c Hc]. by rewrite lookup_empty in Hc.
  - rewrite lookup_insert_ne in Hg by done. by eapply Hwf.
Qed.

Lemma get_all_faces_nonempty es (et : gmap Z Z)
    (counted : gmap (Z * Z) (gmap (list Z) Z)) :
  get_all_faces es et = Ok counted ->
  forall g group, counted !! g = Some group -> keys_nonempty group.
Proof.
  unfold get_all_faces. intros Hrun.
  apply bind_Ok in Hrun as (st & Hrun & [= <-]).
  eapply (for_each_invariant (get_all_faces_step et)
            (fun st => forall g group,
               counted_faces st !! g = Some group -> keys_nonempty group)
            (fun _ => True));
    [| |by apply Forall_true|exact Hrun].
  - intros s e s' Hs _ Hstep. by eapply get_all_faces_step_nonempty.
  - simpl. intros g group Hg. by rewrite lookup_empty in Hg.
Qed.

Lemma is_outer_returns rd (group : gmap (list Z) Z) f :
  keys_nonempty group -> is_Some (group !! f) ->
  exists b, is_outer rd group f = Ok b.
Proof.
  intros Hwf [c Hc]. unfold is_outer, not_in_dict.
  destruct f as [|x t]; [by destruct (Hwf [] (ltac:(by exists c)))|].
  rewrite inverse_face_cons. cbn [hashable bind].
  destruct (bool_decide _); [|eauto].
  destruct (negb rd); [eauto|]. rewrite Hc. simpl. eauto.
Qed.

(** On the counted faces of any element table the outer-face test returns:
    no extraction makes [get_outer_faces] raise. *)
Lemma get_outer_faces_returns es (et : gmap Z Z) rd
    (counted : gmap (Z * Z) (gmap (list Z) Z)) :
  get_all_faces es et = Ok counted ->
  exists outer, get_outer_faces rd counted = Ok outer.
Proof.
  intros Hall. unfold get_outer_faces. apply for_each_all_ok.
  intros acc g Hg. apply list_elem_of_fmap in Hg as ([g' group] & -> & Hin).
  apply elem_of_map_to_list in Hin. simpl. rewrite Hin. cbn [load bind].
  destruct (for_each_all_ok
              (fun (s : gset (list Z)) f =>
                 b <- is_outer rd group f ;; Ok (if b then {[f]} ∪ s else s))
              (map_to_list group).*1 ∅) as [s Hs].
  { intros s f Hf. apply list_elem_of_fmap in Hf as ([f' c] & -> & Hf).
    apply elem_of_map_to_list in Hf. cbn [fst].
    destruct (is_outer_returns rd group f') as [b ->];
      [by eapply get_all_faces_nonempty|by exists c|].
    simpl. eauto. }
  unfold outer_of_group. rewrite Hs. simpl. eauto.
Qed.

End OuterFaces.

(** * Renumbering *)

Section RenumberLemmas.

Context {C : Type} `{Countable C}.

Implicit Types (l cs : list C) (c : C) (st : @group_state C _ _).
Implicit Types (N : gmap Z C) (f face : list Z) (fs faces : list (list Z)).

Lemma elem_of_first_seen l c : c ∈ first_seen l <-> c ∈ l.
Proof.
  induction l as [|x l IH]; simpl; [done|].
  rewrite !elem_of_cons, list_elem_of_filter, IH.
  destruct (decide (c = x)) as [->|Hne]; [by split; left | tauto].
Qed.

Lemma NoDup_first_seen l : NoDup (first_seen l).
Proof.
  induction l as [|x l IH]; simpl; [constructor|].
  constructor.
  - rewrite list_elem_of_filter. by intros [? _].
  - by apply NoDup_filter.
Qed.

Lemma first_seen_snoc l c :
  first_seen (l ++ [c]) =
    if decide (c ∈ l) then first_seen l else first_seen l ++ [c].
Proof.
  induction l as [|x l IH]; simpl.
  - destruct (decide (c ∈ [])) as [Hin|_]; [by apply elem_of_nil in Hin | done].
  - rewrite IH.
    destruct (decide (c ∈ l)) as [Hin|Hnot].
    + rewrite decide_True by (apply elem_of_cons; by right). reflexivity.
    + rewrite filter_app.
      destruct (decide (c = x)) as [->|Hne].
      * rewrite decide_True by (apply elem_of_cons; by left).
        rewrite filter_cons_False by (by intros ?). simpl.
        by rewrite app_nil_r.
      * rewrite decide_False by (rewrite elem_of_cons; tauto).
        rewrite filter_cons_True by done. reflexivity.
Qed.

Lemma length_first_seen l :
  length (first_seen l) = size (list_to_set l : gset C).
Proof.
  rewrite <- (size_list_to_set (C := gset C) (first_seen l))
    by apply NoDup_first_seen.
  f_equal. apply set_eq. intros c.
  by rewrite !elem_of_list_to_set, elem_of_first_seen.
Qed.

Lemma renumber_inv_init : @renumber_inv C _ _ [] (GroupState 0 ∅ []).
Proof.
  split; [done|]. split; [done|]. intros c i. simpl.
  rewrite lookup_empty. split; [done|]. intros [_ Hl].
  by rewrite lookup_nil in Hl.
Qed.

Lemma renumber_inv_elem cs st c :
  renumber_inv cs st -> (is_Some (vert_coords st !! c) <-> c ∈ cs).
Proof.
  intros (Hv & _ & Hm). rewrite <- elem_of_first_seen, <- Hv. split.
  - intros [i Hi]. apply Hm in Hi as [_ Hi]. by eapply list_elem_of_lookup_2.
  - intros Hin. apply list_elem_of_lookup_1 in Hin as [n Hn].
    exists (Z.of_nat n). apply Hm. split; [lia|]. by rewrite Nat2Z.id.
Qed.

(** One node: the state keeps the invariant and the index written into the
    face points at the node's coordinate. *)
Lemma renumber_node_spec N cs st face v c :
  renumber_inv cs st -> N !! v = Some c ->
  exists st' i,
    renumber_node N (st, face) v = Ok (st', face ++ [i]) /\
    renumber_inv (cs ++ [c]) st' /\
    verts st `prefix_of` verts st' /\
    0 <= i /\ verts st' !! Z.to_nat i = Some c.
Proof.
  intros Hinv Hv. pose proof Hinv as (Hverts & Hnum & Hmap).
  unfold renumber_node. rewrite Hv. simpl.
  destruct (vert_coords st !! c) as [i|] eqn:Hc.
  - exists st, i. split; [done|].
    assert (Hin : c ∈ cs) by (apply (renumber_inv_elem cs st c Hinv); by exists i).
    apply Hmap in Hc as [Hi Hl].
    split; [|done].
    split; [|done].
    by rewrite first_seen_snoc, decide_True.
  - exists (GroupState (index_number st + 1)
                       (<[c := index_number st]> (vert_coords st))
                       (verts st ++ [c])), (index_number st).
    split; [done|].
    assert (Hnot : c ∉ cs).
    { intros Hin. apply (renumber_inv_elem cs st c Hinv) in Hin as [i Hi].
      congruence. }
    split; [|split; [by apply prefix_app_r|]].
    + split; simpl.
      { by rewrite first_seen_snoc, decide_False, Hverts. }
      split; [rewrite length_app; simpl; lia|].
      intros c' i. rewrite lookup_insert.
      destruct (decide (c = c')) as [<-|Hne].
      * split.
        -- intros [= <-]. split; [lia|].
           rewrite Hnum, Nat2Z.id. by rewrite list_lookup_middle.
        -- intros [Hi Hl]. f_equal.
           destruct (decide (Z.to_nat i < length (verts st))%nat) as [Hlt|Hge].
           ++ rewrite lookup_app_l in Hl by done.
              exfalso. apply Hnot. rewrite <- elem_of_first_seen, <- Hverts.
              by eapply list_elem_of_lookup_2.
           ++ apply lookup_lt_Some in Hl. rewrite length_app in Hl.
              simpl in Hl. lia.
      * rewrite Hmap. split.
        -- intros [Hi Hl]. split; [done|].
           rewrite lookup_app_l; [done|]. by eapply lookup_lt_Some.
        -- intros [Hi Hl]. split; [done|].
           destruct (decide (Z.to_nat i < length (verts st))%nat) as [Hlt|Hge].
           ++ by rewrite lookup_app_l in Hl.
           ++ rewrite lookup_app_r in Hl by lia.
              destruct (Z.to_nat i - length (verts st))%nat; simpl in Hl;
                [congruence | by rewrite lookup_nil in Hl].
    + simpl. split; [lia|].
      rewrite Hnum, Nat2Z.id. by rewrite list_lookup_middle.
Qed.

Lemma coords_of_cons_Some N v f c :
  N !! v = Some c -> coords_of N (v :: f) = c :: coords_of N f.
Proof. intros Hv. unfold coords_of. simpl. by rewrite Hv. Qed.

Lemma coords_of_app N f1 f2 :
  coords_of N (f1 ++ f2) = coords_of N f1 ++ coords_of N f2.
Proof. apply omap_app. Qed.

Lemma renumber_node_Ok N st face v r :
  renumber_node N (st, face) v = Ok r -> exists c, N !! v = Some c.
Proof.
  unfold renumber_node. destruct (N !! v) as [c|]; [by exists c | discriminate].
Qed.

Lemma points_at_prefix N vs vs' v i :
  vs `prefix_of` vs' -> points_at N vs v i -> points_at N vs' v i.
Proof.
  intros Hpre (Hi & c & Hc & Hl). split; [done|]. exists c.
  split; [done|]. by eapply prefix_lookup_Some.
Qed.

(** The loop over the nodes of one face. *)
Lemma renumber_nodes_spec N f cs st face st' face' :
  renumber_inv cs st ->
  for_each (renumber_node N) f (st, face) = Ok (st', face') ->
  exists indices,
    face' = face ++ indices /\
    renumber_inv (cs ++ coords_of N f) st' /\
    verts st `prefix_of` verts st' /\
    Forall2 (points_at N (verts st')) f indices.
Proof.
  revert cs st face. induction f as [|v f IH]; intros cs st face Hinv Hrun.
  - simpl in Hrun. injection Hrun as <- <-. exists [].
    rewrite !app_nil_r. split; [done|]. split; [done|]. split; [done|].
    constructor.
  - cbn [for_each] in Hrun.
    apply bind_Ok in Hrun as ([st1 face1] & Hstep & Hrun).
    destruct (renumber_node_Ok _ _ _ _ _ Hstep) as [c Hc].
    destruct (renumber_node_spec N cs st face v c Hinv Hc)
      as (st1' & i & Hstep' & Hinv1 & Hpre1 & Hi & Hl).
    rewrite Hstep in Hstep'. injection Hstep' as -> ->.
    destruct (IH _ _ _ Hinv1 Hrun) as (indices & -> & Hinv' & Hpre' & Hall).
    exists (i :: indices).
    split; [by rewrite <- app_assoc|].
    split.
    { rewrite (coords_of_cons_Some _ _ _ _ Hc).
      by rewrite <- app_assoc in Hinv'. }
    split; [by etrans|].
    constructor; [|done].
    apply (points_at_prefix N (verts st1')); [done|].
    split; [done|]. by exists c.
Qed.

(** The loop over the faces of one group. *)
Lemma renumber_faces_spec N fs cs st faces st' faces' :
  renumber_inv cs st ->
  for_each (renumber_face N) fs (st, faces) = Ok (st', faces') ->
  exists new,
    faces' = faces ++ new /\
    renumber_inv (cs ++ coords_of N (concat fs)) st' /\
    verts st `prefix_of` verts st' /\
    Forall2 (Forall2 (points_at N (verts st'))) fs new.
Proof.
  revert cs st faces. induction fs as [|f fs IH]; intros cs st faces Hinv Hrun.
  - simpl in Hrun. injection Hrun as <- <-. exists [].
    rewrite !app_nil_r. split; [done|]. split; [done|]. split; [done|].
    constructor.
  - cbn [for_each] in Hrun.
    apply bind_Ok in Hrun as ([st1 faces1] & Hstep & Hrun).
    apply bind_Ok in Hstep as ([st1' face1] & Hnodes & [= <- <-]).
    cbn [fst snd] in Hrun.
    destruct (renumber_nodes_spec N f cs st [] st1' face1 Hinv Hnodes)
      as (indices & -> & Hinv1 & Hpre1 & Hall1).
    destruct (IH _ _ _ Hinv1 Hrun) as (new & -> & Hinv' & Hpre' & Hall).
    exists (indices :: new). simpl.
    split; [by rewrite <- app_assoc|].
    split; [by rewrite coords_of_app, app_assoc|].
    split; [by etrans|].
    constructor; [|done].
    eapply Forall2_impl; [exact Hall1|].
    intros v i. by apply points_at_prefix.
Qed.

(** One group: the vertex list is the first-seen list of the coordinates the
    faces refer to, and every index points at its node's coordinate. *)
Lemma renumber_group_spec N fs vs faces' :
  renumber_group N fs = Ok (vs, faces') ->
  vs = first_seen (coords_of N (concat fs)) /\
  Forall2 (Forall2 (points_at N vs)) fs faces'.
Proof.
  unfold renumber_group. intros Hrun.
  apply bind_Ok in Hrun as ([st' new] & Hrun & [= <- <-]).
  destruct (renumber_faces_spec N fs [] _ [] st' new renumber_inv_init Hrun)
    as (new' & -> & Hinv & _ & Hall).
  simpl in *. destruct Hinv as (Hverts & _). by split.
Qed.

(** What the loop of [renumber] over the groups leaves under each key. *)
Lemma renumber_loop (iter : gset (list Z) -> list (list Z)) N
    (F : gmap (Z * Z) (gset (list Z))) (keys : list (Z * Z))
    (acc out : gmap (Z * Z) (list C) * gmap (Z * Z) (list (list Z))) :
  for_each (fun (acc : gmap (Z * Z) (list C) * gmap (Z * Z) (list (list Z)))
                (face_type : Z * Z) =>
              s <- load KeyError (F !! face_type) ;;
              r <- renumber_group N (iter s) ;;
              Ok (<[face_type := r.1]> acc.1, <[face_type := r.2]> acc.2))
           keys acc = Ok out ->
  forall g,
    (g ∈ keys ->
     exists s vs faces', F !! g = Some s /\
       renumber_group N (iter s) = Ok (vs, faces') /\
       out.1 !! g = Some vs /\ out.2 !! g = Some faces') /\
    (g ∉ keys -> out.1 !! g = acc.1 !! g /\ out.2 !! g = acc.2 !! g).
Proof.
  revert acc. induction keys as [|k keys IH]; intros acc Hrun g.
  - simpl in Hrun. injection Hrun as <-. split; [|done].
    intros Hin. by apply elem_of_nil in Hin.
  - cbn [for_each] in Hrun.
    apply bind_Ok in Hrun as (acc' & Hbody & Hrun).
    apply bind_Ok in Hbody as (s & Hs & Hbody).
    apply bind_Ok in Hbody as ([vs faces'] & Hgroup & [= <-]).
    destruct (F !! k) as [s'|] eqn:Hk; [|discriminate].
    injection Hs as ->.
    destruct (IH _ Hrun g) as [IHin IHout].
    split.
    + intros Hin. destruct (decide (g ∈ keys)) as [Hg|Hg]; [by apply IHin|].
      apply elem_of_cons in Hin as [->|Hin]; [|done].
      exists s, vs, faces'. split; [done|]. split; [done|].
      destruct (IHout Hg) as [-> ->]. simpl.
      by rewrite !lookup_insert_eq.
    + intros Hnot. apply not_elem_of_cons in Hnot as [Hne Hnot].
      destruct (IHout Hnot) as [-> ->]. simpl.
      by rewrite !lookup_insert_ne.
Qed.

(** [renumber] has exactly the keys of its argument. *)
Lemma renumber_absent (iter : gset (list Z) -> list (list Z)) N
    (F : gmap (Z * Z) (gset (list Z)))
    (V : gmap (Z * Z) (list C)) (Fs : gmap (Z * Z) (list (list Z))) g :
  renumber iter N F = Ok (V, Fs) -> F !! g = None ->
  V !! g = None /\ Fs !! g = None.
Proof.
  intros Hrun Hg. unfold renumber in Hrun.
  destruct (renumber_loop iter N F _ _ _ Hrun g) as [_ Hout].
  destruct Hout as [HV HF]; [|simpl in HV, HF; by rewrite HV, HF].
  rewrite list_elem_of_fmap. intros ([g' s] & -> & Hin).
  apply elem_of_map_to_list in Hin. simpl in Hg. congruence.
Qed.

Lemma concat_Permutation {A : Type} (l l' : list (list A)) :
  l ≡ₚ l' -> concat l ≡ₚ concat l'.
Proof.
  induction 1 as [|x l l' _ IH|x y l|l l' l'' _ IH1 _ IH2]; simpl.
  - done.
  - by rewrite IH.
  - rewrite !app_assoc. f_equiv. apply Permutation_app_comm.
  - by etrans.
Qed.

(** C7, as stated, fails: [renumber] keys its vertices by coordinate, so two
    node ids with one coordinate share a vertex.  Here a face refers to three
    distinct node ids and the vertex array has two entries. *)
Lemma renumber_shared_coordinate_counterexample :
  size (list_to_set [1; 2; 3] : gset Z) = 3%nat /\
  renumber (C := Z * Z * Z) elements
           {[ 1 := (0, 0, 0); 2 := (0, 0, 0); 3 := (1, 0, 0) ]}
           {[ (1, 1) := {[ [1; 2; 3] ]} ]}
  = Ok ({[ (1, 1) := [(0, 0, 0); (1, 0, 0)] ]}, {[ (1, 1) := [[0; 0; 1]] ]}).
Proof. split; vm_compute; reflexivity. Qed.

(** What [renumber] returns for one group of its argument. *)
Lemma renumber_group_in_dict (iter : gset (list Z) -> list (list Z)) N
    (F : gmap (Z * Z) (gset (list Z)))
    (V : gmap (Z * Z) (list C)) (Fs : gmap (Z * Z) (list (list Z))) g s :
  renumber iter N F = Ok (V, Fs) ->
  F !! g = Some s ->
  exists vs faces',
    V !! g = Some vs /\ Fs !! g = Some faces' /\
    vs = first_seen (coords_of N (concat (iter s))) /\
    length vs = size (list_to_set (coords_of N (concat (iter s))) : gset C) /\
    Forall2 (Forall2 (fun v i => 0 <= i < Z.of_nat (length vs) /\
                                 vs !! Z.to_nat i = N !! v))
            (iter s) faces'.
Proof.
  intros Hrun Hg. unfold renumber in Hrun.
  destruct (renumber_loop iter N F _ _ _ Hrun g) as [Hin _].
  destruct Hin as (s' & vs & faces' & Hs' & Hgroup & HV & HF).
  { rewrite list_elem_of_fmap. exists (g, s). split; [done|].
    by apply elem_of_map_to_list. }
  rewrite Hg in Hs'. injection Hs' as <-.
  exists vs, faces'. split; [done|]. split; [done|].
  destruct (renumber_group_spec N (iter s) vs faces' Hgroup) as [Hvs Hall].
  split; [done|]. split; [rewrite Hvs; apply length_first_seen|].
  eapply Forall2_impl; [exact Hall|]. intros f face Hface.
  eapply Forall2_impl; [exact Hface|]. intros v i (Hi & c & Hc & Hl).
  split; [|by rewrite Hc].
  apply lookup_lt_Some in Hl. lia.
Qed.

(** C7, amended: for every group whose outer faces refer to nodes with [k]
    distinct coordinates, [renumber] produces a vertex array with exactly [k]
    entries, the coordinates in first-seen order; local indices are given
    0, 1, 2, ... in that order, and every index in every rewritten face lies
    in [[0, k)] and points at the coordinate of the node it replaces. *)
Theorem renumber_dense (iter : gset (list Z) -> list (list Z)) N
    (F : gmap (Z * Z) (gset (list Z)))
    (V : gmap (Z * Z) (list C)) (Fs : gmap (Z * Z) (list (list Z))) g s :
  renumber iter N F = Ok (V, Fs) ->
  F !! g = Some s ->
  exists vs faces',
    V !! g = Some vs /\ Fs !! g = Some faces' /\
    vs = first_seen (coords_of N (concat (iter s))) /\
    length vs = size (list_to_set (coords_of N (concat (iter s))) : gset C) /\
    Forall2 (Forall2 (fun v i => 0 <= i < Z.of_nat (length vs) /\
                                 vs !! Z.to_nat i = N !! v))
            (iter s) faces'.
Proof. apply renumber_group_in_dict. Qed.

Lemma Forall_em {A : Type} (P : A -> Prop) (xs : list A) :
  (forall x, P x \/ ~ P x) -> Forall P xs \/ ~ Forall P xs.
Proof.
  intros Hdec. induction xs as [|x xs [IH|IH]].
  - left. constructor.
  - destruct (Hdec x) as [Hx|Hx]; [left; by constructor|].
    right. intros Hall. by inversion Hall.
  - right. intros Hall. by inversion Hall.
Qed.

(** A loop whose body returns on the good items and raises [e] on the
    others returns when all items are good and raises [e] otherwise. *)
Lemma for_each_good {A S : Type} (body : S -> A -> result S)
    (good : A -> Prop) (e : exn) (xs : list A) :
  (forall x, good x \/ ~ good x) ->
  (forall s x, good x -> exists s', body s x = Ok s') ->
  (forall s x, ~ good x -> body s x = Raise e) ->
  forall s,
    (Forall good xs -> exists s', for_each body xs s = Ok s') /\
    (~ Forall good xs -> for_each body xs s = Raise e).
Proof.
  intros Hdec Hok Hraise. induction xs as [|x xs IH]; intros s.
  - split; [by exists s|]. intros Hn. exfalso. apply Hn. constructor.
  - cbn [for_each]. destruct (Hdec x) as [Hx|Hx].
    + destruct (Hok s x Hx) as [s' ->]. simpl.
      destruct (IH s') as [IHok IHraise]. split.
      * intros Hall. apply IHok. by inversion Hall.
      * intros Hn. apply IHraise. intros Hall. apply Hn. by constructor.
    + rewrite (Hraise s x Hx). simpl. split; [|done].
      intros Hall. inversion Hall. done.
Qed.

Lemma face_present_dec N f : face_present N f \/ ~ face_present N f.
Proof. destruct (decide (face_present N f)); [by left | by right]. Qed.

Lemma renumber_node_good N acc v :
  is_Some (N !! v) -> exists acc', renumber_node N acc v = Ok acc'.
Proof.
  intros [c Hc]. destruct acc as [st face]. unfold renumber_node.
  rewrite Hc. simpl. destruct (vert_coords st !! c); eauto.
Qed.

Lemma renumber_node_bad N acc v :
  ~ is_Some (N !! v) -> renumber_node N acc v = Raise KeyError.
Proof.
  intros Hn. destruct acc as [st face]. unfold renumber_node.
  destruct (N !! v) as [c|]; [|done]. exfalso. apply Hn. by exists c.
Qed.

Lemma renumber_face_good N acc f :
  face_present N f -> exists acc', renumber_face N acc f = Ok acc'.
Proof.
  intros Hf. destruct acc as [st faces]. unfold renumber_face.
  destruct (for_each_good (renumber_node N) (fun v => is_Some (N !! v))
              KeyError f) with (s := (st, @nil Z)) as [Hok _].
  - intros v. destruct (decide (is_Some (N !! v))); [by left | by right].
  - intros s v. apply renumber_node_good.
  - intros s v. apply renumber_node_bad.
  - destruct (Hok Hf) as [r ->]. simpl. eauto.
Qed.

Lemma renumber_face_bad N acc f :
  ~ face_present N f -> renumber_face N acc f = Raise KeyError.
Proof.
  intros Hf. destruct acc as [st faces]. unfold renumber_face.
  destruct (for_each_good (renumber_node N) (fun v => is_Some (N !! v))
              KeyError f) with (s := (st, @nil Z)) as [_ Hbad].
  - intros v. destruct (decide (is_Some (N !! v))); [by left | by right].
  - intros s v. apply renumber_node_good.
  - intros s v. apply renumber_node_bad.
  - by rewrite (Hbad Hf).
Qed.

Lemma renumber_group_total N fs :
  (Forall (face_present N) fs -> exists r, renumber_group N fs = Ok r) /\
  (~ Forall (face_present N) fs -> renumber_group N fs = Raise KeyError).
Proof.
  unfold renumber_group.
  destruct (for_each_good (renumber_face N) (face_present N) KeyError fs
              (face_present_dec N) (renumber_face_good N) (renumber_face_bad N)
              (GroupState 0 ∅ [], [])) as [Hok Hbad].
  split.
  - intros Hall. destruct (Hok Hall) as [r ->]. simpl. eauto.
  - intros Hn. by rewrite (Hbad Hn).
Qed.

(** C5, as stated, fails: nothing drops a face whose node is missing.  The
    triangle below refers to node 3, which the node table lacks; face
    extraction keeps it and [renumber] raises [KeyError]. *)
Lemma dangling_reference_counterexample :
  let N : gmap Z (Z * Z * Z) := {[ 1 := (0, 0, 0); 2 := (1, 0, 0) ]} in
  N !! 3 = None /\
  get_faces [[1; 1; 1; 1; 2; 3; 3]] {[ 1 := 63 ]} true
  = Ok {[ (1, 1) := {[ [1; 2; 3] ]} ]} /\
  renumber elements N {[ (1, 1) := {[ [1; 2; 3] ]} ]} = Raise KeyError.
Proof. repeat split; vm_compute; reflexivity. Qed.

(** When [renumber] returns and when it raises. *)
Lemma renumber_outcome (iter : gset (list Z) -> list (list Z)) N
    (F : gmap (Z * Z) (gset (list Z))) :
  ((exists r, renumber iter N F = Ok r) <->
   (forall g s f v, F !! g = Some s -> f ∈ iter s -> v ∈ f -> is_Some (N !! v)))
  /\
  ((exists g s f v, F !! g = Some s /\ f ∈ iter s /\ v ∈ f /\ N !! v = None) ->
   renumber iter N F = Raise KeyError).
Proof.
  set (good := fun g : Z * Z =>
         exists s, F !! g = Some s /\ Forall (face_present N) (iter s)).
  assert (Hdec : forall g, good g \/ ~ good g).
  { intros g. unfold good. destruct (F !! g) as [s|] eqn:Hg.
    - destruct (decide (Forall (face_present N) (iter s))) as [Hs|Hs].
      + left. by exists s.
      + right. intros (s' & [= <-] & Hs'). done.
    - right. by intros (s' & [=] & _). }
  pose proof (for_each_good
    (fun (acc : gmap (Z * Z) (list C) * gmap (Z * Z) (list (list Z)))
         (face_type : Z * Z) =>
       s <- load KeyError (F !! face_type) ;;
       r <- renumber_group N (iter s) ;;
       Ok (<[face_type := r.1]> acc.1, <[face_type := r.2]> acc.2))
    good KeyError (map_to_list F).*1 Hdec) as Hloop.
  destruct (Hloop) with (s := (∅ : gmap (Z * Z) (list C),
                               ∅ : gmap (Z * Z) (list (list Z))))
    as [Hok Hbad].
  { intros acc g (s & Hg & Hs). rewrite Hg. simpl.
    destruct (renumber_group_total N (iter s)) as [Hgok _].
    destruct (Hgok Hs) as [r ->]. simpl. eauto. }
  { intros acc g Hn. destruct (F !! g) as [s|] eqn:Hg; [|done]. simpl.
    destruct (renumber_group_total N (iter s)) as [_ Hgbad].
    rewrite Hgbad; [done|]. intros Hs. apply Hn. by exists s. }
  fold (renumber iter N F) in Hok, Hbad.
  assert (Hall : Forall good (map_to_list F).*1 <->
    (forall g s f v, F !! g = Some s -> f ∈ iter s -> v ∈ f -> is_Some (N !! v))).
  { rewrite Forall_forall. split.
    - intros Hg g s f v Hs Hf Hv.
      destruct (Hg g) as (s' & Hs' & Hfs).
      { rewrite list_elem_of_fmap. exists (g, s). split; [done|].
        by apply elem_of_map_to_list. }
      rewrite Hs in Hs'. injection Hs' as <-.
      rewrite Forall_forall in Hfs. specialize (Hfs f Hf).
      unfold face_present in Hfs. rewrite Forall_forall in Hfs. by apply Hfs.
    - intros Hp g Hg. apply list_elem_of_fmap in Hg as ([g' s] & -> & Hin).
      apply elem_of_map_to_list in Hin. exists s. split; [done|].
      apply Forall_forall. intros f Hf. apply Forall_forall. intros v Hv.
      by eapply Hp. }
  split; [split|].
  - intros [r Hr]. apply Hall.
    destruct (Forall_em good (map_to_list F).*1 Hdec) as [Hg|Hg]; [done|].
    rewrite (Hbad Hg) in Hr. discriminate.
  - intros Hp. apply Hok. by apply Hall.
  - intros (g & s & f & v & Hs & Hf & Hv & Hnone). apply Hbad.
    intros Hg. destruct Hall as [Hall _].
    destruct (Hall Hg g s f v Hs Hf Hv) as [c Hc]. congruence.
Qed.

(** C5, amended: face extraction never looks at the node table, so a face
    that refers to a node id absent from it stays among the outer faces;
    [renumber] returns normally exactly when every node id of every outer
    face is in the node table, and raises [KeyError] as soon as some outer
    face refers to a node id that is not. *)
Theorem renumber_dangling (iter : gset (list Z) -> list (list Z)) N
    (F : gmap (Z * Z) (gset (list Z))) :
  ((exists r, renumber iter N F = Ok r) <->
   (forall g s f v, F !! g = Some s -> f ∈ iter s -> v ∈ f -> is_Some (N !! v)))
  /\
  ((exists g s f v, F !! g = Some s /\ f ∈ iter s /\ v ∈ f /\ N !! v = None) ->
   renumber iter N F = Raise KeyError).
Proof. apply renumber_outcome. Qed.

End RenumberLemmas.

Lemma renumber_dense_witness :
  let N : gmap Z (Z * Z * Z) :=
    {[ 1 := (0, 0, 0); 2 := (0, 0, 0); 3 := (1, 0, 0) ]} in
  let F : gmap (Z * Z) (gset (list Z)) := {[ (1, 1) := {[ [1; 2; 3] ]} ]} in
  let V : gmap (Z * Z) (list (Z * Z * Z)) :=
    {[ (1, 1) := [(0, 0, 0); (1, 0, 0)] ]} in
  let Fs : gmap (Z * Z) (list (list Z)) := {[ (1, 1) := [[0; 0; 1]] ]} in
  renumber elements N F = Ok (V, Fs) /\
  F !! (1, 1) = Some {[ [1; 2; 3] ]} /\
  exists vs faces',
    V !! (1, 1) = Some vs /\ Fs !! (1, 1) = Some faces' /\
    vs = first_seen (coords_of N (concat (elements ({[ [1; 2; 3] ]} : gset (list Z))))) /\
    length vs =
      size (list_to_set
              (coords_of N (concat (elements ({[ [1; 2; 3] ]} : gset (list Z)))))
            : gset (Z * Z * Z)) /\
    Forall2 (Forall2 (fun v i => 0 <= i < Z.of_nat (length vs) /\
                                 vs !! Z.to_nat i = N !! v))
            (elements ({[ [1; 2; 3] ]} : gset (list Z))) faces'.
Proof.
  intros N F V Fs.
  assert (H1 : renumber elements N F = Ok (V, Fs)) by (vm_compute; reflexivity).
  assert (H2 : F !! (1, 1) = Some {[ [1; 2; 3] ]}) by (vm_compute; reflexivity).
  split; [exact H1|]. split; [exact H2|].
  exact (renumber_dense elements N F V Fs (1, 1) {[ [1; 2; 3] ]} H1 H2).
Defined.

(** * The reader *)

Section ReaderLemmas.

Context {F : Type}.
Variable float_of : str -> option F.
Variable zero : F.

Implicit Types (st : state (F := F)) (loc : field_locals) (forms : list form).
Implicit Types (fuel inner : nat) (tokens : list str).

(** An [ET] line without a type number reads [et_type] before any
    assignment to it, whatever the table holds. *)
Lemma readET_default_raises tokens st :
  3 <= len tokens -> tokens !! 1%nat = Some [] ->
  readET tokens st = Raise UnboundLocalError.
Proof.
  intros Hlen H1. unfold readET.
  destruct (decide (len tokens < 3)) as [?|_]; [lia|].
  rewrite H1. reflexivity.
Qed.

(** C8 (the code departs from the claim): the file that consists of the
    line [ET,,186] is not parsed to a table with id 1: [readET] finds the
    number 1 and then fails on the unassigned [et_type]. *)
Theorem et_default_id_raises fuel :
  read3DMesh float_of zero (S fuel) (lit "ET,,186
") = Raise UnboundLocalError.
Proof. vm_compute. reflexivity. Qed.

(** The inner loop of the continuation either runs on, or stops with the
    fields it had as a prefix of those it has. *)
Lemma continuation_fields_outcome fuel forms line field_count loc :
  continuation_fields fuel forms line field_count loc = Diverge \/
  exists loc', continuation_fields fuel forms line field_count loc = Ok loc' /\
               fields loc `prefix_of` fields loc'.
Proof.
  revert loc. induction fuel as [|fuel IH]; intros loc; [by left|].
  cbn [continuation_fields].
  destruct (width_at forms field_count) as [w|]; [|right; by exists loc].
  destruct (int _) as [v|].
  - destruct (IH (FieldLocals (fields loc ++ [v]) (Some v)
                    (Some (local_start loc + w)) (local_start loc)))
      as [->|(loc' & -> & Hpre)]; [by left|].
    right. exists loc'. split; [done|].
    etrans; [|exact Hpre]. by apply prefix_app_r.
  - right. eexists. split; [done|]. done.
Qed.

(** Once entered, the continuation loop is never left: nothing in it changes
    [field_count] or [fields[8]]. *)
Lemma continuation_diverges fuel inner forms field_count loc text n :
  fields loc !! 8%nat = Some n ->
  Z.of_nat field_count < n + 11 ->
  continuation fuel inner forms field_count loc text = Diverge.
Proof.
  revert loc text. induction fuel as [|fuel IH]; intros loc text H8 Hlt; [done|].
  cbn [continuation]. rewrite H8. cbn [load bind].
  destruct (decide (Z.of_nat field_count < n + 11)) as [_|?]; [|done].
  destruct (readline text) as [line text'].
  destruct (continuation_fields_outcome inner forms line field_count
              (FieldLocals (fields loc) (local_field loc) (local_end loc) 0))
    as [->|(loc' & -> & Hpre)]; [done|].
  cbn [bind]. apply IH; [|done].
  simpl in Hpre. by eapply prefix_lookup_Some.
Qed.

(** A SOLID record that declares more nodes than its first line holds is
    never completed. *)
Lemma solid_record_diverges fuel Num_fields forms line field end_ st loc n :
  for_each (solid_field forms line) (seq 0 (Z.to_nat Num_fields))
           (FieldLocals [] field end_ 0) = Ok loc ->
  fields loc !! 8%nat = Some n ->
  Z.of_nat (length (fields loc)) < n + 11 ->
  solid_record fuel Num_fields forms line field end_ st = Diverge.
Proof.
  intros Hscan H8 Hlt. unfold solid_record. rewrite Hscan. cbn [bind].
  destruct (decide (length (fields loc) < 8)%nat) as [Hshort|_].
  - apply lookup_lt_Some in H8. lia.
  - by rewrite (continuation_diverges _ _ _ _ _ _ n H8 Hlt).
Qed.

(** How a divergence inside a block travels up to [read3DMesh]. *)
Lemma eblock_loop_first_diverges fuel inner Num_fields forms field end_ st
    line rest' :
  readline (rest st) = (line, rest') ->
  startswith "-"%char (strip line) = false ->
  solid_record inner Num_fields forms line field end_ (set_rest st rest')
  = Diverge ->
  eblock_loop (S fuel) inner true Num_fields forms field end_ st = Diverge.
Proof.
  intros Hline Hdash Hrec. cbn [eblock_loop]. rewrite Hline, Hdash, Hrec.
  reflexivity.
Qed.

Lemma eblock_loop_stored fuel inner Num_fields forms field end_ st
    line rest' st2 field2 end2 :
  readline (rest st) = (line, rest') ->
  startswith "-"%char (strip line) = false ->
  solid_record inner Num_fields forms line field end_ (set_rest st rest')
  = Ok (Stored st2 field2 end2) ->
  eblock_loop (S fuel) inner true Num_fields forms field end_ st
  = eblock_loop fuel inner true Num_fields forms field2 end2 st2.
Proof.
  intros Hline Hdash Hrec. cbn [eblock_loop]. rewrite Hline, Hdash, Hrec.
  reflexivity.
Qed.

Lemma readEBLOCK_solid fuel tokens st Num_fields format_line rest' :
  3 <= len tokens ->
  tokens !! 1%nat ≫= int = Some Num_fields ->
  tokens !! 2%nat = Some (lit "solid") ->
  readline (rest st) = (format_line, rest') ->
  12 <= len (detectFormat format_line) ->
  readEBLOCK fuel tokens st
  = eblock_loop fuel fuel true Num_fields (detectFormat format_line) None None
      (set_rest st rest').
Proof.
  intros Hlen H1 H2 Hline Hforms. unfold readEBLOCK.
  destruct (decide (len tokens < 3)) as [?|_]; [lia|].
  rewrite H1, H2, Hline. cbn [load bind].
  rewrite bool_decide_eq_true_2 by done.
  rewrite (bool_decide_eq_false_2 (len (detectFormat format_line) < 12)) by lia.
  rewrite (bool_decide_eq_false_2 (len (detectFormat format_line) < 6)) by lia.
  reflexivity.
Qed.

Lemma read_loop_step fuel inner st line rest' :
  readline (rest st) = (line, rest') ->
  len line <> 0 ->
  read_loop float_of zero (S fuel) inner st
  = (st' <- parseCommand float_of zero inner line (set_rest st rest') ;;
     read_loop float_of zero fuel inner st').
Proof.
  intros Hline Hlen. cbn [read_loop]. rewrite Hline.
  destruct (decide (len line = 0)) as [?|_]; [done|]. reflexivity.
Qed.

(** *** The end of the file inside a SOLID block *)

Lemma py_slice_nil {A : Type} (a b : Z) : py_slice (@nil A) a b = [].
Proof. unfold py_slice. by rewrite drop_nil, take_nil. Qed.

(** On the empty line that [readline] returns at the end of the file no
    field can be read: every slot is filled with the stale [field]. *)
Lemma solid_fields_eof forms (indices : list nat) loc v e :
  local_field loc = Some v -> local_end loc = Some e ->
  exists e' s',
    for_each (solid_field forms []) indices loc
    = Ok (FieldLocals (fields loc ++ replicate (length indices) v)
                      (Some v) (Some e') s').
Proof.
  revert loc e. induction indices as [|i indices IH]; intros loc e Hf He.
  - exists e, (local_start loc). simpl. rewrite app_nil_r.
    destruct loc; simpl in *. by subst.
  - cbn [for_each].
    assert (Hstep : exists e1,
      solid_field forms [] loc i
      = Ok (FieldLocals (fields loc ++ [v]) (Some v) (Some e1) e1)).
    { unfold solid_field. destruct (width_at forms i) as [w|].
      - rewrite py_slice_nil. change (int []) with (@None Z).
        rewrite Hf. simpl. eauto.
      - rewrite Hf, He. simpl. eauto. }
    destruct Hstep as [e1 ->]. cbn [bind].
    destruct (IH (FieldLocals (fields loc ++ [v]) (Some v) (Some e1) e1) e1)
      as (e' & s' & ->); [done..|].
    exists e', s'. simpl. by rewrite <- app_assoc.
Qed.

(** With at least 11 fields per record, a SOLID block that meets the end of
    the file after a field has been read never returns: either the stale
    field count asks for a continuation, or the stale record is stored and
    the loop reads the end of the file again. *)
Lemma eblock_loop_eof_diverges fuel inner Num_fields forms v e st :
  rest st = [] -> 11 <= Num_fields ->
  eblock_loop fuel inner true Num_fields forms (Some v) (Some e) st = Diverge.
Proof.
  intros Hrest Hn. revert e st Hrest.
  induction fuel as [|fuel IH]; intros e st Hrest; [done|].
  cbn [eblock_loop]. rewrite Hrest. cbn [readline].
  change (startswith "-"%char (strip [])) with false. cbv iota.
  unfold solid_record.
  destruct (solid_fields_eof forms (seq 0 (Z.to_nat Num_fields))
              (FieldLocals [] (Some v) (Some e) 0) v e) as (e' & s' & ->);
    [done..|].
  cbn [bind fields app]. rewrite length_replicate, length_seq.
  destruct (decide (Z.to_nat Num_fields < 8)%nat) as [?|_]; [lia|].
  set (loc := FieldLocals (replicate (Z.to_nat Num_fields) v) (Some v) (Some e') s').
  assert (H8 : fields loc !! 8%nat = Some v).
  { simpl. apply lookup_replicate_2. lia. }
  destruct (decide (Z.of_nat (Z.to_nat Num_fields) < v + 11)) as [Hlt|Hge].
  { by rewrite (continuation_diverges _ _ _ _ _ _ v H8 Hlt). }
  destruct inner as [|inner']; [done|].
  cbn [continuation]. rewrite H8. cbn [load bind].
  destruct (decide (Z.of_nat (Z.to_nat Num_fields) < v + 11)) as [?|_]; [done|].
  cbn [bind fst snd].
  assert (H3 : py_slice (fields loc) 0 3 = [v; v; v]).
  { simpl. destruct (Z.to_nat Num_fields) as [|[|[|k]]] eqn:Ek; try lia.
    unfold py_slice, clamp, len. simpl.
    destruct (decide (3 < 0)) as [?|_]; [lia|].
    destruct (decide (0 < 0)) as [?|_]; [lia|].
    rewrite length_replicate.
    replace (Z.to_nat (Z.min 3 (Z.of_nat (S (S (S k)))))) with 3%nat by lia.
    replace (Z.to_nat (Z.min 0 (Z.of_nat (S (S (S k)))))) with 0%nat by lia.
    reflexivity. }
  assert (H10 : fields loc !! 10%nat = Some v).
  { simpl. apply lookup_replicate_2. lia. }
  rewrite H3, H10.
  apply IH. reflexivity.
Qed.

(** Before any field has been read, the same situation ends in an
    exception. *)
Lemma eblock_loop_eof_raises fuel inner Num_fields forms end_ st :
  rest st = [] -> 1 <= Num_fields ->
  eblock_loop (S fuel) inner true Num_fields forms None end_ st
  = Raise UnboundLocalError.
Proof.
  intros Hrest Hn. cbn [eblock_loop]. rewrite Hrest. cbn [readline].
  change (startswith "-"%char (strip [])) with false. cbv iota.
  unfold solid_record.
  destruct (Z.to_nat Num_fields) as [|k] eqn:Ek; [lia|].
  cbn [seq for_each]. unfold solid_field at 1.
  destruct (width_at forms 0) as [w|]; [rewrite py_slice_nil|]; reflexivity.
Qed.

(** C6 (the code departs from the claim): a SOLID record that declares 20
    nodes, written on three lines under [(19i8)], is never completed.  With
    any amount of fuel the parse is still inside the loop that should read
    the further lines: [++field_count] leaves [field_count] at 19, below the
    [20 + 11] fields the loop waits for. *)
Theorem solid_continuation_never_completes fuel :
  read3DMesh float_of zero fuel twenty_node_file = Diverge.
Proof.
  destruct fuel as [|fuel]; [reflexivity|].
  unfold read3DMesh.
  erewrite read_loop_step;
    [|vm_compute; reflexivity|vm_compute; discriminate].
  match goal with
  | |- context [parseCommand ?a ?b ?c ?d ?e] =>
      assert (Hp : parseCommand a b c d e = Diverge)
  end.
  { match goal with
    | |- parseCommand _ _ _ _ ?st = _ =>
        transitivity (readEBLOCK (S fuel)
                        [lit "eblock"; lit "19"; lit "solid"; lit "1"] st);
          [reflexivity|]
    end.
    erewrite readEBLOCK_solid;
      [|vm_compute; discriminate|vm_compute; reflexivity|reflexivity
       |vm_compute; reflexivity|vm_compute; discriminate].
    eapply eblock_loop_first_diverges;
      [vm_compute; reflexivity|vm_compute; reflexivity|].
    eapply (solid_record_diverges _ _ _ _ _ _ _ _ 20);
      [vm_compute; reflexivity|vm_compute; reflexivity|vm_compute; reflexivity]. }
  rewrite Hp. reflexivity.
Qed.

(** The end of the file inside a node block ends the block: this is the
    guard the element block lacks. *)
Lemma nblock_loop_eof fuel forms start_x start_y start_z end_z st :
  rest st = [] ->
  nblock_loop float_of zero (S fuel) forms start_x start_y start_z end_z st
  = Ok st.
Proof.
  intros Hrest. cbn [nblock_loop]. rewrite Hrest. cbn [readline].
  destruct st; simpl in *. by subst.
Qed.

Lemma readline_split text line rest' :
  readline text = (line, rest') -> text = line ++ rest'.
Proof.
  revert line rest'. induction text as [|c r IH]; intros line rest' Hr.
  - simpl in Hr. by injection Hr as <- <-.
  - simpl in Hr. destruct (decide (c = "010"%char)).
    + by injection Hr as <- <-.
    + destruct (readline r) as [l r'] eqn:E. injection Hr as <- <-.
      simpl. f_equal. by apply IH.
Qed.

(** The loop of [readNBLOCK] uses up the file: with more fuel than the
    file has characters left it returns or raises. *)
Lemma nblock_loop_terminates fuel forms start_x start_y start_z end_z st :
  (length (rest st) < fuel)%nat ->
  nblock_loop float_of zero fuel forms start_x start_y start_z end_z st
  <> Diverge.
Proof.
  revert st. induction fuel as [|fuel IH]; intros st Hlen; [lia|].
  cbn [nblock_loop].
  destruct (readline (rest st)) as [line rest'] eqn:Hline.
  apply readline_split in Hline.
  destruct (decide (len line = 0)) as [?|Hne]; [done|].
  assert (Hrest : (length rest' < fuel)%nat).
  { rewrite Hline, length_app in Hlen. unfold len in Hne. lia. }
  destruct (strip line !! 0%nat) as [first|]; [|done]. cbn [load bind].
  destruct (bool_decide _); [done|].
  destruct (width_at forms 0 ≫= _) as [node_number|]; apply IH; by simpl.
Qed.

Lemma cut_node_block_returns fuel :
  exists n,
    read3DMesh float_of zero (S (S (S fuel))) cut_node_block = Ok (n, [], ∅) /\
    is_Some (n !! 7).
Proof.
  eexists. split; [vm_compute; reflexivity|].
  eexists. vm_compute. reflexivity.
Qed.

(** C9 (the code departs from the claim): the end of the file inside a
    SOLID element block does not end the block.  Cut off after the format
    line, the parse stops with [UnboundLocalError]; cut off after a record,
    it stores a record made of the last field read and reads the end of the
    file again, without end. *)
Theorem eblock_truncation_not_handled :
  (forall fuel,
     read3DMesh float_of zero (S fuel) cut_after_format
     = Raise UnboundLocalError) /\
  (forall fuel, read3DMesh float_of zero fuel cut_after_record = Diverge).
Proof.
  split; intros fuel.
  - vm_compute. reflexivity.
  - destruct fuel as [|fuel]; [reflexivity|].
    unfold read3DMesh.
    erewrite read_loop_step;
      [|vm_compute; reflexivity|vm_compute; discriminate].
    match goal with
    | |- context [parseCommand ?a ?b ?c ?d ?e] =>
        assert (Hp : parseCommand a b c d e = Diverge)
    end.
    { match goal with
      | |- parseCommand _ _ _ _ ?st = _ =>
          transitivity (readEBLOCK (S fuel)
                          [lit "eblock"; lit "19"; lit "solid"; lit "1"] st);
            [reflexivity|]
      end.
      erewrite readEBLOCK_solid;
        [|vm_compute; discriminate|vm_compute; reflexivity|reflexivity
         |vm_compute; reflexivity|vm_compute; discriminate].
      erewrite eblock_loop_stored;
        [|vm_compute; reflexivity|vm_compute; reflexivity
         |vm_compute; reflexivity].
      apply eblock_loop_eof_diverges; [reflexivity|lia]. }
    rewrite Hp. reflexivity.
Qed.

End ReaderLemmas.

(** * Writing a cube and reading it back *)

Section RoundTrip.

Context {F : Type} `{Countable F}.
Variable float_of : str -> option F.
Variable zero : F.
Variable fmt_g16_9 : F -> str.
Variable iter : gset (list Z) -> list (list Z).

(** The coordinates 0.0 and 1.0: how ["%16.9g"] prints them and that
    [float] reads them back. *)
Variables a0 a1 : F.
Hypothesis fmt_a0 : fmt_g16_9 a0 = lit "               0".
Hypothesis fmt_a1 : fmt_g16_9 a1 = lit "               1".
Hypothesis float_a0 : float_of (lit "               0") = Some a0.
Hypothesis float_a1 : float_of (lit "               1") = Some a1.
Hypothesis a0_a1 : a0 <> a1.

(** The loop over a set meets each face once. *)
Hypothesis iter_elements : forall s, iter s ≡ₚ elements s.

Lemma written_cube :
  Writer.write fmt_g16_9 (cube_nodes a0 a1) cube_faces 1 false 1 false
  = cube_file.
Proof.
  unfold Writer.write, writeNBLOCK, cube_nodes.
  cbn [fmap list_fmap]. unfold node_record. cbn [fst snd].
  rewrite !fmt_a0, !fmt_a1. vm_compute. reflexivity.
Qed.

Lemma parsed_cube :
  read3DMesh float_of zero 100 cube_file
  = Ok (list_to_map (cube_nodes a0 a1), cube_elements, {[ 1 := 63; 2 := 93 ]}).
Proof.
  pose proof float_a0 as H0. pose proof float_a1 as H1.
  vm_compute in H0, H1. vm_compute.
  rewrite !H0, !H1. reflexivity.
Qed.

Lemma cube_outer_faces :
  get_faces (PyDict.values cube_elements) {[ 1 := 63; 2 := 93 ]} true
  = Ok {[ (1, 1) := cube_outer ]}.
Proof. vm_compute. reflexivity. Qed.

Lemma cube_face_nodes f v :
  f ∈ cube_outer -> v ∈ f -> v ∈ [1; 2; 3; 4; 5; 6; 7; 8].
Proof.
  unfold cube_outer. rewrite !elem_of_union, !elem_of_singleton.
  intros Hf Hv.
  repeat destruct Hf as [Hf|Hf]; subst f;
    repeat (apply elem_of_cons in Hv as [->|Hv]);
    try (by apply elem_of_nil in Hv);
    rewrite !elem_of_cons; tauto.
Qed.

Lemma cube_coordinates_distinct : NoDup (cube_nodes a0 a1).*2.
Proof.
  pose proof a0_a1 as Hne.
  assert (Hne' : a1 <> a0) by congruence.
  unfold cube_nodes. cbn [fmap list_fmap snd].
  repeat (apply NoDup_cons; split;
          [rewrite ?not_elem_of_cons; repeat split;
           try (intros [=]; congruence); apply not_elem_of_nil|]).
  apply NoDup_nil_2.
Qed.

(** The coordinates the outer faces of the cube refer to are those of its
    eight corners. *)
Lemma cube_coordinates :
  (list_to_set (coords_of (list_to_map (cube_nodes a0 a1))
                          (concat (iter cube_outer))) : gset (F * F * F))
  = list_to_set (cube_nodes a0 a1).*2.
Proof.
  assert (Hperm :
    coords_of (list_to_map (cube_nodes a0 a1)) (concat (iter cube_outer))
    ≡ₚ coords_of (list_to_map (cube_nodes a0 a1)) (concat (elements cube_outer))).
  { unfold coords_of. apply omap_Permutation, concat_Permutation, iter_elements. }
  rewrite (list_to_set_perm_L _ _ Hperm).
  remember (coords_of (list_to_map (cube_nodes a0 a1))
                      (concat (elements cube_outer))) as l eqn:El.
  vm_compute in El. subst l.
  unfold cube_nodes. cbn [fmap list_fmap snd].
  apply set_eq. intros c.
  rewrite !elem_of_list_to_set, !elem_of_cons, !elem_of_nil. tauto.
Qed.

(** C4: the unit cube (8 nodes on 8 distinct coordinates, 6 quadrilateral
    faces) written by the writer and read back by [read3DMesh], [get_faces]
    with [remove_duplicates=True] and [renumber] gives one group, with 6
    faces and 8 vertices. *)
Theorem cube_round_trip :
  exists vs fs,
    readMesh float_of zero 100 iter
      (Writer.write fmt_g16_9 (cube_nodes a0 a1) cube_faces 1 false 1 false)
      true
    = Ok ({[ (1, 1) := vs ]}, {[ (1, 1) := fs ]}) /\
    length vs = 8%nat /\ length fs = 6%nat.
Proof.
  unfold readMesh. rewrite written_cube, parsed_cube. cbn [bind fst snd].
  rewrite cube_outer_faces. cbn [bind].
  set (N := list_to_map (cube_nodes a0 a1) : gmap Z (F * F * F)).
  set (G := {[ (1, 1) := cube_outer ]} : gmap (Z * Z) (gset (list Z))).
  destruct (renumber_outcome iter N G) as [[_ Hok] _].
  destruct Hok as [[V Fs] Hrun].
  { intros g s f v Hg Hf Hv.
    apply lookup_singleton_Some in Hg as [<- <-].
    rewrite (iter_elements cube_outer), elem_of_elements in Hf.
    pose proof (cube_face_nodes f v Hf Hv) as Hin.
    repeat (apply elem_of_cons in Hin as [->|Hin]);
      try (by apply elem_of_nil in Hin); eexists; vm_compute; reflexivity. }
  destruct (renumber_group_in_dict iter N G V Fs (1, 1) cube_outer Hrun)
    as (vs & fs & HV & HF & _ & Hlen & Hall); [apply lookup_singleton_eq|].
  exists vs, fs. rewrite Hrun. split; [|split].
  - f_equal. f_equal.
    + apply map_eq. intros g. destruct (decide (g = (1, 1))) as [->|Hne].
      * by rewrite lookup_singleton_eq.
      * rewrite lookup_singleton_ne by done.
        apply (renumber_absent iter N G V Fs g Hrun).
        by apply lookup_singleton_ne.
    + apply map_eq. intros g. destruct (decide (g = (1, 1))) as [->|Hne].
      * by rewrite lookup_singleton_eq.
      * rewrite lookup_singleton_ne by done.
        apply (renumber_absent iter N G V Fs g Hrun).
        by apply lookup_singleton_ne.
  - rewrite Hlen. unfold N. rewrite cube_coordinates.
    rewrite size_list_to_set by apply cube_coordinates_distinct.
    reflexivity.
  - apply Forall2_length in Hall. rewrite <- Hall.
    rewrite (iter_elements cube_outer). reflexivity.
Qed.

End RoundTrip.

Lemma cube_round_trip_witness :
  let fmt := fun z : Z => pad_left 16 (decimal z) in
  fmt 0 = lit "               0" /\
  fmt 1 = lit "               1" /\
  int (lit "               0") = Some 0 /\
  int (lit "               1") = Some 1 /\
  (0 : Z) <> 1 /\
  (forall s : gset (list Z), elements s ≡ₚ elements s) /\
  exists vs fs,
    readMesh int 0 100 elements
      (Writer.write fmt (cube_nodes 0 1) cube_faces 1 false 1 false) true
    = Ok ({[ (1, 1) := vs ]}, {[ (1, 1) := fs ]}) /\
    length vs = 8%nat /\ length fs = 6%nat.
Proof.
  intros fmt.
  assert (H0 : fmt 0 = lit "               0") by reflexivity.
  assert (H1 : fmt 1 = lit "               1") by reflexivity.
  assert (H2 : int (lit "               0") = Some 0) by reflexivity.
  assert (H3 : int (lit "               1") = Some 1) by reflexivity.
  assert (H4 : (0 : Z) <> 1) by lia.
  assert (H5 : forall s : gset (list Z), elements s ≡ₚ elements s) by done.
  repeat (split; [assumption|]).
  exact (cube_round_trip int 0 fmt elements 0 1 H0 H1 H2 H3 H4 H5).
Defined.

(** * Further properties of face extraction *)

Section FaceExtraction.

Implicit Types (rd : bool) (f e k : list Z) (c : Z) (g : Z * Z).
Implicit Types (es : list (list Z)) (et : gmap Z Z).
Implicit Types (group : gmap (list Z) Z).
Implicit Types (counted : gmap (Z * Z) (gmap (list Z) Z)).
Implicit Types (outer : gmap (Z * Z) (gset (list Z))).

Lemma item_elem_of f i : (i < length f)%nat -> item f i ∈ f.
Proof.
  intros Hi. destruct (lookup_lt_is_Some_2 f i Hi) as [x Hx].
  rewrite (item_lookup _ _ _ Hx). by eapply list_elem_of_lookup_2.
Qed.

Lemma elem_of_item f x : x ∈ f -> exists i, (i < length f)%nat /\ item f i = x.
Proof.
  intros Hx. apply list_elem_of_lookup_1 in Hx as [i Hi]. exists i.
  split; [by eapply lookup_lt_Some | by apply item_lookup].
Qed.

(** The item at [min_index] is the lowest number of the face. *)
Lemma item_min_index_lowest f : f <> [] -> item f (min_index_of f) = lowest f.
Proof.
  intros Hne. destruct (min_index_of_spec f Hne) as (Hlt & Hmin & _).
  apply Z.le_antisymm.
  - destruct (elem_of_item f (lowest f) (lowest_elem f Hne)) as (i & Hi & <-).
    by apply Hmin.
  - apply lowest_lower. by apply item_elem_of.
Qed.

(** What [order_face] returns on a non-empty face. *)
Lemma order_face_result f :
  f <> [] ->
  order_face f = PyTuple (rotate (min_index_of f) f) /\
  rotate (min_index_of f) f ≡ₚ f /\
  canonical (rotate (min_index_of f) f) = true /\
  item (rotate (min_index_of f) f) 0 = lowest f.
Proof.
  intros Hne. destruct (min_index_of_spec f Hne) as (Hlt & Hmin & _).
  assert (Hrot : rotate (min_index_of f) f
                 = drop (min_index_of f) f ++ take (min_index_of f) f).
  { unfold rotate. by rewrite Nat.mod_small. }
  rewrite Hrot. split; [by apply order_face_unfold|].
  assert (Hperm : drop (min_index_of f) f ++ take (min_index_of f) f ≡ₚ f).
  { rewrite Permutation_app_comm. by rewrite take_drop. }
  split; [done|].
  destruct (lookup_lt_is_Some_2 f (min_index_of f) Hlt) as [x Hx].
  rewrite (drop_S _ _ _ Hx). cbn [app].
  pose proof (item_lookup _ _ _ Hx) as Hix.
  split.
  - apply canonical_cons, Forall_forall. intros y Hy.
    assert (Hyf : y ∈ f).
    { rewrite <- Hperm, (drop_S _ _ _ Hx). cbn [app]. by right. }
    destruct (elem_of_item f y Hyf) as (i & Hi & <-).
    rewrite <- Hix. by apply Hmin.
  - unfold item at 1. simpl. rewrite <- Hix. by apply item_min_index_lowest.
Qed.

(** [order_face] returns a cyclic rotation of a non-empty face, so a tuple
    of the same node ids, that starts with its lowest node id. *)
Theorem order_face_rotation_lowest_first f :
  f <> [] ->
  exists n r,
    order_face f = PyTuple r /\ r = rotate n f /\ r ≡ₚ f /\
    item r 0 = lowest f /\ Forall (fun y => lowest f <= y) r.
Proof.
  intros Hne. destruct (order_face_result f Hne) as (Ho & Hperm & Hcan & Hlow).
  exists (min_index_of f), (rotate (min_index_of f) f).
  split; [done|]. split; [done|]. split; [done|]. split; [done|].
  apply Forall_forall. intros y Hy. apply lowest_lower. by rewrite <- Hperm.
Qed.

Lemma order_face_rotation_lowest_first_witness :
  [4; 2; 9] <> [] /\
  exists n r,
    order_face [4; 2; 9] = PyTuple r /\ r = rotate n [4; 2; 9] /\
    r ≡ₚ [4; 2; 9] /\
    item r 0 = lowest [4; 2; 9] /\ Forall (fun y => lowest [4; 2; 9] <= y) r.
Proof.
  split; [discriminate|].
  apply (order_face_rotation_lowest_first [4; 2; 9]). discriminate.
Defined.

Lemma order_face_fixed f k : order_face f = PyTuple k -> order_face k = PyTuple k.
Proof.
  intros Ho. destruct f as [|x t]; [discriminate|].
  destruct (order_face_result (x :: t)) as (Ho' & _ & Hcan & _); [done|].
  rewrite Ho in Ho'. injection Ho' as ->. by apply canonical_order_face.
Qed.

(** [order_face] is idempotent: canonicalizing a canonical face changes
    nothing. *)
Theorem order_face_idempotent f k :
  order_face f = PyTuple k -> order_face k = PyTuple k.
Proof. apply order_face_fixed. Qed.

Lemma order_face_idempotent_witness :
  order_face [4; 2; 9] = PyTuple [2; 9; 4] /\
  order_face [2; 9; 4] = PyTuple [2; 9; 4].
Proof.
  assert (H : order_face [4; 2; 9] = PyTuple [2; 9; 4]) by reflexivity.
  split; [exact H|]. exact (order_face_idempotent [4; 2; 9] [2; 9; 4] H).
Defined.

(** *** What the counted-face dictionaries hold *)

Lemma get_all_faces_step_invariant (P : gmap (list Z) Z -> Prop) et
    (st st' : faces_state) e :
  P ∅ ->
  (forall group f group',
     P group -> count_face group (order_face f) = Ok group' -> P group') ->
  (forall g group, counted_faces st !! g = Some group -> P group) ->
  get_all_faces_step et st e = Ok st' ->
  forall g group, counted_faces st' !! g = Some group -> P group.
Proof.
  intros Hempty Hcount Hwf Hrun. unfold get_all_faces_step in Hrun.
  destruct (e !! 2%nat) as [type_id|]; [|by injection Hrun as <-].
  destruct (et !! type_id) as [etype|]; [|by injection Hrun as <-].
  apply bind_Ok in Hrun as ([[faces|] v13] & Hfaces & Hrun);
    [|by injection Hrun as <-].
  destruct (slice 0 2 e) as [|element_mat [|element_real [|]]];
    try discriminate.
  apply bind_Ok in Hrun as (group' & Hloop & [= <-]). simpl.
  intros g group Hg.
  destruct (decide ((element_mat, element_real) = g)) as [<-|Hne].
  - rewrite lookup_insert_eq in Hg. injection Hg as <-.
    eapply (for_each_invariant count_face P
              (fun face => exists f, face = order_face f));
      [| |by eapply faces_of_element_canonical|exact Hloop].
    + intros gr face gr' Hgr [f ->]. by apply Hcount.
    + destruct (counted_faces st !! (element_mat, element_real)) as [gr|] eqn:E;
        simpl; [by eapply Hwf|done].
  - rewrite lookup_insert_ne in Hg by done. by eapply Hwf.
Qed.

Lemma get_all_faces_invariant (P : gmap (list Z) Z -> Prop) es et counted :
  P ∅ ->
  (forall group f group',
     P group -> count_face group (order_face f) = Ok group' -> P group') ->
  get_all_faces es et = Ok counted ->
  forall g group, counted !! g = Some group -> P group.
Proof.
  intros Hempty Hcount. unfold get_all_faces. intros Hrun.
  apply bind_Ok in Hrun as (st & Hrun & [= <-]).
  eapply (for_each_invariant (get_all_faces_step et)
            (fun st => forall g group,
               counted_faces st !! g = Some group -> P group)
            (fun _ => True));
    [| |by apply Forall_true|exact Hrun].
  - intros s e s' Hs _ Hstep. by eapply get_all_faces_step_invariant.
  - simpl. intros g group Hg. by rewrite lookup_empty in Hg.
Qed.

(** Every key of the dictionaries that [get_all_faces] fills is a face in
    canonical form (a fixed point of [order_face], so a non-empty tuple with
    a lowest node id in front), and every count is at least 1. *)
Theorem counted_faces_canonical es et counted g group k c :
  get_all_faces es et = Ok counted ->
  counted !! g = Some group -> group !! k = Some c ->
  order_face k = PyTuple k /\ canonical k = true /\ 1 <= c.
Proof.
  intros Hall Hg Hk.
  pose proof (get_all_faces_invariant
    (fun group => forall k c, group !! k = Some c ->
                              order_face k = PyTuple k /\ 1 <= c)
    es et counted) as Hinv.
  destruct (Hinv) with (g := g) (group := group) (k := k) (c := c)
    as [Hfix Hc]; try done.
  - intros gr f gr' Hgr Hrun k' c' Hk'. unfold count_face in Hrun.
    apply bind_Ok in Hrun as (key & Hkey & [= <-]).
    destruct (decide (key = k')) as [<-|Hne].
    + rewrite lookup_insert_eq in Hk'. injection Hk' as <-.
      split.
      * destruct (order_face f) as [key'|] eqn:Ho; [|discriminate].
        injection Hkey as ->. by eapply order_face_fixed.
      * destruct (gr !! key) as [c0|] eqn:E; simpl; [|lia].
        destruct (Hgr key c0 E). lia.
    + rewrite lookup_insert_ne in Hk' by done. by apply Hgr.
  - split; [done|]. split; [|done].
    destruct k as [|x t]; [discriminate|].
    destruct (order_face_result (x :: t)) as (Ho & _ & Hcan & _); [done|].
    rewrite Hfix in Ho. injection Ho as Ho. by rewrite <- Ho in Hcan.
Qed.

Lemma counted_faces_canonical_witness :
  let counted : gmap (Z * Z) (gmap (list Z) Z) :=
    {[ (1, 1) := {[ [1; 2; 3] := 2 ]} ]} in
  get_all_faces [[1; 1; 7; 2; 3; 1; 1]; [1; 1; 7; 3; 1; 2; 2]] {[ 7 := 63 ]}
  = Ok counted /\
  counted !! (1, 1) = Some {[ [1; 2; 3] := 2 ]} /\
  ({[ [1; 2; 3] := 2 ]} : gmap (list Z) Z) !! [1; 2; 3] = Some 2 /\
  order_face [1; 2; 3] = PyTuple [1; 2; 3] /\ canonical [1; 2; 3] = true /\
  1 <= 2.
Proof.
  intros counted.
  assert (H1 : get_all_faces [[1; 1; 7; 2; 3; 1; 1]; [1; 1; 7; 3; 1; 2; 2]]
                 {[ 7 := 63 ]} = Ok counted) by (vm_compute; reflexivity).
  assert (H2 : counted !! (1, 1) = Some {[ [1; 2; 3] := 2 ]})
    by (vm_compute; reflexivity).
  assert (H3 : ({[ [1; 2; 3] := 2 ]} : gmap (list Z) Z) !! [1; 2; 3] = Some 2)
    by (vm_compute; reflexivity).
  split; [exact H1|]. split; [exact H2|]. split; [exact H3|].
  exact (counted_faces_canonical _ _ counted (1, 1) _ [1; 2; 3] 2 H1 H2 H3).
Defined.

(** *** When face extraction returns *)

Lemma slice_length {A : Type} (lo hi : nat) (l : list A) :
  (hi <= length l)%nat -> length (slice lo hi l) = (hi - lo)%nat.
Proof. intros Hl. unfold slice. rewrite length_take, length_drop. lia. Qed.

Lemma slice_item lo hi e i :
  (i < hi - lo)%nat -> (hi <= length e)%nat ->
  item (slice lo hi e) i = item e (lo + i).
Proof.
  intros Hi Hl. unfold item, slice. rewrite !nth_lookup.
  by rewrite lookup_take_lt, lookup_drop.
Qed.

Lemma order_face_cons_tuple x t : exists k, order_face (x :: t) = PyTuple k.
Proof. rewrite order_face_unfold by done. eauto. Qed.

Lemma count_tuples_ok (ks : list (list Z)) group :
  exists group', for_each count_face (PyTuple <$> ks) group = Ok group'.
Proof.
  apply for_each_all_ok. intros gr face Hin.
  apply list_elem_of_fmap in Hin as (k' & -> & _).
  unfold count_face. simpl. eauto.
Qed.

Ltac split_list l H := repeat (destruct l as [|? l]; simpl in H; try lia).

Ltac tuples_of_table :=
  unfold faces_on_3triangle, faces_on_4rectangle, faces_on_8rectangle,
    faces_on_6wedge, faces_on_5pyramid, faces_on_4tetrahedral,
    faces_on_8hexahedral, faces_on_13pyramid, faces_on_10tetrahedral,
    faces_on_20hexahedral;
  repeat (edestruct order_face_cons_tuple as [? ->]);
  first [ by eexists [_] | by eexists [_; _; _; _]
        | by eexists [_; _; _; _; _] | by eexists [_; _; _; _; _; _] ].

(** The faces of one element: unless the element is one of the two
    degenerate mid-side shapes, the tables return tuples. *)
Lemma faces_of_element_ok etype e v13 :
  (family_in etype [95; 186] && bool_decide (23 <= length e)%nat
   && bool_decide (item e 5 = item e 6) && bool_decide (item e 9 = item e 10)
   = false) ->
  (family_in etype [93; 281] && bool_decide (11 <= length e)%nat
   && bool_decide (item e 5 = item e 6) = false) ->
  exists r v13',
    faces_of_element etype e v13 = Ok (r, v13') /\
    forall faces, r = Some faces -> exists ks, faces = PyTuple <$> ks.
Proof.
  intros Hw Ht. unfold faces_of_element.
  destruct (family_in etype [28; 63; 152]).
  { destruct (decide (length e < 7)%nat) as [|Hlen]; [by eexists _, _|].
    pose proof (slice_length 3 7 e ltac:(lia)) as Hs.
    remember (slice 3 7 e) as l eqn:El. clear El. split_list l Hs.
    destruct (decide _); eexists _, _; (split; [done|]);
      intros faces [= <-]; tuples_of_table. }
  destruct (family_in etype [93; 281]).
  { destruct (decide (length e < 11)%nat) as [|Hlen]; [by eexists _, _|].
    rewrite bool_decide_eq_true_2 in Ht by lia. simpl in Ht.
    apply bool_decide_eq_false in Ht.
    pose proof (slice_length 3 11 e ltac:(lia)) as Hs.
    pose proof (slice_item 3 11 e 2 ltac:(lia) ltac:(lia)) as H3.
    pose proof (slice_item 3 11 e 3 ltac:(lia) ltac:(lia)) as H4.
    remember (slice 3 11 e) as l eqn:El. clear El. split_list l Hs.
    unfold item in H3 at 1. unfold item in H4 at 1. simpl in H3, H4.
    destruct (decide _) as [Heq|_]; [exfalso; apply Ht; simpl; congruence|].
    eexists _, _. split; [done|]. intros faces [= <-]. tuples_of_table. }
  destruct (family_in etype [45; 185]).
  { destruct (decide (length e < 11)%nat) as [|Hlen]; [by eexists _, _|].
    pose proof (slice_length 3 11 e ltac:(lia)) as Hs.
    remember (slice 3 11 e) as l eqn:El. clear El. split_list l Hs.
    repeat destruct (decide _); eexists _, _; (split; [done|]);
      intros faces [= <-]; tuples_of_table. }
  destruct (family_in etype [95; 186]).
  { destruct (decide (length e < 23)%nat) as [|Hlen]; [by eexists _, _|].
    rewrite bool_decide_eq_true_2 in Hw by lia. simpl in Hw.
    pose proof (slice_length 3 23 e ltac:(lia)) as Hs.
    pose proof (slice_item 3 23 e 2 ltac:(lia) ltac:(lia)) as H3.
    pose proof (slice_item 3 23 e 3 ltac:(lia) ltac:(lia)) as H4.
    pose proof (slice_item 3 23 e 6 ltac:(lia) ltac:(lia)) as H7.
    pose proof (slice_item 3 23 e 7 ltac:(lia) ltac:(lia)) as H8.
    remember (slice 3 23 e) as l eqn:El. clear El. split_list l Hs.
    unfold item in H3 at 1. unfold item in H4 at 1.
    unfold item in H7 at 1. unfold item in H8 at 1. simpl in H3, H4, H7, H8.
    destruct (decide (_ /\ _)) as [[Heq1 Heq2]|_].
    { exfalso. rewrite <- H3, <- H4, <- H7, <- H8 in Hw.
      rewrite !bool_decide_eq_true_2 in Hw by done. discriminate. }
    repeat destruct (decide _); eexists _, _; (split; [done|]);
      intros faces [= <-]; tuples_of_table. }
  destruct (family_in etype [92; 187]).
  { destruct (decide (length e < 13)%nat) as [|Hlen]; [by eexists _, _|].
    pose proof (slice_length 3 13 e ltac:(lia)) as Hs.
    remember (slice 3 13 e) as l eqn:El. clear El. split_list l Hs.
    eexists _, _. split; [done|]. intros faces [= <-]. tuples_of_table. }
  by eexists _, _.
Qed.

Lemma faces_of_element_v13 etype e v13 r v13' :
  faces_of_element etype e v13 = Ok (r, v13') ->
  family_in etype [92; 187] && bool_decide (13 <= length e)%nat = false ->
  v13' = v13.
Proof.
  unfold faces_of_element, faces_on_15wedge, load. intros Hrun Hno.
  repeat case_match; simpl in Hrun; try discriminate;
    try (by injection Hrun as _ <-).
  rewrite bool_decide_eq_true_2 in Hno by lia. discriminate.
Qed.

Lemma family_of_Some et e etype :
  family_of et e = Some etype ->
  exists type_id, e !! 2%nat = Some type_id /\ et !! type_id = Some etype.
Proof.
  unfold family_of. destruct (e !! 2%nat) as [t|]; [|discriminate].
  simpl. intros Ht. by exists t.
Qed.

Lemma family_of_None et e :
  family_of et e = None ->
  e !! 2%nat = None \/
  exists type_id, e !! 2%nat = Some type_id /\ et !! type_id = None.
Proof.
  unfold family_of. destruct (e !! 2%nat) as [t|]; [|by left].
  simpl. intros Ht. right. by exists t.
Qed.

(** One element that is neither degenerate mid-side shape is processed. *)
Lemma get_all_faces_step_ok et (st : faces_state) e :
  midside_wedge et e = false -> midside_triangle et e = false ->
  exists st',
    get_all_faces_step et st e = Ok st' /\
    (binds_v13 et e = false -> local_v13 st' = local_v13 st).
Proof.
  unfold midside_wedge, midside_triangle, binds_v13, get_all_faces_step.
  intros Hw Ht.
  destruct (family_of et e) as [etype|] eqn:Hfam.
  - apply family_of_Some in Hfam as (t & -> & ->).
    destruct (faces_of_element_ok etype e (local_v13 st) Hw Ht)
      as (r & v13' & Hfaces & Htuples).
    rewrite Hfaces. cbn [bind].
    destruct r as [faces|].
    + destruct (Htuples faces eq_refl) as [ks ->].
      assert (Hlen : (3 <= length e)%nat).
      { destruct (decide (3 <= length e)%nat); [done|].
        unfold faces_of_element in Hfaces.
        repeat case_match; simpl in Hfaces; try discriminate; lia. }
      pose proof (slice_length 0 2 e ltac:(lia)) as Hs.
      remember (slice 0 2 e) as l eqn:El. clear El. split_list l Hs.
      edestruct count_tuples_ok as [group' ->]. cbn [bind].
      eexists. split; [done|]. intros Hb. simpl.
      by eapply faces_of_element_v13.
    + eexists. split; [done|]. intros Hb. simpl.
      by eapply faces_of_element_v13.
  - apply family_of_None in Hfam as [->|(t & -> & ->)]; by eexists.
Qed.

Lemma family_in_cases etype (codes : list Z) :
  family_in etype codes = true -> etype ∈ codes.
Proof. unfold family_in. apply bool_decide_eq_true. Qed.

Lemma get_all_faces_step_wedge et (st : faces_state) e :
  midside_wedge et e = true -> get_all_faces_step et st e = Raise NameError.
Proof.
  unfold midside_wedge, get_all_faces_step. intros Hw.
  destruct (family_of et e) as [etype|] eqn:Hfam; [|discriminate].
  apply family_of_Some in Hfam as (t & -> & ->).
  apply andb_prop in Hw as [Hw H78]. apply andb_prop in Hw as [Hw H34].
  apply andb_prop in Hw as [Hfamily Hlen].
  apply bool_decide_eq_true in H78, H34, Hlen.
  pose proof (slice_length 3 23 e ltac:(lia)) as Hs.
  pose proof (slice_item 3 23 e 2 ltac:(lia) ltac:(lia)) as H3.
  pose proof (slice_item 3 23 e 3 ltac:(lia) ltac:(lia)) as H4.
  pose proof (slice_item 3 23 e 6 ltac:(lia) ltac:(lia)) as H7.
  pose proof (slice_item 3 23 e 7 ltac:(lia) ltac:(lia)) as H8.
  assert (Hraise : faces_of_element etype e (local_v13 st) = Raise NameError).
  { unfold faces_of_element.
    apply family_in_cases in Hfamily.
    assert (E1 : family_in etype [28; 63; 152] = false).
    { apply bool_decide_eq_false. intros Hin.
      repeat (apply elem_of_cons in Hfamily as [->|Hfamily]);
        repeat (apply elem_of_cons in Hin as [?|Hin]); try lia;
        try (by apply elem_of_nil in Hfamily); by apply elem_of_nil in Hin. }
    assert (E2 : family_in etype [93; 281] = false).
    { apply bool_decide_eq_false. intros Hin.
      repeat (apply elem_of_cons in Hfamily as [->|Hfamily]);
        repeat (apply elem_of_cons in Hin as [?|Hin]); try lia;
        try (by apply elem_of_nil in Hfamily); by apply elem_of_nil in Hin. }
    assert (E3 : family_in etype [45; 185] = false).
    { apply bool_decide_eq_false. intros Hin.
      repeat (apply elem_of_cons in Hfamily as [->|Hfamily]);
        repeat (apply elem_of_cons in Hin as [?|Hin]); try lia;
        try (by apply elem_of_nil in Hfamily); by apply elem_of_nil in Hin. }
    assert (E4 : family_in etype [95; 186] = true)
      by (by apply bool_decide_eq_true).
    rewrite E1, E2, E3, E4.
    destruct (decide (length e < 23)%nat) as [?|_]; [lia|].
    remember (slice 3 23 e) as l eqn:El. clear El. split_list l Hs.
    unfold item in H3 at 1. unfold item in H4 at 1.
    unfold item in H7 at 1. unfold item in H8 at 1. simpl in H3, H4, H7, H8.
    destruct (decide (_ /\ _)) as [_|Hn]; [reflexivity|].
    exfalso. apply Hn. split; congruence. }
  by rewrite Hraise.
Qed.

Lemma get_all_faces_step_triangle et (st : faces_state) e :
  midside_triangle et e = true -> local_v13 st = None ->
  get_all_faces_step et st e = Raise UnboundLocalError.
Proof.
  unfold midside_triangle, get_all_faces_step. intros Hw Hv.
  destruct (family_of et e) as [etype|] eqn:Hfam; [|discriminate].
  apply family_of_Some in Hfam as (t & -> & ->).
  apply andb_prop in Hw as [Hw H34]. apply andb_prop in Hw as [Hfamily Hlen].
  apply bool_decide_eq_true in H34, Hlen.
  pose proof (slice_length 3 11 e ltac:(lia)) as Hs.
  pose proof (slice_item 3 11 e 2 ltac:(lia) ltac:(lia)) as H3.
  pose proof (slice_item 3 11 e 3 ltac:(lia) ltac:(lia)) as H4.
  assert (Hraise : faces_of_element etype e (local_v13 st)
                   = Raise UnboundLocalError).
  { unfold faces_of_element. rewrite Hv.
    apply family_in_cases in Hfamily.
    assert (E1 : family_in etype [28; 63; 152] = false).
    { apply bool_decide_eq_false. intros Hin.
      repeat (apply elem_of_cons in Hfamily as [->|Hfamily]);
        repeat (apply elem_of_cons in Hin as [?|Hin]); try lia;
        try (by apply elem_of_nil in Hfamily); by apply elem_of_nil in Hin. }
    assert (E2 : family_in etype [93; 281] = true)
      by (by apply bool_decide_eq_true).
    rewrite E1, E2.
    destruct (decide (length e < 11)%nat) as [?|_]; [lia|].
    remember (slice 3 11 e) as l eqn:El. clear El. split_list l Hs.
    unfold item in H3 at 1. unfold item in H4 at 1. simpl in H3, H4.
    destruct (decide _) as [_|Hn]; [reflexivity|].
    exfalso. apply Hn. congruence. }
  by rewrite Hraise.
Qed.

Lemma for_each_Ok_elem {A S : Type} (body : S -> A -> result S)
    (P : S -> Prop) (Q : A -> Prop) (xs : list A) (s s' : S) (x : A) :
  (forall s x s', P s -> Q x -> body s x = Ok s' -> P s') ->
  P s -> Forall Q xs -> for_each body xs s = Ok s' -> x ∈ xs ->
  exists s1 s2, P s1 /\ body s1 x = Ok s2.
Proof.
  intros Hstep. revert s. induction xs as [|y xs IH]; intros s Hs Hq Hrun Hx.
  - by apply elem_of_nil in Hx.
  - cbn [for_each] in Hrun. apply bind_Ok in Hrun as (s1 & H1 & Hrun).
    inversion Hq; subst.
    apply elem_of_cons in Hx as [->|Hx]; [by exists s, s1|].
    eapply IH; [|done|exact Hrun|done]. by eapply Hstep.
Qed.

Lemma get_faces_total es et rd :
  Forall (fun e => midside_wedge et e = false /\ midside_triangle et e = false)
         es ->
  exists outer, get_faces es et rd = Ok outer.
Proof.
  intros Hes. unfold get_faces.
  assert (Hall : exists counted, get_all_faces es et = Ok counted).
  { unfold get_all_faces.
    destruct (for_each_all_ok (get_all_faces_step et) es (FacesState ∅ None))
      as [st ->]; [|by eexists].
    intros st e He. rewrite Forall_forall in Hes.
    destruct (Hes e He) as [Hw Ht].
    destruct (get_all_faces_step_ok et st e Hw Ht) as (st' & -> & _).
    by exists st'. }
  destruct Hall as [counted Hall]. rewrite Hall. cbn [bind].
  by eapply get_outer_faces_returns.
Qed.

(** Face extraction returns on every element table that holds neither a
    20-node solid with [v3 == v4] and [v7 == v8] nor an 8-node shell with
    [v3 == v4]: unknown types, unknown families and short elements are
    passed over, and every other shape has its faces counted. *)
Theorem get_faces_returns es et rd :
  Forall (fun e => midside_wedge et e = false /\ midside_triangle et e = false)
         es ->
  exists outer, get_faces es et rd = Ok outer.
Proof. apply get_faces_total. Qed.

Lemma get_faces_returns_witness :
  let es := [[1; 1; 7; 2; 3; 1; 1]; [1; 1; 9; 4]; [5]] in
  let et : gmap Z Z := {[ 7 := 63 ]} in
  Forall (fun e => midside_wedge et e = false /\ midside_triangle et e = false)
         es /\
  exists outer, get_faces es et true = Ok outer.
Proof.
  intros es et.
  assert (H : Forall (fun e => midside_wedge et e = false /\
                               midside_triangle et e = false) es).
  { repeat constructor. }
  split; [exact H|]. exact (get_faces_returns es et true H).
Defined.

(** One 20-node solid with [v3 == v4] and [v7 == v8] anywhere in the element
    table makes face extraction fail for the whole table: the call of
    [faces_on_15wedge] raises [NameError]. *)
Theorem midside_wedge_stops_extraction es et rd e :
  e ∈ es -> midside_wedge et e = true ->
  forall outer, get_faces es et rd <> Ok outer.
Proof.
  intros He Hw outer Hrun. unfold get_faces in Hrun.
  apply bind_Ok in Hrun as (counted & Hall & _). unfold get_all_faces in Hall.
  apply bind_Ok in Hall as (st & Hall & _).
  destruct (for_each_Ok_elem (get_all_faces_step et) (fun _ => True)
              (fun _ => True) es (FacesState ∅ None) st e)
    as (s1 & s2 & _ & Hstep); try done; [by apply Forall_true|].
  by rewrite get_all_faces_step_wedge in Hstep.
Qed.

Lemma midside_wedge_stops_extraction_witness :
  let e := [1; 1; 7; 1; 2; 3; 3; 4; 5; 6; 6; 0; 0; 0; 0; 0; 0; 0; 0; 0; 0; 0; 0] in
  let es := [[1; 1; 8; 2; 3; 1; 1]; e] in
  let et : gmap Z Z := {[ 7 := 186; 8 := 63 ]} in
  e ∈ es /\ midside_wedge et e = true /\
  forall outer, get_faces es et true <> Ok outer.
Proof.
  intros e es et.
  assert (H1 : e ∈ es) by (right; left).
  assert (H2 : midside_wedge et e = true) by reflexivity.
  split; [exact H1|]. split; [exact H2|].
  exact (midside_wedge_stops_extraction es et true e H1 H2).
Defined.

(** An 8-node shell with [v3 == v4] makes face extraction fail with
    [UnboundLocalError] unless a 10-node tetrahedron came before it: only
    that branch assigns the [v13] that the shell's branch reads. *)
Theorem midside_triangle_stops_extraction es et rd e :
  e ∈ es -> midside_triangle et e = true ->
  Forall (fun e' => binds_v13 et e' = false) es ->
  forall outer, get_faces es et rd <> Ok outer.
Proof.
  intros He Hw Hno outer Hrun. unfold get_faces in Hrun.
  apply bind_Ok in Hrun as (counted & Hall & _). unfold get_all_faces in Hall.
  apply bind_Ok in Hall as (st & Hall & _).
  destruct (for_each_Ok_elem (get_all_faces_step et)
              (fun st => local_v13 st = None)
              (fun e' => binds_v13 et e' = false) es (FacesState ∅ None) st e)
    as (s1 & s2 & Hv & Hstep); try done.
  - intros s x s' Hs Hb Hstep.
    destruct (midside_wedge et x) eqn:Hxw;
      [by rewrite get_all_faces_step_wedge in Hstep|].
    destruct (midside_triangle et x) eqn:Hxt;
      [by rewrite get_all_faces_step_triangle in Hstep|].
    destruct (get_all_faces_step_ok et s x Hxw Hxt) as (s'' & Hs'' & Hkeep).
    rewrite Hstep in Hs''. injection Hs'' as <-. by rewrite Hkeep.
  - by rewrite get_all_faces_step_triangle in Hstep.
Qed.

Lemma midside_triangle_stops_extraction_witness :
  let e := [1; 1; 7; 1; 2; 3; 3; 4; 5; 6; 7] in
  let es := [e] in
  let et : gmap Z Z := {[ 7 := 93 ]} in
  e ∈ es /\ midside_triangle et e = true /\
  Forall (fun e' => binds_v13 et e' = false) es /\
  forall outer, get_faces es et true <> Ok outer.
Proof.
  intros e es et.
  assert (H1 : e ∈ es) by left.
  assert (H2 : midside_triangle et e = true) by reflexivity.
  assert (H3 : Forall (fun e' => binds_v13 et e' = false) es)
    by (repeat constructor).
  split; [exact H1|]. split; [exact H2|]. split; [exact H3|].
  exact (midside_triangle_stops_extraction es et true e H1 H2 H3).
Defined.

(** *** The outer faces among the counted ones *)

Lemma get_outer_faces_groups rd counted outer g :
  get_outer_faces rd counted = Ok outer ->
  match counted !! g with
  | Some group => exists s, outer !! g = Some s /\ outer_of_group rd group = Ok s
  | None => outer !! g = None
  end.
Proof.
  intros Hout.
  destruct (get_outer_faces_loop rd counted _ _ _ Hout g) as [Hin Hnot].
  destruct (counted !! g) as [group|] eqn:Hg.
  - destruct Hin as (group' & s & Hg' & Hs & Hl).
    { rewrite list_elem_of_fmap. exists (g, group). split; [done|].
      by apply elem_of_map_to_list. }
    assert (group' = group) as -> by congruence. by exists s.
  - rewrite Hnot; [done|]. rewrite list_elem_of_fmap.
    intros ([g' group] & -> & Hin'). apply elem_of_map_to_list in Hin'.
    simpl in Hg. congruence.
Qed.

(** [get_outer_faces] makes one set for each group of counted faces and no
    other, and every outer face of a group is one of its counted faces. *)
Theorem outer_faces_among_counted rd counted outer :
  get_outer_faces rd counted = Ok outer ->
  (forall g, is_Some (outer !! g) <-> is_Some (counted !! g)) /\
  (forall g s group f,
     outer !! g = Some s -> counted !! g = Some group -> f ∈ s ->
     is_Some (group !! f)).
Proof.
  intros Hout. split.
  - intros g. pose proof (get_outer_faces_groups rd counted outer g Hout) as H.
    destruct (counted !! g) as [group|].
    + destruct H as (s & -> & _). split; eauto.
    + rewrite H. split; by intros [? ?].
  - intros g s group f Hs Hg Hf.
    pose proof (get_outer_faces_groups rd counted outer g Hout) as H.
    rewrite Hg in H. destruct H as (s' & Hs' & Hgroup).
    assert (s' = s) as -> by congruence.
    by apply (outer_of_group_spec rd group s Hgroup f).
Qed.

Lemma outer_faces_among_counted_witness :
  let counted : gmap (Z * Z) (gmap (list Z) Z) :=
    {[ (1, 1) := {[ [1; 2; 3] := 1; [1; 2; 4] := 2 ]} ]} in
  let outer : gmap (Z * Z) (gset (list Z)) := {[ (1, 1) := {[ [1; 2; 3] ]} ]} in
  get_outer_faces true counted = Ok outer /\
  (forall g, is_Some (outer !! g) <-> is_Some (counted !! g)) /\
  (forall g s group f,
     outer !! g = Some s -> counted !! g = Some group -> f ∈ s ->
     is_Some (group !! f)).
Proof.
  intros counted outer.
  assert (H : get_outer_faces true counted = Ok outer)
    by (vm_compute; reflexivity).
  split; [exact H|]. exact (outer_faces_among_counted true counted outer H).
Defined.

(** Removing duplicates only removes: the outer faces found with
    [remove_duplicates=True] are among those found with
    [remove_duplicates=False]. *)
Theorem remove_duplicates_only_removes counted outer_rd outer_all g s_rd s_all :
  get_outer_faces true counted = Ok outer_rd ->
  get_outer_faces false counted = Ok outer_all ->
  outer_rd !! g = Some s_rd -> outer_all !! g = Some s_all ->
  s_rd ⊆ s_all.
Proof.
  intros H1 H2 Hs1 Hs2 f Hf.
  pose proof (get_outer_faces_groups true counted outer_rd g H1) as G1.
  pose proof (get_outer_faces_groups false counted outer_all g H2) as G2.
  destruct (counted !! g) as [group|]; [|congruence].
  destruct G1 as (s1 & Hs1' & Hg1). destruct G2 as (s2 & Hs2' & Hg2).
  assert (s1 = s_rd) as -> by congruence.
  assert (s2 = s_all) as -> by congruence.
  destruct (proj1 (outer_of_group_spec true group s_rd Hg1 f) Hf)
    as [[c Hc] Htest].
  apply (outer_of_group_spec false group s_all Hg2 f). split; [by exists c|].
  destruct (proj1 (is_outer_true true group f c Hc) Htest) as [Habs _].
  apply (is_outer_true false group f c Hc). split; [done | by left].
Qed.

Lemma remove_duplicates_only_removes_witness :
  let counted : gmap (Z * Z) (gmap (list Z) Z) :=
    {[ (1, 1) := {[ [1; 2; 3] := 1; [1; 2; 4] := 2 ]} ]} in
  let outer_rd : gmap (Z * Z) (gset (list Z)) := {[ (1, 1) := {[ [1; 2; 3] ]} ]} in
  let outer_all : gmap (Z * Z) (gset (list Z)) :=
    {[ (1, 1) := {[ [1; 2; 3]; [1; 2; 4] ]} ]} in
  get_outer_faces true counted = Ok outer_rd /\
  get_outer_faces false counted = Ok outer_all /\
  outer_rd !! (1, 1) = Some {[ [1; 2; 3] ]} /\
  outer_all !! (1, 1) = Some {[ [1; 2; 3]; [1; 2; 4] ]} /\
  ({[ [1; 2; 3] ]} : gset (list Z)) ⊆ {[ [1; 2; 3]; [1; 2; 4] ]}.
Proof.
  intros counted outer_rd outer_all.
  assert (H1 : get_outer_faces true counted = Ok outer_rd)
    by (vm_compute; reflexivity).
  assert (H2 : get_outer_faces false counted = Ok outer_all)
    by (vm_compute; reflexivity).
  assert (H3 : outer_rd !! (1, 1) = Some {[ [1; 2; 3] ]})
    by (vm_compute; reflexivity).
  assert (H4 : outer_all !! (1, 1) = Some {[ [1; 2; 3]; [1; 2; 4] ]})
    by (vm_compute; reflexivity).
  split; [exact H1|]. split; [exact H2|]. split; [exact H3|].
  split; [exact H4|].
  exact (remove_duplicates_only_removes counted outer_rd outer_all (1, 1)
           _ _ H1 H2 H3 H4).
Defined.

(** A face and its mirror image cancel: when a group counts both
    [(x, t...)] and [(x, reversed t...)], neither is an outer face, with or
    without [remove_duplicates].  A face that is its own mirror image is
    never an outer face. *)
Theorem mirrored_faces_cancel rd counted outer g group s (x : Z) (t : list Z) :
  get_outer_faces rd counted = Ok outer ->
  counted !! g = Some group -> outer !! g = Some s ->
  is_Some (group !! (x :: t)) -> is_Some (group !! (x :: reverse t)) ->
  (x :: t ∉ s) /\ (x :: reverse t ∉ s).
Proof.
  intros Hout Hg Hs Hf Hm.
  pose proof (get_outer_faces_groups rd counted outer g Hout) as G.
  rewrite Hg in G. destruct G as (s' & Hs' & Hgroup).
  assert (s' = s) as -> by congruence.
  assert (Hnot : forall y u,
    is_Some (group !! (y :: reverse u)) -> (y :: u) ∉ s).
  { intros y u [c' Hc'] Hin.
    destruct (proj1 (outer_of_group_spec rd group s Hgroup _) Hin)
      as [[c Hc] Htest].
    destruct (proj1 (is_outer_true rd group _ c Hc) Htest) as [Habs _].
    unfold not_in_dict in Habs. rewrite inverse_face_cons in Habs.
    cbn [hashable bind] in Habs. injection Habs as Habs.
    apply bool_decide_eq_true in Habs. congruence. }
  split; [by apply Hnot|]. apply Hnot. by rewrite reverse_involutive.
Qed.

Lemma mirrored_faces_cancel_witness :
  let group : gmap (list Z) Z := {[ [1; 2; 3; 4] := 1; [1; 4; 3; 2] := 1 ]} in
  let counted : gmap (Z * Z) (gmap (list Z) Z) := {[ (1, 1) := group ]} in
  let outer : gmap (Z * Z) (gset (list Z)) := {[ (1, 1) := ∅ ]} in
  get_outer_faces false counted = Ok outer /\
  counted !! (1, 1) = Some group /\ outer !! (1, 1) = Some ∅ /\
  is_Some (group !! [1; 2; 3; 4]) /\ is_Some (group !! (1 :: reverse [2; 3; 4])) /\
  ([1; 2; 3; 4] ∉ (∅ : gset (list Z))) /\
  (1 :: reverse [2; 3; 4] ∉ (∅ : gset (list Z))).
Proof.
  intros group counted outer.
  assert (H1 : get_outer_faces false counted = Ok outer)
    by (vm_compute; reflexivity).
  assert (H2 : counted !! (1, 1) = Some group) by (vm_compute; reflexivity).
  assert (H3 : outer !! (1, 1) = Some ∅) by (vm_compute; reflexivity).
  assert (H4 : is_Some (group !! [1; 2; 3; 4]))
    by (exists 1; vm_compute; reflexivity).
  assert (H5 : is_Some (group !! (1 :: reverse [2; 3; 4])))
    by (exists 1; vm_compute; reflexivity).
  split; [exact H1|]. split; [exact H2|]. split; [exact H3|].
  split; [exact H4|]. split; [exact H5|].
  exact (mirrored_faces_cancel false counted outer (1, 1) group ∅ 1 [2; 3; 4]
           H1 H2 H3 H4 H5).
Defined.

End FaceExtraction.

(** * Reading back what the writer wrote *)

Section Numbers.

Implicit Types (u : Decimal.uint) (z acc : Z) (s r : str) (c : ascii).

(** ** ["%8i"] and [int] *)

Lemma digits_step acc b c r :
  isdigit c = true ->
  digits acc b (c :: r) = digits (10 * acc + (Z.of_N (code c) - 48)) true r.
Proof. intros H. simpl. by rewrite H. Qed.

Lemma digits_uint_acc u (p : positive) :
  digits (Z.pos p) true (lit (NilEmpty.string_of_uint u))
  = Some (Z.pos (Pos.of_uint_acc u p)).
Proof.
  revert p. induction u as [|u IH|u IH|u IH|u IH|u IH|u IH|u IH|u IH|u IH|u IH];
    intros p; [reflexivity|..];
    cbn [NilEmpty.string_of_uint lit list_ascii_of_string];
    (rewrite digits_step by reflexivity);
    cbn [Pos.of_uint_acc]; rewrite <- IH; f_equal; vm_compute code;
    cbn [Z.of_N]; lia.
Qed.

Lemma digits_uint u b :
  u <> Decimal.Nil ->
  digits 0 b (lit (NilEmpty.string_of_uint u)) = Some (Z.of_N (Pos.of_uint u)).
Proof.
  revert b. induction u as [|u IH|u IH|u IH|u IH|u IH|u IH|u IH|u IH|u IH|u IH];
    intros b Hu; [done|..];
    cbn [NilEmpty.string_of_uint lit list_ascii_of_string];
    (rewrite digits_step by reflexivity); cbn [Pos.of_uint Z.of_N].
  1: { assert (Hnil : u = Decimal.Nil \/ u <> Decimal.Nil)
         by (destruct u; [left; reflexivity | right; discriminate ..]).
       destruct Hnil as [->|Hne]; [reflexivity | by apply IH]. }
  all: apply digits_uint_acc.
Qed.

Lemma lstrip_by_clean (p : ascii -> bool) c r :
  p c = false -> lstrip_by p (c :: r) = c :: r.
Proof. intros H. simpl. by rewrite H. Qed.

Lemma lstrip_by_replicate (p : ascii -> bool) n c s :
  p c = true -> lstrip_by p (replicate n c ++ s) = lstrip_by p s.
Proof. intros H. induction n as [|n IH]; simpl; [done | by rewrite H]. Qed.

(** Stripping removes the padding and nothing of a string without
    white space. *)
Lemma strip_pad_left n s :
  Forall (fun c => isspace c = false) s -> strip (pad_left n s) = s.
Proof.
  intros Hs. unfold strip, strip_by, pad_left.
  rewrite lstrip_by_replicate by reflexivity.
  assert (Hl : forall t, Forall (fun c => isspace c = false) t ->
                         lstrip_by isspace t = t).
  { intros [|c t] Ht; [done|]. apply lstrip_by_clean.
    by apply Forall_cons in Ht as [? _]. }
  rewrite (Hl s Hs), (Hl (reverse s)); [apply reverse_involutive|].
  by apply Forall_reverse.
Qed.

Lemma digits_clean u :
  Forall (fun c => isspace c = false /\ c <> "010"%char /\ c <> ","%char
                   /\ c <> "-"%char /\ c <> "+"%char)
         (lit (NilEmpty.string_of_uint u)).
Proof.
  induction u; cbn [NilEmpty.string_of_uint lit list_ascii_of_string];
    [apply Forall_nil_2|..]; (apply Forall_cons; split; [|assumption]);
    repeat split; done.
Qed.

Lemma decimal_pos (p : positive) :
  decimal (Z.pos p) = lit (NilEmpty.string_of_uint (Pos.to_uint p)).
Proof.
  unfold decimal. cbn [Z.to_int NilZero.string_of_int].
  pose proof (Unsigned.to_uint_nonnil p) as Hn.
  by destruct (Pos.to_uint p).
Qed.

Lemma decimal_neg (p : positive) :
  decimal (Z.neg p) = "-"%char :: decimal (Z.pos p).
Proof.
  rewrite decimal_pos. unfold decimal. cbn [Z.to_int NilZero.string_of_int].
  pose proof (Unsigned.to_uint_nonnil p) as Hn.
  by destruct (Pos.to_uint p).
Qed.

(** The characters of [str(z)]: no white space, no line end, no comma. *)
Lemma decimal_clean z :
  Forall (fun c => isspace c = false /\ c <> "010"%char /\ c <> ","%char)
         (decimal z).
Proof.
  assert (Hp : forall p, Forall (fun c => isspace c = false /\ c <> "010"%char
                                          /\ c <> ","%char) (decimal (Z.pos p))).
  { intros p. rewrite decimal_pos.
    eapply Forall_impl; [apply digits_clean|]. simpl. tauto. }
  destruct z as [|p|p].
  - repeat (apply Forall_cons; split; [repeat split; done|]). apply Forall_nil_2.
  - apply Hp.
  - rewrite decimal_neg. apply Forall_cons. split; [repeat split; done | apply Hp].
Qed.

Lemma int_clean s :
  Forall (fun c => isspace c = false) s -> forall n, int (pad_left n s) = int s.
Proof.
  intros Hs n. unfold int. rewrite strip_pad_left by done.
  replace (strip s) with s; [done|]. symmetry.
  apply (strip_pad_left 0 s Hs).
Qed.

Lemma int_decimal z : int (decimal z) = Some z.
Proof.
  assert (Hp : forall p, int (decimal (Z.pos p)) = Some (Z.pos p)
                         /\ digits 0 false (decimal (Z.pos p)) = Some (Z.pos p)).
  { intros p.
    assert (Hd : digits 0 false (decimal (Z.pos p)) = Some (Z.pos p)).
    { rewrite decimal_pos, digits_uint by apply Unsigned.to_uint_nonnil.
      by rewrite Unsigned.of_to. }
    split; [|done]. unfold int.
    pose proof (strip_pad_left 0 (decimal (Z.pos p))) as Hs.
    unfold pad_left in Hs. simpl in Hs. rewrite Hs.
    2: { eapply Forall_impl; [apply decimal_clean|]. simpl. tauto. }
    pose proof (digits_clean (Pos.to_uint p)) as Hc.
    rewrite <- decimal_pos in Hc.
    destruct (decimal (Z.pos p)) as [|c r]; [done|].
    apply Forall_cons in Hc as [(_ & _ & _ & Hm & Hpl) _].
    rewrite decide_False, decide_False by done. exact Hd. }
  destruct z as [|p|p]; [reflexivity | apply Hp |].
  unfold int.
  pose proof (strip_pad_left 0 (decimal (Z.neg p))) as Hs.
  unfold pad_left in Hs. simpl in Hs. rewrite Hs.
  2: { eapply Forall_impl; [apply decimal_clean|]. simpl. tauto. }
  rewrite decimal_neg. rewrite decide_True by done.
  destruct (Hp p) as [_ ->]. reflexivity.
Qed.

Lemma int_fmt_i8 z : int (fmt_i8 z) = Some z.
Proof.
  unfold fmt_i8. rewrite int_clean; [apply int_decimal|].
  eapply Forall_impl; [apply decimal_clean|]. simpl. tauto.
Qed.

(** ** The width of a field *)

Lemma of_uint_acc_lower u (p : positive) :
  Z.pos p * 10 ^ Z.of_nat (Decimal.nb_digits u) <= Z.pos (Pos.of_uint_acc u p).
Proof.
  revert p. induction u as [|u IH|u IH|u IH|u IH|u IH|u IH|u IH|u IH|u IH|u IH];
    intros p; cbn [Decimal.nb_digits Pos.of_uint_acc];
    [simpl; lia|..];
    (etransitivity; [|apply IH]);
    rewrite Nat2Z.inj_succ, Z.pow_succ_r by lia;
    pose proof (Z.pow_nonneg 10 (Z.of_nat (Decimal.nb_digits u))); nia.
Qed.

Lemma to_uint_normal (p : positive) :
  Pos.to_uint p = Decimal.unorm (Pos.to_uint p).
Proof.
  rewrite <- Unsigned.to_of, Unsigned.of_to. reflexivity.
Qed.

Lemma to_uint_lower (p : positive) :
  10 ^ (Z.of_nat (Decimal.nb_digits (Pos.to_uint p)) - 1) <= Z.pos p.
Proof.
  pose proof (Unsigned.of_to p) as Hof.
  pose proof (to_uint_normal p) as Hnorm.
  pose proof (Unsigned.to_uint_nonzero p) as Hnz.
  destruct (Pos.to_uint p) as [|u|u|u|u|u|u|u|u|u|u] eqn:E;
    [discriminate Hof| |..].
  1: { exfalso. destruct u as [|u'|u'|u'|u'|u'|u'|u'|u'|u'|u'] eqn:Eu;
      [by apply Hnz|..];
      rewrite <- Eu in *;
      (assert (Hu : u <> Decimal.Nil) by (rewrite Eu; discriminate));
      pose proof (nb_digits_unorm u Hu) as Hle;
      change (Decimal.unorm (Decimal.D0 u)) with (Decimal.unorm u) in Hnorm;
      rewrite <- Hnorm in Hle; simpl in Hle; lia. }
  all: cbn [Pos.of_uint] in Hof; injection Hof as Hof; rewrite <- Hof;
    cbn [Decimal.nb_digits]; rewrite Nat2Z.inj_succ;
    replace (Z.succ (Z.of_nat (Decimal.nb_digits u)) - 1)
      with (Z.of_nat (Decimal.nb_digits u)) by lia;
    (etransitivity; [|apply of_uint_acc_lower]);
    pose proof (Z.pow_nonneg 10 (Z.of_nat (Decimal.nb_digits u))); lia.
Qed.

Lemma length_string_of_uint u :
  length (lit (NilEmpty.string_of_uint u)) = Decimal.nb_digits u.
Proof.
  induction u; cbn [NilEmpty.string_of_uint lit list_ascii_of_string
                    Decimal.nb_digits length]; [done|..]; by f_equal.
Qed.

Lemma length_decimal_pos (p : positive) (k : nat) :
  Z.pos p < 10 ^ Z.of_nat k -> (length (decimal (Z.pos p)) <= k)%nat.
Proof.
  intros Hlt. rewrite decimal_pos, length_string_of_uint.
  pose proof (to_uint_lower p) as Hlow.
  destruct (decide (Decimal.nb_digits (Pos.to_uint p) <= k)%nat) as [|Hgt];
    [done|exfalso].
  assert (10 ^ Z.of_nat k <= 10 ^ (Z.of_nat (Decimal.nb_digits (Pos.to_uint p)) - 1))
    by (apply Z.pow_le_mono_r; lia).
  lia.
Qed.

(** A number of at most eight digits, or seven and a sign, fills exactly
    the eight columns of its field. *)
Lemma length_fmt_i8 z :
  -10000000 < z < 100000000 -> length (fmt_i8 z) = 8%nat.
Proof.
  intros Hz. unfold fmt_i8, pad_left. rewrite length_app, length_replicate.
  assert (length (decimal z) <= 8)%nat; [|lia].
  destruct z as [|p|p].
  - simpl. lia.
  - apply (length_decimal_pos p 8). simpl. lia.
  - rewrite decimal_neg. simpl.
    pose proof (length_decimal_pos p 7) as H7. simpl in H7.
    assert (Z.pos p < 10000000) by lia. specialize (H7 ltac:(lia)). lia.
Qed.

End Numbers.

Section WrittenRecords.

Context {F : Type}.

Implicit Types (st : state (F := F)) (loc : field_locals) (forms : list form).
Implicit Types (line pre tail : str) (vs fs nodes face : list Z) (j : nat).

(** ** Slices of a line of fields *)

Lemma py_slice_app {A : Type} (a b : list A) (k : Z) :
  0 <= k -> py_slice (a ++ b) (len a) (len a + k) = take (Z.to_nat k) b.
Proof.
  intros Hk. unfold py_slice, clamp, len.
  rewrite !decide_False by lia. rewrite length_app.
  replace (Z.to_nat (Z.min (Z.of_nat (length a))
                           (Z.of_nat (length a + length b))))
    with (length a) by lia.
  rewrite drop_app_length.
  destruct (decide (Z.to_nat k <= length b)%nat).
  - f_equal. lia.
  - rewrite !take_ge by lia. done.
Qed.

Lemma py_slice_beyond {A : Type} (s : list A) (a b : Z) :
  len s <= a -> py_slice s a b = [].
Proof.
  intros Ha. unfold py_slice, clamp, len in *.
  rewrite (decide_False (P := a < 0)) by lia.
  rewrite drop_ge by lia. apply take_nil.
Qed.

(** The fields of a written record are read back one by one. *)
Lemma solid_fields_written forms line vs :
  forall pre tail fs fld en j,
    line = pre ++ concat (fmt_i8 <$> vs) ++ tail ->
    len pre = 8 * Z.of_nat j ->
    (forall i, (j <= i < j + length vs)%nat -> width_at forms i = Some 8) ->
    Forall (fun v => -10000000 < v < 100000000) vs ->
    for_each (solid_field forms line) (seq j (length vs))
             (FieldLocals fs fld en (8 * Z.of_nat j))
    = Ok (FieldLocals (fs ++ vs)
            (match last vs with Some v => Some v | None => fld end)
            (match vs with [] => en | _ => Some (8 * Z.of_nat (j + length vs)) end)
            (8 * Z.of_nat (j + length vs))).
Proof.
  induction vs as [|v vs IH]; intros pre tail fs fld en j Hline Hpre Hw Hfit.
  - simpl. rewrite app_nil_r. do 2 f_equal. lia.
  - apply Forall_cons in Hfit as [Hv Hfit].
    cbn [length seq for_each].
    assert (Hstep : solid_field forms line (FieldLocals fs fld en (8 * Z.of_nat j)) j
                    = Ok (FieldLocals (fs ++ [v]) (Some v)
                            (Some (8 * Z.of_nat (S j))) (8 * Z.of_nat (S j)))).
    { unfold solid_field. rewrite (Hw j) by (simpl; lia).
      cbn [local_start local_field local_end].
      rewrite Hline. cbn [fmap list_fmap concat]. rewrite <- Hpre.
      rewrite py_slice_app by lia. rewrite <- app_assoc.
      change (Z.to_nat 8) with 8%nat.
      rewrite <- (length_fmt_i8 v Hv) at 1. rewrite take_app_length.
      rewrite int_fmt_i8. cbn [load bind fields].
      do 2 f_equal; [f_equal|]; lia. }
    rewrite Hstep. cbn [bind].
    rewrite (IH (pre ++ fmt_i8 v) tail (fs ++ [v]) (Some v)
                (Some (8 * Z.of_nat (S j))) (S j)).
    + rewrite <- app_assoc. cbn [app].
      f_equal. f_equal.
      * destruct vs as [|v' vs']; [done|]. rewrite last_cons_cons.
        destruct (last (v' :: vs')) eqn:E; [done|]. by apply last_None in E.
      * destruct vs; f_equal; f_equal; simpl; lia.
      * f_equal. simpl. lia.
    + rewrite Hline. cbn [fmap list_fmap concat]. by rewrite <- !app_assoc.
    + unfold len in *. rewrite length_app, (length_fmt_i8 v Hv). lia.
    + intros i Hi. apply Hw. simpl. lia.
    + done.
Qed.

(** A slot that cannot be read keeps the last field. *)
Lemma solid_field_stale forms line fs v en start i :
  width_at forms i = Some 8 ->
  int (py_slice line start (start + 8)) = None ->
  solid_field forms line (FieldLocals fs (Some v) en start) i
  = Ok (FieldLocals (fs ++ [v]) (Some v) (Some (start + 8)) (start + 8)).
Proof.
  intros Hw Hint. unfold solid_field. rewrite Hw.
  cbn [local_start local_field local_end]. by rewrite Hint.
Qed.

Lemma forms_19i8 :
  detectFormat (lit "(19i8)" ++ newline) = replicate 19 (lit "i", 8, 0).
Proof. vm_compute. reflexivity. Qed.

Lemma width_19i8 i :
  (i < 19)%nat -> width_at (replicate 19 (lit "i", 8, 0)) i = Some 8.
Proof.
  intros Hi. unfold width_at. by rewrite lookup_replicate_2.
Qed.

Lemma for_each_app {A S : Type} (body : S -> A -> result S) (xs ys : list A)
    (s : S) :
  for_each body (xs ++ ys) s = (s' <- for_each body xs s ;; for_each body ys s').
Proof.
  revert s. induction xs as [|x xs IH]; intros s; [done|].
  cbn [app for_each]. destruct (body s x) as [s'| |]; cbn [bind]; [apply IH|done..].
Qed.

Lemma len_fields vs :
  Forall (fun v => -10000000 < v < 100000000) vs ->
  len (concat (fmt_i8 <$> vs)) = 8 * len vs.
Proof.
  unfold len. induction 1 as [|v vs Hv _ IH]; [done|].
  cbn [fmap list_fmap concat length]. rewrite length_app, (length_fmt_i8 v Hv).
  lia.
Qed.

(** A record of four nodes: the four slots after it on the line cannot be
    read and take the last node. *)
Lemma solid_record_four fuel mat ty real num n1 n2 n3 n4 field end_ st :
  Forall (fun v => -10000000 < v < 100000000)
         [mat; ty; real; num; n1; n2; n3; n4] ->
  solid_record (S fuel) 19 (replicate 19 (lit "i", 8, 0))
    (element_record mat ty real num [n1; n2; n3; n4]) field end_ st
  = Ok (Stored
          (set_global_e (set_rest st (rest st))
             (PyDict.set num [mat; real; ty; n1; n2; n3; n4; n4; n4; n4; n4]
                (global_e st)))
          (Some n4) (Some 152)).
Proof.
  intros Hfit.
  set (vs := [mat; ty; real; 1; 0; 0; 0; 0; 4; 0; num; n1; n2; n3; n4]).
  assert (Hvs : Forall (fun v => -10000000 < v < 100000000) vs).
  { unfold vs. rewrite !Forall_cons in Hfit. rewrite !Forall_cons.
    repeat split; try tauto; try lia. }
  assert (Hline : element_record mat ty real num [n1; n2; n3; n4]
                  = [] ++ concat (fmt_i8 <$> vs) ++ newline) by reflexivity.
  pose proof (len_fields vs Hvs) as Hlen. change (8 * len vs) with 120 in Hlen.
  assert (H15 : int (py_slice (element_record mat ty real num [n1; n2; n3; n4])
                       120 (120 + 8)) = None).
  { rewrite Hline. cbn [app]. rewrite <- Hlen. by rewrite py_slice_app. }
  assert (Hb : forall a, 121 <= a ->
            int (py_slice (element_record mat ty real num [n1; n2; n3; n4])
                   a (a + 8)) = None).
  { intros a Ha. rewrite py_slice_beyond; [done|].
    rewrite Hline. cbn [app]. unfold len in *. rewrite length_app.
    change (length newline) with 1%nat. lia. }
  unfold solid_record.
  change (seq 0 (Z.to_nat 19)) with (seq 0 (length vs) ++ [15; 16; 17; 18]%nat).
  rewrite for_each_app.
  change 0 with (8 * Z.of_nat 0) at 1.
  rewrite (solid_fields_written _ _ vs [] newline [] field end_ 0 Hline);
    [|done|intros i Hi; apply width_19i8; simpl in Hi; lia|done].
  change (8 * Z.of_nat (0 + length vs)) with 120.
  cbn [bind for_each last vs app].
  rewrite solid_field_stale; [|by apply width_19i8; lia|exact H15].
  cbn [bind]. change (120 + 8) with 128.
  rewrite solid_field_stale; [|by apply width_19i8; lia|by apply Hb].
  cbn [bind]. change (128 + 8) with 136.
  rewrite solid_field_stale; [|by apply width_19i8; lia|by apply Hb].
  cbn [bind]. change (136 + 8) with 144.
  rewrite solid_field_stale; [|by apply width_19i8; lia|by apply Hb].
  reflexivity.
Qed.

(** A record of eight nodes fills the nineteen fields. *)
Lemma solid_record_eight fuel mat ty real num n1 n2 n3 n4 n5 n6 n7 n8
    field end_ st :
  Forall (fun v => -10000000 < v < 100000000)
         [mat; ty; real; num; n1; n2; n3; n4; n5; n6; n7; n8] ->
  solid_record (S fuel) 19 (replicate 19 (lit "i", 8, 0))
    (element_record mat ty real num [n1; n2; n3; n4; n5; n6; n7; n8])
    field end_ st
  = Ok (Stored
          (set_global_e (set_rest st (rest st))
             (PyDict.set num [mat; real; ty; n1; n2; n3; n4; n5; n6; n7; n8]
                (global_e st)))
          (Some n8) (Some 152)).
Proof.
  intros Hfit.
  set (vs := [mat; ty; real; 1; 0; 0; 0; 0; 8; 0; num;
              n1; n2; n3; n4; n5; n6; n7; n8]).
  assert (Hvs : Forall (fun v => -10000000 < v < 100000000) vs).
  { unfold vs. rewrite !Forall_cons in Hfit. rewrite !Forall_cons.
    repeat split; try tauto; try lia. }
  assert (Hline : element_record mat ty real num [n1; n2; n3; n4; n5; n6; n7; n8]
                  = [] ++ concat (fmt_i8 <$> vs) ++ newline).
  { unfold element_record, vs. rewrite decide_True by done.
    cbn [take drop app fmap list_fmap concat]. by rewrite <- !app_assoc. }
  unfold solid_record.
  change (seq 0 (Z.to_nat 19)) with (seq 0 (length vs)).
  change 0 with (8 * Z.of_nat 0) at 1.
  rewrite (solid_fields_written _ _ vs [] newline [] field end_ 0 Hline);
    [|done|intros i Hi; apply width_19i8; simpl in Hi; lia|done].
  reflexivity.
Qed.

End WrittenRecords.

Section WrittenBlocks.

Context {F : Type}.

Implicit Types (st : state (F := F)) (forms : list form).
Implicit Types (line pre tail : str) (vs nodes face : list Z).
Implicit Types (fl : list (list Z)) (faces : list (list (list Z))).
Implicit Types (e : list (Z * list Z)) (s : eblock_state).

(** ** Lines *)

Lemma readline_line line tail :
  "010"%char ∉ line -> readline (line ++ newline ++ tail) = (line ++ newline, tail).
Proof.
  induction line as [|c line IH]; intros Hnl.
  - reflexivity.
  - apply not_elem_of_cons in Hnl as [Hc Hnl]. cbn [app readline].
    rewrite decide_False by done. by rewrite (IH Hnl).
Qed.

Lemma fmt_i8_line z : "010"%char ∉ fmt_i8 z.
Proof.
  unfold fmt_i8, pad_left. rewrite elem_of_app. intros [Hin|Hin].
  - by apply elem_of_replicate in Hin as [? _].
  - pose proof (decimal_clean z) as Hc. rewrite Forall_forall in Hc.
    by destruct (Hc _ Hin) as (_ & ? & _).
Qed.

Lemma fields_line vs : "010"%char ∉ concat (fmt_i8 <$> vs).
Proof.
  induction vs as [|v vs IH]; cbn [fmap list_fmap concat].
  - apply not_elem_of_nil.
  - rewrite elem_of_app. intros [Hin|Hin]; [by apply (fmt_i8_line v)|done].
Qed.

Lemma lstrip_by_snoc (p : ascii -> bool) (l : str) c :
  p c = false -> lstrip_by p (l ++ [c]) = lstrip_by p l ++ [c].
Proof.
  intros Hc. induction l as [|a l IH]; simpl; [by rewrite Hc|].
  by destruct (p a).
Qed.

(** Stripping keeps the first character that is not white space. *)
Lemma strip_head n c (t : str) :
  isspace c = false ->
  exists t', strip (replicate n " "%char ++ c :: t) = c :: t'.
Proof.
  intros Hc. unfold strip, strip_by.
  rewrite lstrip_by_replicate by reflexivity.
  rewrite lstrip_by_clean by done.
  rewrite reverse_cons, lstrip_by_snoc by done.
  rewrite reverse_app. cbn. eauto.
Qed.

Lemma decimal_head z :
  exists c r, decimal z = c :: r /\ isspace c = false
              /\ lower_char c <> "n"%char /\ (0 <= z -> c <> "-"%char).
Proof.
  assert (Hp : forall p, exists c r, decimal (Z.pos p) = c :: r
            /\ isspace c = false /\ lower_char c <> "n"%char /\ c <> "-"%char).
  { intros p. rewrite decimal_pos.
    pose proof (Unsigned.to_uint_nonnil p) as Hn.
    destruct (Pos.to_uint p); [done|..];
      cbn [NilEmpty.string_of_uint lit list_ascii_of_string];
      eexists _, _; (split; [reflexivity|]); repeat split; done. }
  destruct z as [|p|p].
  - exists "0"%char, []. repeat split; done.
  - destruct (Hp p) as (c & r & ? & ? & ? & ?). exists c, r. tauto.
  - rewrite decimal_neg. exists "-"%char, (decimal (Z.pos p)).
    repeat split; [done..|lia].
Qed.

(** A line that begins with a field of a number that is not negative does
    not begin with a dash. *)
Lemma fields_not_dash z tail :
  0 <= z -> startswith "-"%char (strip (fmt_i8 z ++ tail)) = false.
Proof.
  intros Hz. destruct (decimal_head z) as (c & r & Hd & Hsp & _ & Hdash).
  unfold fmt_i8, pad_left. rewrite Hd, <- app_assoc. cbn [app].
  destruct (strip_head (8 - length (c :: r)) c (r ++ tail) Hsp) as [t' ->].
  cbn [startswith]. apply bool_decide_eq_false_2. auto.
Qed.

(** ** The element table *)

Lemma set_fresh {V : Type} (k : Z) (v : V) (d : list (Z * V)) :
  k ∉ d.*1 -> PyDict.set k v d = d ++ [(k, v)].
Proof.
  induction d as [|[k' v'] d IH]; intros Hk; [done|].
  cbn [fmap list_fmap fst] in Hk. apply not_elem_of_cons in Hk as [Hne Hk].
  cbn [PyDict.set app]. rewrite decide_False by done. by rewrite IH.
Qed.

(** ** What [writeEBLOCK] has written so far *)

Lemma write_face_prefix (p : str) s face :
  write_face (EblockState (p ++ written s) (element_number s) (element_mat s)
                          (element_real s)) face
  = EblockState (p ++ written (write_face s face))
      (element_number (write_face s face)) (element_mat (write_face s face))
      (element_real (write_face s face)).
Proof.
  unfold write_face. destruct (shell_of_face face) as [[ty nodes]|]; [|done].
  cbn. by rewrite <- app_assoc.
Qed.

Lemma foldl_write_face_prefix (p : str) fl s :
  foldl write_face (EblockState (p ++ written s) (element_number s)
                                (element_mat s) (element_real s)) fl
  = EblockState (p ++ written (foldl write_face s fl))
      (element_number (foldl write_face s fl))
      (element_mat (foldl write_face s fl))
      (element_real (foldl write_face s fl)).
Proof.
  revert s. induction fl as [|face fl IH]; intros s; [done|].
  cbn [foldl]. by rewrite write_face_prefix, IH.
Qed.

Lemma write_face_list_prefix (p : str) inc_mat inc_real s fl :
  write_face_list inc_mat inc_real
    (EblockState (p ++ written s) (element_number s) (element_mat s)
                 (element_real s)) fl
  = EblockState (p ++ written (write_face_list inc_mat inc_real s fl))
      (element_number (write_face_list inc_mat inc_real s fl))
      (element_mat (write_face_list inc_mat inc_real s fl))
      (element_real (write_face_list inc_mat inc_real s fl)).
Proof.
  unfold write_face_list. by rewrite foldl_write_face_prefix.
Qed.

Lemma foldl_write_face_list_prefix (p : str) inc_mat inc_real faces s :
  foldl (write_face_list inc_mat inc_real)
    (EblockState (p ++ written s) (element_number s) (element_mat s)
                 (element_real s)) faces
  = EblockState
      (p ++ written (foldl (write_face_list inc_mat inc_real) s faces))
      (element_number (foldl (write_face_list inc_mat inc_real) s faces))
      (element_mat (foldl (write_face_list inc_mat inc_real) s faces))
      (element_real (foldl (write_face_list inc_mat inc_real) s faces)).
Proof.
  revert s. induction faces as [|fl faces IH]; intros s; [done|].
  cbn [foldl]. by rewrite write_face_list_prefix, IH.
Qed.

(** What one face adds to the file and to the table. *)
Lemma write_face_kept w num mat real face ty nodes :
  shell_of_face face = Some (ty, nodes) ->
  write_face (EblockState w num mat real) face
  = EblockState (w ++ element_record mat ty real num nodes) (num + 1) mat real.
Proof. intros Hs. unfold write_face. by rewrite Hs. Qed.

Lemma write_face_skipped s face :
  shell_of_face face = None -> write_face s face = s.
Proof. intros Hs. unfold write_face. by rewrite Hs. Qed.

Lemma shell_elements_kept mat real face fl ty nodes :
  shell_of_face face = Some (ty, nodes) ->
  omap (shell_element mat real) (face :: fl)
  = ([mat; real; ty] ++ nodes ++ replicate (8 - length nodes) (item nodes 3))
    :: omap (shell_element mat real) fl.
Proof.
  intros Hs. cbn [omap list_omap]. unfold shell_element at 1. by rewrite Hs.
Qed.

Lemma shell_elements_skipped mat real face fl :
  shell_of_face face = None ->
  omap (shell_element mat real) (face :: fl) = omap (shell_element mat real) fl.
Proof.
  intros Hs. cbn [omap list_omap]. unfold shell_element at 1. by rewrite Hs.
Qed.

(** The numbers that the loops of [writeEBLOCK] carry. *)
Lemma foldl_write_face_numbers fl (w : str) num mat real :
  element_number (foldl write_face (EblockState w num mat real) fl)
  = num + len (omap (shell_element mat real) fl)
  /\ element_mat (foldl write_face (EblockState w num mat real) fl) = mat
  /\ element_real (foldl write_face (EblockState w num mat real) fl) = real.
Proof.
  revert w num. induction fl as [|face fl IH]; intros w num.
  - cbn. unfold len. simpl. lia.
  - cbn [foldl]. destruct (shell_of_face face) as [[ty nodes]|] eqn:Hs.
    + rewrite (write_face_kept _ _ _ _ _ _ _ Hs).
      rewrite (shell_elements_kept _ _ _ _ _ _ Hs).
      destruct (IH (w ++ element_record mat ty real num nodes) (num + 1))
        as (-> & -> & ->).
      unfold len. cbn [length]. repeat split. lia.
    + rewrite (write_face_skipped _ _ Hs), (shell_elements_skipped _ _ _ _ Hs).
      apply IH.
Qed.

(** ** Reading the records back *)

Lemma record_shape mat ty real num nodes :
  exists body,
    element_record mat ty real num nodes = fmt_i8 mat ++ body ++ newline
    /\ "010"%char ∉ fmt_i8 mat ++ body.
Proof.
  exists (concat (fmt_i8 <$> ([ty; real; 1; 0; 0; 0; 0; len nodes; 0; num]
                              ++ take 4 nodes))
          ++ (if decide (4 < len nodes)
              then concat (fmt_i8 <$> take 4 (drop 4 nodes)) else [])).
  split.
  - unfold element_record. cbn [app fmap list_fmap concat].
    destruct (decide (4 < len nodes)); rewrite <- ?app_assoc;
      [reflexivity|]. by rewrite app_nil_l.
  - rewrite !elem_of_app. intros [Hin|[Hin|Hin]].
    + by apply (fmt_i8_line mat).
    + by apply (fields_line _ Hin).
    + destruct (decide (4 < len nodes)).
      * by apply (fields_line _ Hin).
      * by apply elem_of_nil in Hin.
Qed.

Lemma solid_record_written fuel mat real num face ty nodes field end_ st :
  shell_of_face face = Some (ty, nodes) ->
  fits_i8 mat -> fits_i8 real -> fits_i8 num -> Forall fits_i8 face ->
  exists field',
    solid_record (S fuel) 19 (replicate 19 (lit "i", 8, 0))
      (element_record mat ty real num nodes) field end_ st
    = Ok (Stored
            (set_global_e (set_rest st (rest st))
               (PyDict.set num
                  ([mat; real; ty] ++ nodes
                   ++ replicate (8 - length nodes) (item nodes 3))
                  (global_e st)))
            field' (Some 152)).
Proof.
  intros Hs Hmat Hreal Hnum Hface.
  destruct face as [|f0 [|f1 [|f2 [|f3 [|f4 [|f5 [|f6 [|f7 [|f8 ?]]]]]]]]];
    try discriminate; cbn in Hs; injection Hs as <- <-;
    rewrite ?Forall_cons in Hface; eexists.
  - apply solid_record_four. rewrite !Forall_cons.
    unfold fits_i8 in *. repeat split; try tauto; lia.
  - apply solid_record_four. rewrite !Forall_cons.
    unfold fits_i8 in *. repeat split; try tauto; lia.
  - apply solid_record_eight. rewrite !Forall_cons.
    unfold fits_i8 in *. repeat split; try tauto; lia.
  - apply solid_record_eight. rewrite !Forall_cons.
    unfold fits_i8 in *. repeat split; try tauto; lia.
Qed.

(** The records of one object: each is read back as the entry of its
    face, under the number that the writer gave it. *)
Lemma eblock_loop_face_list inner (et : gmap Z Z) (n : gmap Z (F * F * F))
    ce ct cm cr mat real tail fl :
  0 <= mat -> fits_i8 mat -> fits_i8 real -> Forall (Forall fits_i8) fl ->
  forall num e fuel field end_,
    0 <= num -> num + len fl < 100000000 ->
    Forall (fun k => k < num) e.*1 ->
    exists field' end',
      eblock_loop (length (omap (shell_element mat real) fl) + fuel) (S inner)
        true 19 (replicate 19 (lit "i", 8, 0)) field end_
        (State et e n ce ct cm cr
           (written (foldl write_face (EblockState [] num mat real) fl) ++ tail))
      = eblock_loop fuel (S inner) true 19 (replicate 19 (lit "i", 8, 0))
          field' end'
          (State et
             (e ++ imap (fun i el => (num + Z.of_nat i, el))
                        (omap (shell_element mat real) fl))
             n ce ct cm cr tail).
Proof.
  intros Hmat0 Hmat Hreal Hfl.
  induction Hfl as [|face fl Hface _ IH]; intros num e fuel field end_ Hnum Hmax He.
  - exists field, end_. cbn. by rewrite app_nil_r.
  - unfold len in Hmax. cbn [length] in Hmax. cbn [foldl].
    destruct (shell_of_face face) as [[ty nodes]|] eqn:Hs.
    + rewrite (write_face_kept _ _ _ _ _ _ _ Hs).
      rewrite (shell_elements_kept _ _ _ _ _ _ Hs).
      pose proof (foldl_write_face_prefix
                    ([] ++ element_record mat ty real num nodes) fl
                    (EblockState [] (num + 1) mat real)) as Hpre.
      cbn [written element_number element_mat element_real] in Hpre.
      rewrite app_nil_r in Hpre. rewrite Hpre. clear Hpre.
      cbn [written app length Nat.add].
      destruct (record_shape mat ty real num nodes) as (body & Hrec & Hnl).
      assert (Hfit : fits_i8 num) by (unfold fits_i8; lia).
      destruct (solid_record_written inner mat real num face ty nodes field end_
                  (set_rest (State et e n ce ct cm cr
                     (element_record mat ty real num nodes
                      ++ written (foldl write_face
                                    (EblockState [] (num + 1) mat real) fl)
                      ++ tail))
                     (written (foldl write_face
                                 (EblockState [] (num + 1) mat real) fl)
                      ++ tail))
                  Hs Hmat Hreal Hfit Hface) as [field1 Hrecord].
      rewrite <- app_assoc.
      erewrite eblock_loop_stored; [| | |exact Hrecord].
      * unfold set_global_e, set_rest.
        cbn [rest global_et global_e global_n module_current_element
             module_current_type module_current_mat module_current_real].
        rewrite set_fresh.
        2: { intros Hin. rewrite Forall_forall in He. specialize (He _ Hin). lia. }
        destruct (IH (num + 1)
                    (e ++ [(num, [mat; real; ty] ++ nodes
                             ++ replicate (8 - length nodes) (item nodes 3))])
                    fuel field1 (Some 152)) as (field' & end' & ->).
        { lia. }
        { unfold len. lia. }
        { rewrite fmap_app, Forall_app. split.
          - eapply Forall_impl; [exact He|]. simpl. lia.
          - cbn. apply Forall_cons. split; [lia|apply Forall_nil_2]. }
        exists field', end'. rewrite <- app_assoc. cbn [app imap].
        replace (num + Z.of_nat 0) with num by lia.
        rewrite (imap_ext (fun i el => (num + 1 + Z.of_nat i, el))
                   ((fun i el => (num + Z.of_nat i, el)) ∘ S)); [done|].
        intros i el _. cbn. f_equal. lia.
      * cbn [rest]. rewrite Hrec. rewrite <- !app_assoc.
        rewrite (app_assoc (fmt_i8 mat) body).
        rewrite readline_line by done. by rewrite <- app_assoc.
      * rewrite Hrec. by apply fields_not_dash.
    + rewrite (write_face_skipped _ _ Hs), (shell_elements_skipped _ _ _ _ Hs).
      apply IH; [done|unfold len; lia|done].
Qed.

Lemma write_face_list_state inc_mat inc_real (w : str) num mat real fl :
  write_face_list inc_mat inc_real (EblockState w num mat real) fl
  = EblockState
      (w ++ written (foldl write_face (EblockState [] num mat real) fl))
      (num + len (omap (shell_element mat real) fl))
      (if inc_mat then mat + 1 else mat)
      (if inc_real then real + 1 else real).
Proof.
  unfold write_face_list.
  pose proof (foldl_write_face_prefix w fl (EblockState [] num mat real)) as Hp.
  cbn [written element_number element_mat element_real] in Hp.
  rewrite app_nil_r in Hp. rewrite Hp.
  cbn [written element_number element_mat element_real].
  by destruct (foldl_write_face_numbers fl [] num mat real) as (-> & -> & ->).
Qed.

Lemma object_elements_first mat inc_mat real inc_real fl :
  object_elements mat inc_mat real inc_real 0 fl
  = omap (shell_element mat real) fl.
Proof.
  unfold object_elements. cbn [Z.of_nat]. rewrite !Z.add_0_r.
  by destruct inc_mat, inc_real.
Qed.

Lemma object_elements_next mat inc_mat real inc_real k fl :
  object_elements mat inc_mat real inc_real (S k) fl
  = object_elements (if inc_mat then mat + 1 else mat) inc_mat
      (if inc_real then real + 1 else real) inc_real k fl.
Proof.
  unfold object_elements.
  replace (mat + Z.of_nat (S k)) with (mat + 1 + Z.of_nat k) by lia.
  replace (real + Z.of_nat (S k)) with (real + 1 + Z.of_nat k) by lia.
  by destruct inc_mat, inc_real.
Qed.

Lemma length_shell_elements mat real fl :
  (length (omap (shell_element mat real) fl) <= length fl)%nat.
Proof.
  induction fl as [|face fl IH]; [done|]. cbn [omap list_omap length].
  destruct (shell_element mat real face); cbn [length]; lia.
Qed.

(** The records of all objects. *)
Lemma eblock_loop_objects inner (et : gmap Z Z) (n : gmap Z (F * F * F))
    ce ct cm cr inc_mat inc_real tail faces :
  Forall (Forall (Forall fits_i8)) faces ->
  forall mat real num e fuel field end_,
    0 <= mat -> mat + len faces < 100000000 ->
    -10000000 < real -> real + len faces < 100000000 ->
    0 <= num -> num + len (concat faces) < 100000000 ->
    Forall (fun k => k < num) e.*1 ->
    exists field' end',
      eblock_loop
        (length (concat (imap (object_elements mat inc_mat real inc_real) faces))
         + fuel) (S inner)
        true 19 (replicate 19 (lit "i", 8, 0)) field end_
        (State et e n ce ct cm cr
           (written (foldl (write_face_list inc_mat inc_real)
                           (EblockState [] num mat real) faces) ++ tail))
      = eblock_loop fuel (S inner) true 19 (replicate 19 (lit "i", 8, 0))
          field' end'
          (State et
             (e ++ imap (fun i el => (num + Z.of_nat i, el))
                     (concat (imap (object_elements mat inc_mat real inc_real)
                                   faces)))
             n ce ct cm cr tail).
Proof.
  induction 1 as [|fl faces Hfl _ IH];
    intros mat real num e fuel field end_ Hmat0 Hmat Hreal0 Hreal Hnum0 Hnum He.
  - exists field, end_. cbn. by rewrite app_nil_r.
  - unfold len in Hmat, Hreal, Hnum. cbn [length concat] in Hmat, Hreal, Hnum.
    rewrite length_app in Hnum.
    cbn [foldl imap concat]. rewrite write_face_list_state. cbn [app].
    pose proof (foldl_write_face_list_prefix
                  (written (foldl write_face (EblockState [] num mat real) fl))
                  inc_mat inc_real faces
                  (EblockState [] (num + len (omap (shell_element mat real) fl))
                     (if inc_mat then mat + 1 else mat)
                     (if inc_real then real + 1 else real))) as Hp.
    cbn [written element_number element_mat element_real] in Hp.
    rewrite app_nil_r in Hp. rewrite Hp. clear Hp.
    cbn [written]. rewrite <- app_assoc.
    rewrite object_elements_first, length_app, <- Nat.add_assoc.
    destruct (eblock_loop_face_list inner et n ce ct cm cr mat real
                (written (foldl (write_face_list inc_mat inc_real)
                   (EblockState [] (num + len (omap (shell_element mat real) fl))
                      (if inc_mat then mat + 1 else mat)
                      (if inc_real then real + 1 else real)) faces) ++ tail)
                fl ltac:(lia) ltac:(unfold fits_i8; lia)
                ltac:(unfold fits_i8; lia) Hfl num e
                (length (concat (imap
                   (object_elements mat inc_mat real inc_real ∘ S) faces)) + fuel)
                field end_ ltac:(lia) ltac:(unfold len; lia) He)
      as (field1 & end1 & ->).
    pose proof (length_shell_elements mat real fl) as Hk.
    assert (Hobj : imap (object_elements mat inc_mat real inc_real ∘ S) faces
                   = imap (object_elements (if inc_mat then mat + 1 else mat)
                             inc_mat (if inc_real then real + 1 else real)
                             inc_real) faces).
    { apply imap_ext. intros k fl' _. apply object_elements_next. }
    rewrite Hobj.
    destruct (IH (if inc_mat then mat + 1 else mat)
                 (if inc_real then real + 1 else real)
                 (num + len (omap (shell_element mat real) fl))
                 (e ++ imap (fun i el => (num + Z.of_nat i, el))
                         (omap (shell_element mat real) fl))
                 fuel field1 end1) as (field' & end' & ->).
    { destruct inc_mat; lia. }
    { unfold len. destruct inc_mat; lia. }
    { destruct inc_real; lia. }
    { unfold len. destruct inc_real; lia. }
    { unfold len. lia. }
    { unfold len. lia. }
    { rewrite fmap_app, Forall_app. split.
      - eapply Forall_impl; [exact He|]. unfold len. simpl. lia.
      - rewrite Forall_fmap, Forall_forall. intros [k el] Hin.
        apply elem_of_lookup_imap in Hin as (i & el' & [= -> ->] & Hi).
        apply lookup_lt_Some in Hi. unfold len. simpl. lia. }
    exists field', end'. rewrite <- app_assoc. do 3 f_equal.
    rewrite imap_app. f_equal. apply imap_ext. intros i el _.
    cbn. f_equal. unfold len. lia.
Qed.

End WrittenBlocks.

Section WrittenNodes.

Context {F : Type}.
Variable float_of : str -> option F.
Variable zero : F.
Variable fmt_g16_9 : F -> str.

Implicit Types (st : state (F := F)) (forms : list form).
Implicit Types (line tail : str) (n : list (Z * (F * F * F))).
Implicit Types (gn : gmap Z (F * F * F)) (e : list (Z * list Z)).

Lemma forms_nblock :
  detectFormat (lit "(3i8,6g16.9)" ++ newline)
  = replicate 3 (lit "i", 8, 0) ++ replicate 6 (lit "g", 16, 9).
Proof. vm_compute. reflexivity. Qed.

(** One node line. *)
Lemma nblock_loop_node fuel (et : gmap Z Z) e gn ce ct cm cr tail
    (node : Z) (x y z : F) :
  fits_i8 node ->
  reads_back fmt_g16_9 float_of x -> reads_back fmt_g16_9 float_of y ->
  reads_back fmt_g16_9 float_of z ->
  nblock_loop float_of zero (S fuel)
    (replicate 3 (lit "i", 8, 0) ++ replicate 6 (lit "g", 16, 9)) 24 40 56 72
    (State et e gn ce ct cm cr (node_record fmt_g16_9 (node, (x, y, z)) ++ tail))
  = nblock_loop float_of zero fuel
      (replicate 3 (lit "i", 8, 0) ++ replicate 6 (lit "g", 16, 9)) 24 40 56 72
      (State et e (<[node := (x, y, z)]> gn) ce ct cm cr tail).
Proof.
  intros Hnode (Hxl & Hxn & Hx) (Hyl & Hyn & Hy) (Hzl & Hzn & Hz).
  pose proof (length_fmt_i8 node Hnode) as Hl.
  pose proof (length_fmt_i8 0 ltac:(lia)) as Hl0.
  set (body := fmt_i8 node ++ fmt_i8 0 ++ fmt_i8 0
               ++ fmt_g16_9 x ++ fmt_g16_9 y ++ fmt_g16_9 z).
  assert (Hrec : node_record fmt_g16_9 (node, (x, y, z)) = body ++ newline).
  { unfold node_record, body. cbn [fst snd]. by rewrite <- !app_assoc. }
  assert (Hnl : "010"%char ∉ body).
  { unfold body. rewrite !elem_of_app.
    pose proof (fmt_i8_line node). pose proof (fmt_i8_line 0). tauto. }
  assert (Hline : readline (node_record fmt_g16_9 (node, (x, y, z)) ++ tail)
                  = (body ++ newline, tail)).
  { rewrite Hrec, <- app_assoc. by apply readline_line. }
  assert (Hlen : len (body ++ newline) <> 0).
  { unfold len. rewrite length_app. change (length newline) with 1%nat. lia. }
  assert (Hfirst : exists c, strip (body ++ newline) !! 0%nat = Some c
                             /\ lower_char c <> "n"%char).
  { destruct (decimal_head node) as (c & r & Hd & Hsp & Hn & _).
    exists c. split; [|done]. unfold body, fmt_i8 at 1, pad_left.
    rewrite Hd, <- !app_assoc. cbn [app].
    by destruct (strip_head (8 - length (c :: r)) c
                   (r ++ fmt_i8 0 ++ fmt_i8 0 ++ fmt_g16_9 x ++ fmt_g16_9 y
                    ++ fmt_g16_9 z ++ newline) Hsp) as [t' ->]. }
  destruct Hfirst as (c & Hc & Hcn).
  assert (Hid : int (py_slice (body ++ newline) 0 8) = Some node).
  { pose proof (py_slice_app [] (body ++ newline) 8 ltac:(lia)) as Hs.
    cbn [app] in Hs. change (len [] + 8) with 8 in Hs.
    change (len (@nil ascii)) with 0 in Hs. rewrite Hs.
    unfold body. rewrite <- !app_assoc. change (Z.to_nat 8) with 8%nat.
    rewrite <- Hl at 1. rewrite take_app_length. apply int_fmt_i8. }
  assert (Hsx : py_slice (body ++ newline) 24 40 = fmt_g16_9 x).
  { pose proof (py_slice_app (fmt_i8 node ++ fmt_i8 0 ++ fmt_i8 0)
                  (fmt_g16_9 x ++ fmt_g16_9 y ++ fmt_g16_9 z ++ newline) 16
                  ltac:(lia)) as Hs.
    unfold len in Hs. rewrite !length_app, Hl, Hl0 in Hs.
    change (Z.of_nat (8 + (8 + 8))) with 24 in Hs.
    change (24 + 16) with 40 in Hs. unfold body.
    rewrite <- !app_assoc in *. rewrite Hs.
    change (Z.to_nat 16) with 16%nat. rewrite <- Hxl at 1.
    apply take_app_length. }
  assert (Hsy : py_slice (body ++ newline) 40 56 = fmt_g16_9 y).
  { pose proof (py_slice_app (fmt_i8 node ++ fmt_i8 0 ++ fmt_i8 0 ++ fmt_g16_9 x)
                  (fmt_g16_9 y ++ fmt_g16_9 z ++ newline) 16
                  ltac:(lia)) as Hs.
    unfold len in Hs. rewrite !length_app, Hl, Hl0, Hxl in Hs.
    change (Z.of_nat (8 + (8 + (8 + 16)))) with 40 in Hs.
    change (40 + 16) with 56 in Hs. unfold body.
    rewrite <- !app_assoc in *. rewrite Hs.
    change (Z.to_nat 16) with 16%nat. rewrite <- Hyl at 1.
    apply take_app_length. }
  assert (Hsz : py_slice (body ++ newline) 56 72 = fmt_g16_9 z).
  { pose proof (py_slice_app
                  (fmt_i8 node ++ fmt_i8 0 ++ fmt_i8 0 ++ fmt_g16_9 x
                   ++ fmt_g16_9 y)
                  (fmt_g16_9 z ++ newline) 16 ltac:(lia)) as Hs.
    unfold len in Hs. rewrite !length_app, Hl, Hl0, Hxl, Hyl in Hs.
    change (Z.of_nat (8 + (8 + (8 + (16 + 16))))) with 56 in Hs.
    change (56 + 16) with 72 in Hs. unfold body.
    rewrite <- !app_assoc in *. rewrite Hs.
    change (Z.to_nat 16) with 16%nat. rewrite <- Hzl at 1.
    apply take_app_length. }
  cbn [nblock_loop rest]. rewrite Hline.
  rewrite decide_False by done.
  unfold set_rest at 1.
  cbn [rest global_et global_e global_n module_current_element
       module_current_type module_current_mat module_current_real].
  rewrite Hc. cbn [load bind].
  rewrite bool_decide_eq_false_2 by done.
  change (width_at (replicate 3 (lit "i", 8, 0) ++ replicate 6 (lit "g", 16, 9)) 0)
    with (Some 8).
  cbn [mbind option_bind]. rewrite Hid. rewrite Hsx, Hsy, Hsz.
  unfold float_or_zero. cbn [mbind option_bind]. rewrite Hx, Hy, Hz.
  reflexivity.
Qed.


End WrittenNodes.

Section WrittenFile.

Context {F : Type}.
Variable float_of : str -> option F.
Variable zero : F.
Variable fmt_g16_9 : F -> str.

Implicit Types (st : state (F := F)) (forms : list form).
Implicit Types (line tail : str) (n : list (Z * (F * F * F))).
Implicit Types (gn : gmap Z (F * F * F)) (e : list (Z * list Z)).
Implicit Types (faces : list (list (list Z))).

(** A fact about given strings, by evaluation. *)
Local Ltac by_evaluation := apply (bool_decide_unpack _); vm_compute; exact I.

(** ** The node block *)

Lemma nblock_loop_nodes (et : gmap Z Z) e ce ct cm cr tail n :
  Forall (fun node => fits_i8 node.1
            /\ reads_back fmt_g16_9 float_of node.2.1.1
            /\ reads_back fmt_g16_9 float_of node.2.1.2
            /\ reads_back fmt_g16_9 float_of node.2.2) n ->
  forall gn fuel,
    nblock_loop float_of zero (length n + fuel)
      (replicate 3 (lit "i", 8, 0) ++ replicate 6 (lit "g", 16, 9)) 24 40 56 72
      (State et e gn ce ct cm cr
         (concat (node_record fmt_g16_9 <$> n) ++ tail))
    = nblock_loop float_of zero fuel
        (replicate 3 (lit "i", 8, 0) ++ replicate 6 (lit "g", 16, 9)) 24 40 56 72
        (State et e (foldl (fun m node => <[node.1 := node.2]> m) gn n)
               ce ct cm cr tail).
Proof.
  induction 1 as [|[node [[x y] z]] n (Hnode & Hx & Hy & Hz) _ IH];
    intros gn fuel; [done|].
  cbn [fmap list_fmap concat length Nat.add foldl fst snd] in *.
  rewrite <- app_assoc.
  rewrite (nblock_loop_node float_of zero fmt_g16_9) by done.
  apply IH.
Qed.

Lemma nblock_loop_end fuel forms (et : gmap Z Z) e gn ce ct cm cr tail a b c d :
  nblock_loop float_of zero (S fuel) forms a b c d
    (State et e gn ce ct cm cr (lit "N,R5.3,LOC,-1," ++ newline ++ tail))
  = Ok (State et e gn ce ct cm cr tail).
Proof.
  cbn [nblock_loop rest]. rewrite readline_line by by_evaluation.
  reflexivity.
Qed.

(** The [NBLOCK] command with its format line, its node lines and the
    line that ends the block. *)
Lemma parse_written_nodes inner (et : gmap Z Z) e gn ce ct cm cr tail n :
  Forall (fun node => fits_i8 node.1
            /\ reads_back fmt_g16_9 float_of node.2.1.1
            /\ reads_back fmt_g16_9 float_of node.2.1.2
            /\ reads_back fmt_g16_9 float_of node.2.2) n ->
  (length n < inner)%nat ->
  parseCommand float_of zero inner (lit "NBLOCK,6,SOLID" ++ newline)
    (State et e gn ce ct cm cr
       (lit "(3i8,6g16.9)" ++ newline ++ concat (node_record fmt_g16_9 <$> n)
        ++ lit "N,R5.3,LOC,-1," ++ newline ++ tail))
  = Ok (State et e (foldl (fun m node => <[node.1 := node.2]> m) gn n)
              ce ct cm cr tail).
Proof.
  intros Hn Hfuel.
  change (parseCommand float_of zero inner (lit "NBLOCK,6,SOLID" ++ newline))
    with (readNBLOCK float_of zero inner [lit "nblock"; lit "6"; lit "solid"]).
  unfold readNBLOCK. cbn [rest].
  rewrite readline_line by by_evaluation. rewrite forms_nblock.
  rewrite decide_False by (vm_compute; discriminate).
  change (width <$> take 6 (replicate 3 (lit "i", 8, 0)
                            ++ replicate 6 (lit "g", 16, 9)))
    with [8; 8; 8; 16; 16; 16].
  cbv zeta. change (8 + 8 + 8) with 24. change (24 + 16) with 40.
  change (40 + 16) with 56. change (56 + 16) with 72.
  unfold set_rest.
  cbn [rest global_et global_e global_n module_current_element
       module_current_type module_current_mat module_current_real].
  replace inner with (length n + S (inner - length n - 1))%nat by lia.
  rewrite nblock_loop_nodes by done.
  apply nblock_loop_end.
Qed.

(** ** The element block *)

Lemma length_object_elements init_mat inc_mat init_real inc_real faces :
  (length (concat (imap (object_elements init_mat inc_mat init_real inc_real)
                        faces))
   <= length (concat faces))%nat.
Proof.
  revert init_mat init_real.
  induction faces as [|fl faces IH]; intros init_mat init_real; [done|].
  cbn [imap concat]. rewrite !length_app, object_elements_first.
  pose proof (length_shell_elements init_mat init_real fl) as Hfl.
  rewrite (imap_ext _ (object_elements (if inc_mat then init_mat + 1 else init_mat)
                         inc_mat (if inc_real then init_real + 1 else init_real)
                         inc_real));
    [|intros k fl' _; apply object_elements_next].
  specialize (IH (if inc_mat then init_mat + 1 else init_mat)
                 (if inc_real then init_real + 1 else init_real)).
  lia.
Qed.

Lemma split_head (sep : ascii) (a b : str) :
  sep ∉ a -> split sep (a ++ sep :: b) = a :: split sep b.
Proof.
  induction a as [|c a IH]; intros Ha.
  - cbn. by rewrite decide_True.
  - apply not_elem_of_cons in Ha as [Hc Ha]. cbn [app split].
    rewrite decide_False by done. by rewrite (IH Ha).
Qed.

Lemma eblock_loop_end fuel inner forms field end_ (et : gmap Z Z) e gn
    ce ct cm cr tail :
  eblock_loop (S fuel) inner true 19 forms field end_
    (State et e gn ce ct cm cr (lit "-1," ++ newline ++ tail))
  = Ok (State et e gn ce ct cm cr tail).
Proof.
  cbn [eblock_loop rest]. rewrite readline_line by by_evaluation.
  reflexivity.
Qed.

(** The [EBLOCK] command with its format line, its records and the line
    that ends the block. *)
Lemma parse_written_elements inner (et : gmap Z Z) gn ce ct cm cr tail
    faces init_mat inc_mat init_real inc_real (count : Z) :
  Forall (Forall (Forall fits_i8)) faces ->
  0 <= init_mat -> init_mat + len faces < 100000000 ->
  -10000000 < init_real -> init_real + len faces < 100000000 ->
  len (concat faces) < 99999999 ->
  (1 + length (concat faces) < inner)%nat ->
  parseCommand float_of zero inner
    (lit "EBLOCK,19,SOLID," ++ decimal count ++ newline)
    (State et [] gn ce ct cm cr
       (lit "(19i8)" ++ newline
        ++ written (foldl (write_face_list inc_mat inc_real)
                          (EblockState [] 1 init_mat init_real) faces)
        ++ lit "-1," ++ newline ++ tail))
  = Ok (State et (element_table faces init_mat inc_mat init_real inc_real)
              gn ce ct cm cr tail).
Proof.
  intros Hfaces Hm0 Hm Hr0 Hr Hcount Hfuel.
  set (st := State et [] gn ce ct cm cr _).
  assert (Htokens : exists more,
    (fun t => lower (strip t))
      <$> split ","%char (lit "EBLOCK,19,SOLID," ++ decimal count ++ newline)
    = lit "eblock" :: lit "19" :: lit "solid" :: more).
  { change (lit "EBLOCK,19,SOLID," ++ decimal count ++ newline)
      with (lit "EBLOCK" ++ ","%char :: lit "19" ++ ","%char :: lit "SOLID"
            ++ ","%char :: decimal count ++ newline).
    rewrite !split_head by by_evaluation. eexists. reflexivity. }
  destruct Htokens as [more Htokens].
  assert (Hcmd : parseCommand float_of zero inner
                   (lit "EBLOCK,19,SOLID," ++ decimal count ++ newline) st
                 = readEBLOCK inner
                     (lit "eblock" :: lit "19" :: lit "solid" :: more) st).
  { unfold parseCommand. rewrite Htokens. reflexivity. }
  rewrite Hcmd.
  rewrite (readEBLOCK_solid inner _ st 19 (lit "(19i8)" ++ newline)
             (written (foldl (write_face_list inc_mat inc_real)
                             (EblockState [] 1 init_mat init_real) faces)
              ++ lit "-1," ++ newline ++ tail)).
  2: { unfold len. cbn [length]. lia. }
  2: { reflexivity. }
  2: { reflexivity. }
  2: { unfold st. cbn [rest]. by rewrite readline_line by by_evaluation. }
  2: { rewrite forms_19i8. vm_compute. discriminate. }
  rewrite forms_19i8. unfold st, set_rest.
  cbn [rest global_et global_e global_n module_current_element
       module_current_type module_current_mat module_current_real].
  pose proof (length_object_elements init_mat inc_mat init_real inc_real faces)
    as Hk.
  assert (Hloop : forall f1 f2,
    (length (concat (imap (object_elements init_mat inc_mat init_real inc_real)
                          faces)) < f1)%nat -> (0 < f2)%nat ->
    eblock_loop f1 f2 true 19 (replicate 19 (lit "i", 8, 0)) None None
      (State et [] gn ce ct cm cr
         (written (foldl (write_face_list inc_mat inc_real)
                         (EblockState [] 1 init_mat init_real) faces)
          ++ lit "-1," ++ newline ++ tail))
    = Ok (State et (element_table faces init_mat inc_mat init_real inc_real)
                gn ce ct cm cr tail)).
  { intros f1 f2 Hf1 Hf2. destruct f2 as [|f2]; [lia|].
    set (k := length (concat (imap (object_elements init_mat inc_mat init_real
                                      inc_real) faces))) in *.
    replace f1 with (k + S (f1 - k - 1))%nat by lia.
    generalize (f1 - k - 1)%nat. intros extra. subst k.
    destruct (eblock_loop_objects (F := F) f2 et gn ce ct cm cr inc_mat inc_real
                (lit "-1," ++ newline ++ tail) faces Hfaces
                init_mat init_real 1 [] (S extra) None None)
      as (field' & end' & ->); [lia..|unfold len in *; lia|apply Forall_nil_2|].
    rewrite eblock_loop_end. cbn [app]. unfold element_table. do 2 f_equal.
    apply imap_ext. intros i el _. cbn. f_equal. lia. }
  apply Hloop; lia.
Qed.

(** ** The file *)

Lemma read_loop_line fuel inner (et : gmap Z Z) e gn ce ct cm cr line tail :
  "010"%char ∉ line ->
  read_loop float_of zero (S fuel) inner
    (State et e gn ce ct cm cr (line ++ newline ++ tail))
  = (st' <- parseCommand float_of zero inner (line ++ newline)
              (State et e gn ce ct cm cr tail) ;;
     read_loop float_of zero fuel inner st').
Proof.
  intros Hline. cbn [read_loop rest]. rewrite (readline_line _ _ Hline).
  rewrite decide_False; [reflexivity|].
  unfold len. rewrite length_app. change (length newline) with 1%nat. lia.
Qed.

Lemma foldl_insert_lookup n gn (k : Z) :
  NoDup n.*1 ->
  foldl (fun m node => <[node.1 := node.2]> m) gn n !! k
  = match (list_to_map n : gmap Z (F * F * F)) !! k with
    | Some v => Some v
    | None => gn !! k
    end.
Proof.
  revert gn. induction n as [|[k0 v0] n IH]; intros gn Hn.
  - cbn. by rewrite lookup_empty.
  - cbn [fmap list_fmap fst] in Hn. apply NoDup_cons in Hn as [Hk0 Hn].
    cbn [foldl fst snd]. rewrite list_to_map_cons, (IH _ Hn).
    destruct (decide (k = k0)) as [->|Hne].
    + rewrite !lookup_insert_eq.
      by rewrite (not_elem_of_list_to_map_1 _ _ Hk0).
    + rewrite !lookup_insert_ne by done. reflexivity.
Qed.

Lemma written_file n faces init_mat inc_mat init_real inc_real :
  write fmt_g16_9 n faces init_mat inc_mat init_real inc_real
  = lit "/PREP7" ++ newline ++ lit "/TITLE," ++ newline
    ++ lit "ET,1,63" ++ newline ++ lit "ET,2,93" ++ newline
    ++ lit "NBLOCK,6,SOLID" ++ newline
    ++ lit "(3i8,6g16.9)" ++ newline ++ concat (node_record fmt_g16_9 <$> n)
    ++ lit "N,R5.3,LOC,-1," ++ newline
    ++ (lit "EBLOCK,19,SOLID,"
        ++ decimal (foldl (fun c face_list => c + len face_list) 0 faces))
    ++ newline
    ++ lit "(19i8)" ++ newline
    ++ written (foldl (write_face_list inc_mat inc_real)
                      (EblockState [] 1 init_mat init_real) faces)
    ++ lit "-1," ++ newline
    ++ lit "FINISH" ++ newline ++ [].
Proof.
  unfold write, writeHeader, writeNBLOCK, writeEBLOCK, writeFINISH.
  change writeET
    with (lit "ET,1,63" ++ newline ++ lit "ET,2,93" ++ newline).
  pose proof (foldl_write_face_list_prefix
                (lit "EBLOCK,19,SOLID,"
                 ++ decimal (foldl (fun c face_list => c + len face_list) 0 faces)
                 ++ newline ++ lit "(19i8)" ++ newline)
                inc_mat inc_real faces
                (EblockState [] 1 init_mat init_real)) as Hp.
  cbn [written element_number element_mat element_real] in Hp.
  rewrite app_nil_r in Hp. cbv zeta. rewrite Hp.
  cbn [written]. rewrite app_nil_r. rewrite <- !app_assoc. reflexivity.
Qed.

Lemma parse_prep7 inner st :
  parseCommand float_of zero inner (lit "/PREP7" ++ newline) st = Ok st.
Proof. reflexivity. Qed.

Lemma parse_title inner st :
  parseCommand float_of zero inner (lit "/TITLE," ++ newline) st = Ok st.
Proof. reflexivity. Qed.

Lemma parse_finish inner st :
  parseCommand float_of zero inner (lit "FINISH" ++ newline) st = Ok st.
Proof. reflexivity. Qed.

Lemma parse_et_63 inner (et : gmap Z Z) e gn ce ct cm cr tail :
  parseCommand float_of zero inner (lit "ET,1,63" ++ newline)
    (State et e gn ce ct cm cr tail)
  = Ok (State (<[1 := 63]> et) e gn ce (Some 1) cm cr tail).
Proof. reflexivity. Qed.

Lemma parse_et_93 inner (et : gmap Z Z) e gn ce ct cm cr tail :
  parseCommand float_of zero inner (lit "ET,2,93" ++ newline)
    (State et e gn ce ct cm cr tail)
  = Ok (State (<[2 := 93]> et) e gn ce (Some 2) cm cr tail).
Proof. reflexivity. Qed.

Lemma read_loop_written top inner n faces init_mat inc_mat init_real inc_real :
  NoDup n.*1 ->
  Forall (fun node => fits_i8 node.1
            /\ reads_back fmt_g16_9 float_of node.2.1.1
            /\ reads_back fmt_g16_9 float_of node.2.1.2
            /\ reads_back fmt_g16_9 float_of node.2.2) n ->
  Forall (Forall (Forall fits_i8)) faces ->
  0 <= init_mat -> init_mat + len faces < 100000000 ->
  -10000000 < init_real -> init_real + len faces < 100000000 ->
  len (concat faces) < 99999999 ->
  (8 <= top)%nat -> (length n < inner)%nat ->
  (1 + length (concat faces) < inner)%nat ->
  read_loop float_of zero top inner
    (fresh (write fmt_g16_9 n faces init_mat inc_mat init_real inc_real))
  = Ok (State element_types
          (element_table faces init_mat inc_mat init_real inc_real)
          (list_to_map n) None (Some 2) None None []).
Proof.
  intros Hdup Hn Hfaces Hm0 Hm Hr0 Hr Hcount Htop Hin1 Hin2.
  do 8 (destruct top as [|top]; [lia|]). clear Htop.
  unfold fresh. rewrite written_file.
  rewrite read_loop_line by by_evaluation. rewrite parse_prep7. cbn [bind].
  rewrite read_loop_line by by_evaluation. rewrite parse_title. cbn [bind].
  rewrite read_loop_line by by_evaluation. rewrite parse_et_63. cbn [bind].
  rewrite read_loop_line by by_evaluation. rewrite parse_et_93. cbn [bind].
  rewrite read_loop_line by by_evaluation.
  rewrite parse_written_nodes by done. cbn [bind].
  rewrite read_loop_line.
  2: { rewrite elem_of_app. intros [Hc|Hc]; [revert Hc; by_evaluation|].
       pose proof (decimal_clean
                     (foldl (fun c face_list => c + len face_list) 0 faces)) as H.
       rewrite Forall_forall in H. by destruct (H _ Hc) as (_ & ? & _). }
  rewrite <- app_assoc.
  rewrite parse_written_elements by done. cbn [bind].
  rewrite read_loop_line by by_evaluation. rewrite parse_finish. cbn [bind].
  cbn [read_loop rest readline]. rewrite decide_True by done.
  unfold set_rest.
  cbn [rest global_et global_e global_n module_current_element
       module_current_type module_current_mat module_current_real].
  do 2 f_equal.
  apply map_eq. intros k. rewrite (foldl_insert_lookup _ _ _ Hdup).
  rewrite lookup_empty. by destruct (list_to_map n !! k).
Qed.

(** ** The file, whatever its coordinates are *)




End WrittenFile.

Section WrittenFileRead.

Context {F : Type}.
Variable float_of : str -> option F.
Variable zero : F.
Variable fmt_g16_9 : F -> str.

(** Reading what was written: for a node dictionary [n] (its items, with
    distinct keys) and the face lists [faces] of the selected objects,
    [read3DMesh] on the file that [write] produces returns the node table
    [n], the element table with one entry for each face of 3, 4, 6 or 8
    vertices, numbered from 1 in the order of writing, and the element types
    1 (SHELL63) and 2 (SHELL93).  It is assumed that every number fits the
    eight columns of its field, that the material numbers are not negative
    (a record that begins with a dash would end the block), that every
    coordinate is printed in sixteen columns and read back unchanged, and
    that the loops are given enough iterations. *)
Theorem read_written_mesh (n : list (Z * (F * F * F)))
    (faces : list (list (list Z))) init_mat inc_mat init_real inc_real fuel :
  NoDup n.*1 ->
  Forall (fun node => fits_i8 node.1
            /\ reads_back fmt_g16_9 float_of node.2.1.1
            /\ reads_back fmt_g16_9 float_of node.2.1.2
            /\ reads_back fmt_g16_9 float_of node.2.2) n ->
  Forall (Forall (Forall fits_i8)) faces ->
  0 <= init_mat -> init_mat + len faces < 100000000 ->
  -10000000 < init_real -> init_real + len faces < 100000000 ->
  len (concat faces) < 99999999 ->
  (8 + length n + length (concat faces) <= fuel)%nat ->
  read3DMesh float_of zero fuel
    (write fmt_g16_9 n faces init_mat inc_mat init_real inc_real)
  = Ok (list_to_map n,
        element_table faces init_mat inc_mat init_real inc_real,
        element_types).
Proof.
  intros Hdup Hn Hfaces Hm0 Hm Hr0 Hr Hcount Hfuel. unfold read3DMesh.
  rewrite (read_loop_written float_of zero fmt_g16_9) by (done || lia).
  reflexivity.
Qed.

End WrittenFileRead.

Lemma read_written_mesh_witness :
  let fmt := fun z : Z => pad_left 16 (decimal z) in
  let n := [(1, (0, 0, 0)); (2, (1, 0, 0)); (3, (1, 1, 0)); (4, (0, 1, 0))] in
  let faces := [[[1; 2; 3; 4]; [1; 2; 3]; [1; 2]]] in
  NoDup n.*1 /\
  Forall (fun node => fits_i8 node.1
            /\ reads_back fmt int node.2.1.1
            /\ reads_back fmt int node.2.1.2
            /\ reads_back fmt int node.2.2) n /\
  Forall (Forall (Forall fits_i8)) faces /\
  0 <= 1 /\ 1 + len faces < 100000000 /\
  -10000000 < 1 /\ 1 + len faces < 100000000 /\
  len (concat faces) < 99999999 /\
  (8 + length n + length (concat faces) <= 20)%nat /\
  read3DMesh int 0 20 (write fmt n faces 1 false 1 false)
  = Ok (list_to_map n, element_table faces 1 false 1 false, element_types).
Proof.
  intros fmt n faces.
  assert (Hback : forall z, z = 0 \/ z = 1 -> reads_back fmt int z).
  { intros z [-> | ->]; (split; [reflexivity|]);
      (split; [apply (bool_decide_unpack _); vm_compute; exact I|reflexivity]). }
  assert (H1 : NoDup n.*1)
    by (apply (bool_decide_unpack _); vm_compute; exact I).
  assert (H2 : Forall (fun node => fits_i8 node.1
            /\ reads_back fmt int node.2.1.1
            /\ reads_back fmt int node.2.1.2
            /\ reads_back fmt int node.2.2) n).
  { repeat (apply Forall_cons; split;
            [unfold fits_i8; cbn [fst snd];
             repeat split; try lia; apply Hback; auto|]).
    apply Forall_nil_2. }
  assert (H3 : Forall (Forall (Forall fits_i8)) faces).
  { unfold fits_i8.
    repeat first [apply Forall_nil_2 | apply Forall_cons; split; [try lia|]]. }
  assert (H4 : 0 <= 1) by lia.
  assert (H5 : 1 + len faces < 100000000) by (vm_compute; reflexivity).
  assert (H6 : -10000000 < 1) by lia.
  assert (H8 : len (concat faces) < 99999999) by (vm_compute; reflexivity).
  assert (H9 : (8 + length n + length (concat faces) <= 20)%nat)
    by (vm_compute; lia).
  split; [exact H1|]. split; [exact H2|]. split; [exact H3|].
  split; [exact H4|]. split; [exact H5|]. split; [exact H6|].
  split; [exact H5|]. split; [exact H8|]. split; [exact H9|].
  exact (read_written_mesh int 0 fmt n faces 1 false 1 false 20
           H1 H2 H3 H4 H5 H6 H5 H8 H9).
Defined.

(** * Importing what was exported *)

Section ExportedElements.

Implicit Types (e face : list Z) (fl : list (list Z)).
Implicit Types (faces : list (list (list Z))).


Lemma imap_snd {A B : Type} (f : nat -> A) (l : list B) :
  (imap (fun i x => (f i, x)) l).*2 = l.
Proof.
  revert f. induction l as [|x l IH]; intros f; [done|].
  cbn [imap fmap list_fmap snd]. f_equal. apply (IH (f ∘ S)).
Qed.

Lemma elem_of_concat {A : Type} (x : A) (ls : list (list A)) :
  x ∈ concat ls <-> exists l, x ∈ l /\ l ∈ ls.
Proof.
  induction ls as [|l ls IH]; cbn [concat].
  - split; [by intros ?%elem_of_nil|]. by intros (l & _ & ?%elem_of_nil).
  - rewrite elem_of_app, IH. split.
    + intros [Hx|(l' & Hx & Hl')]; [exists l; split; [done|left]|].
      exists l'. split; [done|by right].
    + intros (l' & Hx & Hl'). apply elem_of_cons in Hl' as [->|Hl']; [by left|].
      right. by exists l'.
Qed.

Lemma values_elements faces init_mat inc_mat init_real inc_real :
  PyDict.values (element_table faces init_mat inc_mat init_real inc_real)
  = concat (imap (object_elements init_mat inc_mat init_real inc_real) faces).
Proof. unfold PyDict.values, element_table. apply imap_snd. Qed.

(** Every entry of the table stands for some face, and every face that is
    written has its entry. *)
Lemma elem_of_exported faces init_mat inc_mat init_real inc_real e :
  e ∈ PyDict.values (element_table faces init_mat inc_mat init_real inc_real)
  <->
  exists (k : nat) fl face,
    faces !! k = Some fl /\ face ∈ fl /\
    shell_element (if inc_mat then init_mat + Z.of_nat k else init_mat)
                  (if inc_real then init_real + Z.of_nat k else init_real) face
    = Some e.
Proof.
  rewrite values_elements, elem_of_concat. split.
  - intros (l & He & Hl).
    apply elem_of_lookup_imap_1 in Hl as (k & fl & -> & Hk).
    unfold object_elements in He. apply list_elem_of_omap in He as (face & ? & ?).
    by exists k, fl, face.
  - intros (k & fl & face & Hk & Hface & He).
    exists (object_elements init_mat inc_mat init_real inc_real k fl). split.
    + unfold object_elements. apply list_elem_of_omap. by exists face.
    + by apply elem_of_lookup_imap_2.
Qed.

(** The written entries are shells of family 63 or 93. *)
Lemma exported_shell mat real face e :
  shell_element mat real face = Some e ->
  midside_wedge element_types e = false /\ binds_v13 element_types e = false.
Proof.
  unfold shell_element. intros He.
  destruct face as [|f0 [|f1 [|f2 [|f3 [|f4 [|f5 [|f6 [|f7 [|f8 ?]]]]]]]]];
    try discriminate; cbn in He; injection He as <-; by split.
Qed.



End ExportedElements.

Section ImportExported.

Context {F : Type} `{Countable F}.
Variable float_of : str -> option F.
Variable zero : F.
Variable fmt_g16_9 : F -> str.
Variable iter : gset (list Z) -> list (list Z).


End ImportExported.


(** * Where the nodes of the outer faces come from *)

Section FaceNodes.

Implicit Types (rd : bool) (f e k : list Z) (g : Z * Z).
Implicit Types (es : list (list Z)) (et : gmap Z Z).
Implicit Types (group : gmap (list Z) Z) (U : Z -> Prop).

(** The tables build every face from the nodes of the element, and the
    6-node triangle also from [v13]. *)
Lemma faces_of_element_nodes U etype e v13 r v13' :
  faces_of_element etype e v13 = Ok (r, v13') ->
  (forall v, v ∈ drop 3 e -> U v) -> (forall v, v13 = Some v -> U v) ->
  (forall faces, r = Some faces ->
     Forall (fun face => exists f, face = order_face f /\ Forall U f) faces)
  /\ (forall v, v13' = Some v -> U v).
Proof.
  intros Hrun He Hv.
  assert (Hslice : forall hi, Forall U (slice 3 hi e)).
  { intros hi. apply Forall_forall. intros v Hin. apply He.
    unfold slice in Hin. by apply subseteq_take in Hin. }
  revert Hrun.
  unfold faces_of_element, faces_on_3triangle, faces_on_4rectangle,
    faces_on_6triangle, faces_on_8rectangle, faces_on_6wedge,
    faces_on_5pyramid, faces_on_4tetrahedral, faces_on_8hexahedral,
    faces_on_15wedge, faces_on_13pyramid, faces_on_10tetrahedral,
    faces_on_20hexahedral, load.
  intros Hrun.
  repeat case_match; simpl in Hrun; try discriminate;
    injection Hrun as <- <-;
    try match goal with
        | H : slice 3 ?hi e = _ |- _ =>
            pose proof (Hslice hi) as HU; rewrite H in HU;
            rewrite ?Forall_cons in HU
        end;
    (split; [intros faces [= <-]|]);
    try (intros v [= <-]; tauto); try done;
    repeat (apply Forall_cons; split;
            [eexists; split; [reflexivity|];
             repeat (apply Forall_cons; split; [first [tauto | by apply Hv]|]);
             apply Forall_nil_2|]);
    apply Forall_nil_2.
Qed.

Lemma count_face_nodes U group group' f :
  (forall k, is_Some (group !! k) -> Forall U k) -> Forall U f ->
  count_face group (order_face f) = Ok group' ->
  forall k, is_Some (group' !! k) -> Forall U k.
Proof.
  intros Hgroup Hf Hrun k [c Hc]. unfold count_face in Hrun.
  apply bind_Ok in Hrun as (key & Hkey & [= <-]).
  destruct (decide (key = k)) as [<-|Hne].
  - destruct f as [|x t]; [discriminate|].
    destruct (order_face_result (x :: t)) as (Hof & Hperm & _); [done|].
    rewrite Hof in Hkey. injection Hkey as <-. by rewrite Hperm.
  - rewrite lookup_insert_ne in Hc by done. apply Hgroup. by exists c.
Qed.

Lemma get_all_faces_step_nodes U et (st st' : faces_state) e :
  (forall v, v ∈ drop 3 e -> U v) ->
  (forall g group k,
     counted_faces st !! g = Some group -> is_Some (group !! k) -> Forall U k) ->
  (forall v, local_v13 st = Some v -> U v) ->
  get_all_faces_step et st e = Ok st' ->
  (forall g group k,
     counted_faces st' !! g = Some group -> is_Some (group !! k) -> Forall U k)
  /\ (forall v, local_v13 st' = Some v -> U v).
Proof.
  intros He Hst Hv Hrun. unfold get_all_faces_step in Hrun.
  destruct (e !! 2%nat) as [type_id|]; [|by injection Hrun as <-].
  destruct (et !! type_id) as [etype|]; [|by injection Hrun as <-].
  apply bind_Ok in Hrun as ([r v13] & Hfaces & Hrun).
  destruct (faces_of_element_nodes U etype e (local_v13 st) r v13 Hfaces He Hv)
    as [Hr Hv13].
  destruct r as [faces|]; [|by injection Hrun as <-].
  destruct (slice 0 2 e) as [|element_mat [|element_real [|]]];
    try discriminate.
  apply bind_Ok in Hrun as (group' & Hloop & [= <-]). cbn. split; [|done].
  intros g group k Hg Hk.
  destruct (decide ((element_mat, element_real) = g)) as [<-|Hne].
  - rewrite lookup_insert_eq in Hg. injection Hg as <-. revert k Hk.
    eapply (for_each_invariant count_face
              (fun group => forall k, is_Some (group !! k) -> Forall U k)
              (fun face => exists f, face = order_face f /\ Forall U f));
      [| |by apply Hr|exact Hloop].
    + intros gr face gr' Hgr (f & -> & Hf). by apply count_face_nodes.
    + destruct (counted_faces st !! (element_mat, element_real)) as [gr|] eqn:E;
        cbn; [intros k Hk; by eapply Hst|].
      intros k [c Hc]. by rewrite lookup_empty in Hc.
  - rewrite lookup_insert_ne in Hg by done. by eapply Hst.
Qed.

Lemma get_faces_nodes es et rd outer g s f v :
  get_faces es et rd = Ok outer ->
  outer !! g = Some s -> f ∈ s -> v ∈ f ->
  exists e, e ∈ es /\ v ∈ drop 3 e.
Proof.
  intros Hrun Hs Hf Hv. unfold get_faces in Hrun.
  apply bind_Ok in Hrun as (counted & Hall & Hout).
  pose proof (get_outer_faces_groups rd counted outer g Hout) as Hg.
  destruct (counted !! g) as [group|] eqn:Hgroup; [|congruence].
  destruct Hg as (s' & Hs' & Hgr). assert (s' = s) as -> by congruence.
  destruct (proj1 (outer_of_group_spec rd group s Hgr f) Hf) as [Hk _].
  unfold get_all_faces in Hall. apply bind_Ok in Hall as (st & Hall & [= <-]).
  set (U := fun v => exists e, e ∈ es /\ v ∈ drop 3 e).
  assert (Hinv :
    (forall g group k,
       counted_faces st !! g = Some group -> is_Some (group !! k) -> Forall U k)
    /\ (forall v, local_v13 st = Some v -> U v)).
  { eapply (for_each_invariant (get_all_faces_step et)
              (fun st =>
                 (forall g group k, counted_faces st !! g = Some group ->
                                    is_Some (group !! k) -> Forall U k)
                 /\ (forall v, local_v13 st = Some v -> U v))
              (fun e => forall v, v ∈ drop 3 e -> U v));
      [| | |exact Hall].
    - intros s0 e s1 [H1 H2] He Hstep.
      by eapply get_all_faces_step_nodes.
    - split; [|done]. cbn. intros g0 group0 k0 H0.
      by rewrite lookup_empty in H0.
    - apply Forall_forall. intros e He v0 Hv0. by exists e. }
  destruct Hinv as [Hinv _].
  pose proof (Hinv g group f Hgroup Hk) as Hall_f.
  rewrite Forall_forall in Hall_f. by apply Hall_f.
Qed.

(** Face extraction invents no node: every node id of every outer face is
    one of the node ids (the entries after material, real constant and
    type) of some element of the table. *)
Theorem outer_face_nodes_from_elements es et rd outer g s f v :
  get_faces es et rd = Ok outer ->
  outer !! g = Some s -> f ∈ s -> v ∈ f ->
  exists e, e ∈ es /\ v ∈ drop 3 e.
Proof. apply get_faces_nodes. Qed.

End FaceNodes.

Lemma outer_face_nodes_from_elements_witness :
  let es := [[1; 1; 7; 2; 3; 5; 5]; [1; 1; 7; 4; 5; 6; 7]] in
  let et : gmap Z Z := {[ 7 := 63 ]} in
  let outer : gmap (Z * Z) (gset (list Z)) :=
    {[ (1, 1) := {[ [2; 3; 5]; [4; 5; 6; 7] ]} ]} in
  get_faces es et true = Ok outer /\
  outer !! (1, 1) = Some {[ [2; 3; 5]; [4; 5; 6; 7] ]} /\
  [2; 3; 5] ∈ ({[ [2; 3; 5]; [4; 5; 6; 7] ]} : gset (list Z)) /\
  3 ∈ [2; 3; 5] /\
  exists e, e ∈ es /\ 3 ∈ drop 3 e.
Proof.
  intros es et outer.
  assert (H1 : get_faces es et true = Ok outer) by (vm_compute; reflexivity).
  assert (H2 : outer !! (1, 1) = Some {[ [2; 3; 5]; [4; 5; 6; 7] ]})
    by (vm_compute; reflexivity).
  assert (H3 : [2; 3; 5] ∈ ({[ [2; 3; 5]; [4; 5; 6; 7] ]} : gset (list Z)))
    by (apply elem_of_union_l, elem_of_singleton; reflexivity).
  assert (H4 : 3 ∈ [2; 3; 5]) by (right; left).
  split; [exact H1|]. split; [exact H2|]. split; [exact H3|].
  split; [exact H4|].
  exact (outer_face_nodes_from_elements es et true outer (1, 1) _ _ 3
           H1 H2 H3 H4).
Defined.

Section ExportedTrianglesAndQuads.

Context {F : Type} `{Countable F}.
Variable float_of : str -> option F.
Variable zero : F.
Variable fmt_g16_9 : F -> str.
Variable iter : gset (list Z) -> list (list Z).

(** The entry of a face of fewer than six vertices: a 4-node shell with
    the vertices of the face. *)
Lemma exported_small mat real (face e : list Z) :
  shell_element mat real face = Some e -> (length face < 6)%nat ->
  midside_triangle element_types e = false
  /\ (forall v, v ∈ drop 3 e -> v ∈ face).
Proof.
  unfold shell_element. intros He Hlen.
  destruct face as [|f0 [|f1 [|f2 [|f3 [|f4 [|f5 ?]]]]]];
    try discriminate; try (simpl in Hlen; lia);
    cbn in He; injection He as <-; (split; [reflexivity|]);
    cbn [drop app replicate item nth]; intros v Hv;
    repeat (apply elem_of_cons in Hv as [->|Hv]);
    try (by apply elem_of_nil in Hv);
    rewrite !elem_of_cons; tauto.
Qed.

(** A mesh of triangles and quadrilaterals is read back: when no face has
    six or more vertices and every vertex of a face is a node of the node
    dictionary, [readMesh] returns on the file that [write] produces;
    faces of fewer than three or of five vertices are not written and do
    no harm. *)
Theorem exported_mesh_imports (n : list (Z * (F * F * F)))
    (faces : list (list (list Z))) init_mat inc_mat init_real inc_real fuel
    remove_duplicates :
  NoDup n.*1 ->
  Forall (fun node => fits_i8 node.1
            /\ reads_back fmt_g16_9 float_of node.2.1.1
            /\ reads_back fmt_g16_9 float_of node.2.1.2
            /\ reads_back fmt_g16_9 float_of node.2.2) n ->
  Forall (Forall (Forall fits_i8)) faces ->
  0 <= init_mat -> init_mat + len faces < 100000000 ->
  -10000000 < init_real -> init_real + len faces < 100000000 ->
  len (concat faces) < 99999999 ->
  (8 + length n + length (concat faces) <= fuel)%nat ->
  (forall s, iter s ≡ₚ elements s) ->
  Forall (Forall (fun face => (length face < 6)%nat
                              /\ Forall (fun v => v ∈ n.*1) face)) faces ->
  exists meshes,
    readMesh float_of zero fuel iter
      (write fmt_g16_9 n faces init_mat inc_mat init_real inc_real)
      remove_duplicates
    = Ok meshes.
Proof.
  intros Hdup Hn Hfaces Hm0 Hm Hr0 Hr Hcount Hfuel Hiter Hsmall.
  unfold readMesh, read3DMesh.
  rewrite (read_loop_written float_of zero fmt_g16_9) by (done || lia).
  cbn [bind fst snd global_n global_e global_et].
  assert (Hentry : forall e,
    e ∈ PyDict.values
          (element_table faces init_mat inc_mat init_real inc_real) ->
    midside_wedge element_types e = false
    /\ midside_triangle element_types e = false
    /\ forall v, v ∈ drop 3 e -> v ∈ n.*1).
  { intros e He. apply elem_of_exported in He as (k & fl & face & Hk & Hface & He).
    rewrite Forall_forall in Hsmall.
    pose proof (Hsmall fl (list_elem_of_lookup_2 _ _ _ Hk)) as Hfl.
    rewrite Forall_forall in Hfl. destruct (Hfl face Hface) as [Hlen Hnodes].
    destruct (exported_shell _ _ _ _ He) as [Hw _].
    destruct (exported_small _ _ _ _ He Hlen) as [Ht Hsub].
    split; [done|]. split; [done|]. intros v Hv.
    rewrite Forall_forall in Hnodes. by apply Hnodes, Hsub. }
  destruct (get_faces_total
              (PyDict.values
                 (element_table faces init_mat inc_mat init_real inc_real))
              element_types remove_duplicates) as [outer Houter].
  { apply Forall_forall. intros e He. destruct (Hentry e He) as (? & ? & _).
    by split. }
  rewrite Houter. cbn [bind].
  apply (renumber_outcome iter (list_to_map n) outer).
  intros g s f v Hs Hf Hv.
  assert (Hfs : f ∈ s) by (by rewrite Hiter, elem_of_elements in Hf).
  destruct (get_faces_nodes _ _ _ _ _ _ _ _ Houter Hs Hfs Hv) as (e & He & Hve).
  destruct (Hentry e He) as (_ & _ & Hkeys).
  destruct (list_to_map n !! v) as [c|] eqn:Hlook; [by exists c|].
  apply not_elem_of_list_to_map in Hlook. by destruct Hlook; apply Hkeys.
Qed.

End ExportedTrianglesAndQuads.

Lemma exported_mesh_imports_witness :
  let fmt := fun z : Z => pad_left 16 (decimal z) in
  let n := [(1, (0, 0, 0)); (2, (1, 0, 0)); (3, (1, 1, 0)); (4, (0, 1, 0))] in
  let faces := [[[1; 2; 3; 4]; [1; 2; 3]]] in
  NoDup n.*1 /\
  Forall (fun node => fits_i8 node.1
            /\ reads_back fmt int node.2.1.1
            /\ reads_back fmt int node.2.1.2
            /\ reads_back fmt int node.2.2) n /\
  Forall (Forall (Forall fits_i8)) faces /\
  0 <= 1 /\ 1 + len faces < 100000000 /\
  -10000000 < 1 /\ 1 + len faces < 100000000 /\
  len (concat faces) < 99999999 /\
  (8 + length n + length (concat faces) <= 20)%nat /\
  (forall s : gset (list Z), elements s ≡ₚ elements s) /\
  Forall (Forall (fun face => (length face < 6)%nat
                              /\ Forall (fun v => v ∈ n.*1) face)) faces /\
  exists meshes,
    readMesh int 0 20 elements (write fmt n faces 1 false 1 false) true
    = Ok meshes.
Proof.
  intros fmt n faces.
  assert (Hback : forall z, z = 0 \/ z = 1 -> reads_back fmt int z).
  { intros z [-> | ->]; (split; [reflexivity|]);
      (split; [apply (bool_decide_unpack _); vm_compute; exact I|reflexivity]). }
  assert (H1 : NoDup n.*1)
    by (apply (bool_decide_unpack _); vm_compute; exact I).
  assert (H2 : Forall (fun node => fits_i8 node.1
            /\ reads_back fmt int node.2.1.1
            /\ reads_back fmt int node.2.1.2
            /\ reads_back fmt int node.2.2) n).
  { repeat (apply Forall_cons; split;
            [unfold fits_i8; cbn [fst snd];
             repeat split; try lia; apply Hback; auto|]).
    apply Forall_nil_2. }
  assert (H3 : Forall (Forall (Forall fits_i8)) faces).
  { unfold fits_i8.
    repeat first [apply Forall_nil_2 | apply Forall_cons; split; [try lia|]]. }
  assert (H4 : 0 <= 1) by lia.
  assert (H5 : 1 + len faces < 100000000) by (vm_compute; reflexivity).
  assert (H6 : -10000000 < 1) by lia.
  assert (H8 : len (concat faces) < 99999999) by (vm_compute; reflexivity).
  assert (H9 : (8 + length n + length (concat faces) <= 20)%nat)
    by (vm_compute; lia).
  assert (H10 : forall s : gset (list Z), elements s ≡ₚ elements s) by done.
  assert (H11 : Forall (Forall (fun face => (length face < 6)%nat
                              /\ Forall (fun v => v ∈ n.*1) face)) faces).
  { repeat first
      [ apply Forall_nil_2
      | apply Forall_cons; split;
        [first [ by (apply (bool_decide_unpack _); vm_compute; exact I)
               | split; [simpl; lia|] | idtac ]|] ]. }
  split; [exact H1|]. split; [exact H2|]. split; [exact H3|].
  split; [exact H4|]. split; [exact H5|]. split; [exact H6|].
  split; [exact H5|]. split; [exact H8|]. split; [exact H9|].
  split; [exact H10|]. split; [exact H11|].
  exact (exported_mesh_imports int 0 fmt elements n faces 1 false 1 false 20
           true H1 H2 H3 H4 H5 H6 H5 H8 H9 H10 H11).
Defined.

(** * Commands *)

Section Selectors.

Context {F : Type}.
Variable float_of : str -> option F.
Variable zero : F.

Implicit Types (st : state (F := F)) (z : Z) (s : str).

Local Ltac by_evaluation := apply (bool_decide_unpack _); vm_compute; exact I.

Lemma split_whole (sep : ascii) s : sep ∉ s -> split sep s = [s].
Proof.
  induction s as [|c s IH]; intros Hs; [done|].
  apply not_elem_of_cons in Hs as [Hc Hs]. cbn [split].
  rewrite decide_False by done. by rewrite (IH Hs).
Qed.

Lemma strip_line_end s :
  Forall (fun c => isspace c = false) s -> strip (s ++ newline) = s.
Proof.
  intros Hs. unfold strip, strip_by.
  assert (Hl : forall t, Forall (fun c => isspace c = false) t ->
                         forall u, lstrip_by isspace (t ++ u)
                                   = match t with [] => lstrip_by isspace u
                                     | _ => t ++ u end).
  { intros [|c t] Ht u; [done|]. apply Forall_cons in Ht as [Hc _].
    cbn [app]. by apply lstrip_by_clean. }
  rewrite (Hl s Hs).
  assert (Hrev : reverse (s ++ newline) = replicate 1 "010"%char ++ reverse s)
    by (by rewrite reverse_app).
  destruct s as [|c s].
  - reflexivity.
  - rewrite Hrev, lstrip_by_replicate by reflexivity.
    rewrite <- (app_nil_r (reverse (c :: s))).
    rewrite (Hl (reverse (c :: s))) by (by apply Forall_reverse).
    destruct (reverse (c :: s)) as [|d t] eqn:Hr.
    + apply (f_equal reverse) in Hr. by rewrite reverse_involutive in Hr.
    + rewrite app_nil_r, <- Hr. apply reverse_involutive.
Qed.

Lemma lower_decimal z : lower (decimal z) = decimal z.
Proof.
  assert (Hu : forall u, map lower_char (lit (NilEmpty.string_of_uint u))
                         = lit (NilEmpty.string_of_uint u)).
  { unfold lit. induction u;
      cbn [NilEmpty.string_of_uint list_ascii_of_string map];
      [done|..]; by rewrite IHu. }
  unfold lower. destruct z as [|p|p]; [done| |].
  - rewrite decimal_pos. apply Hu.
  - rewrite decimal_neg, decimal_pos. cbn [map]. by rewrite Hu.
Qed.

(** The token that a number leaves at the end of a command line. *)
Lemma last_token z :
  (fun t => lower (strip t)) <$> split ","%char (decimal z ++ newline)
  = [decimal z].
Proof.
  pose proof (decimal_clean z) as Hc.
  rewrite split_whole.
  2: { rewrite elem_of_app. intros [Hin|Hin]; [|revert Hin; by_evaluation].
       rewrite Forall_forall in Hc. by destruct (Hc _ Hin) as (_ & _ & ?). }
  cbn [fmap list_fmap]. rewrite strip_line_end, lower_decimal; [done|].
  eapply Forall_impl; [exact Hc|]. simpl. tauto.
Qed.

Lemma parse_mat inner z (et : gmap Z Z) e n ce ct cm cr tail :
  parseCommand float_of zero inner (lit "MAT," ++ decimal z ++ newline)
    (State et e n ce ct cm cr tail)
  = Ok (State et e n ce ct (Some z) cr tail).
Proof.
  unfold parseCommand.
  change (lit "MAT," ++ decimal z ++ newline)
    with (lit "MAT" ++ ","%char :: decimal z ++ newline).
  rewrite split_head by by_evaluation. rewrite fmap_cons, last_token.
  change (lower (strip (lit "MAT"))) with (lit "mat").
  cbn [lookup list_lookup load bind].
  change (readMAT [lit "mat"; decimal z] (State et e n ce ct cm cr tail)
          = Ok (State et e n ce ct (Some z) cr tail)).
  unfold readMAT. cbn [lookup list_lookup mbind option_bind].
  by rewrite int_decimal.
Qed.

Lemma parse_type inner z (et : gmap Z Z) e n ce ct cm cr tail :
  parseCommand float_of zero inner (lit "TYPE," ++ decimal z ++ newline)
    (State et e n ce ct cm cr tail)
  = Ok (State et e n ce (Some z) cm cr tail).
Proof.
  unfold parseCommand.
  change (lit "TYPE," ++ decimal z ++ newline)
    with (lit "TYPE" ++ ","%char :: decimal z ++ newline).
  rewrite split_head by by_evaluation. rewrite fmap_cons, last_token.
  change (lower (strip (lit "TYPE"))) with (lit "type").
  cbn [lookup list_lookup load bind].
  change (readTYPE [lit "type"; decimal z] (State et e n ce ct cm cr tail)
          = Ok (State et e n ce (Some z) cm cr tail)).
  unfold readTYPE. cbn [lookup list_lookup mbind option_bind].
  by rewrite int_decimal.
Qed.

Lemma parse_real inner z (et : gmap Z Z) e n ce ct cm cr tail :
  parseCommand float_of zero inner (lit "REAL," ++ decimal z ++ newline)
    (State et e n ce ct cm cr tail)
  = Ok (State et e n ce ct cm (Some z) tail).
Proof.
  unfold parseCommand.
  change (lit "REAL," ++ decimal z ++ newline)
    with (lit "REAL" ++ ","%char :: decimal z ++ newline).
  rewrite split_head by by_evaluation. rewrite fmap_cons, last_token.
  change (lower (strip (lit "REAL"))) with (lit "real").
  cbn [lookup list_lookup load bind].
  change (readREAL [lit "real"; decimal z] (State et e n ce ct cm cr tail)
          = Ok (State et e n ce ct cm (Some z) tail)).
  unfold readREAL. cbn [lookup list_lookup mbind option_bind].
  by rewrite int_decimal.
Qed.

Lemma parse_en_attr inner z (et : gmap Z Z) n ce ct cm cr tail :
  parseCommand float_of zero inner
    (lit "EN,R5.5,ATTR,9,,,,0,0," ++ decimal z ++ newline)
    (State et [] n ce ct cm cr tail)
  = Ok (State et [(z, [1; 1; 1])] n (Some z) ct cm cr tail).
Proof.
  unfold parseCommand.
  change (lit "EN,R5.5,ATTR,9,,,,0,0," ++ decimal z ++ newline)
    with (lit "EN" ++ ","%char :: lit "R5.5" ++ ","%char :: lit "ATTR"
          ++ ","%char :: lit "9" ++ ","%char :: [] ++ ","%char :: []
          ++ ","%char :: [] ++ ","%char :: lit "0" ++ ","%char :: lit "0"
          ++ ","%char :: decimal z ++ newline).
  rewrite !split_head by by_evaluation. rewrite !fmap_cons, last_token.
  change (lower (strip (lit "EN"))) with (lit "en").
  change (lower (strip (lit "R5.5"))) with (lit "r5.5").
  change (lower (strip (lit "ATTR"))) with (lit "attr").
  change (lower (strip (lit "9"))) with (lit "9").
  change (lower (strip (lit "0"))) with (lit "0").
  change (lower (strip [])) with (@nil ascii).
  cbn [lookup list_lookup load bind].
  change (readEN [lit "en"; lit "r5.5"; lit "attr"; lit "9"; []; []; [];
                  lit "0"; lit "0"; decimal z]
            (State et [] n ce ct cm cr tail)
          = Ok (State et [(z, [1; 1; 1])] n (Some z) ct cm cr tail)).
  unfold readEN. rewrite decide_False by (vm_compute; discriminate).
  cbn [lookup list_lookup load bind mbind option_bind].
  rewrite bool_decide_eq_true_2 by done. rewrite int_decimal.
  reflexivity.
Qed.

(** [MAT], [TYPE] and [REAL] do not reach [EN]: each of them binds a
    module-level name, while [readEN] reads the variables of
    [read3DMesh], which stay at 1.  Whatever numbers the three commands
    select, an attribute record that leaves material, type and real constant
    out stores the element with material 1, real constant 1 and type 1. *)
Theorem selectors_do_not_reach_EN (m t r number : Z) fuel :
  read3DMesh float_of zero (S (S (S (S (S fuel)))))
    (lit "MAT," ++ decimal m ++ newline
     ++ lit "TYPE," ++ decimal t ++ newline
     ++ lit "REAL," ++ decimal r ++ newline
     ++ lit "EN,R5.5,ATTR,9,,,,0,0," ++ decimal number ++ newline)
  = Ok (∅, [(number, [1; 1; 1])], ∅).
Proof.
  assert (Hline : forall (prefix : str) z,
            "010"%char ∉ prefix -> "010"%char ∉ prefix ++ decimal z).
  { intros prefix z Hp. rewrite elem_of_app. intros [Hin|Hin]; [done|].
    pose proof (decimal_clean z) as Hc. rewrite Forall_forall in Hc.
    by destruct (Hc _ Hin) as (_ & ? & _). }
  unfold read3DMesh, fresh.
  rewrite (app_assoc (lit "MAT,")).
  rewrite read_loop_line by (apply Hline; by_evaluation).
  rewrite <- app_assoc, parse_mat. cbn [bind].
  rewrite (app_assoc (lit "TYPE,")).
  rewrite read_loop_line by (apply Hline; by_evaluation).
  rewrite <- app_assoc, parse_type. cbn [bind].
  rewrite (app_assoc (lit "REAL,")).
  rewrite read_loop_line by (apply Hline; by_evaluation).
  rewrite <- app_assoc, parse_real. cbn [bind].
  rewrite (app_assoc (lit "EN,R5.5,ATTR,9,,,,0,0,")).
  rewrite <- (app_nil_r newline) at 1.
  rewrite read_loop_line by (apply Hline; by_evaluation).
  rewrite <- app_assoc, parse_en_attr. cbn [bind].
  reflexivity.
Qed.

End Selectors.

Section NodeBlockEnds.

Context {F : Type}.
Variable float_of : str -> option F.
Variable zero : F.

Implicit Types (st : state (F := F)) (forms : list form).

Lemma nblock_loop_outcome fuel forms start_x start_y start_z end_z st :
  (length (rest st) < fuel)%nat ->
  (exists st', nblock_loop float_of zero fuel forms start_x start_y start_z
                 end_z st = Ok st')
  \/ nblock_loop float_of zero fuel forms start_x start_y start_z end_z st
     = Raise IndexError.
Proof.
  revert st. induction fuel as [|fuel IH]; intros st Hlen; [lia|].
  cbn [nblock_loop].
  destruct (readline (rest st)) as [line rest'] eqn:Hline.
  apply readline_split in Hline.
  destruct (decide (len line = 0)) as [?|Hne]; [left; by eexists|].
  assert (Hrest : (length rest' < fuel)%nat).
  { rewrite Hline, length_app in Hlen. unfold len in Hne. lia. }
  destruct (strip line !! 0%nat) as [first|]; [|by right]. cbn [load bind].
  destruct (bool_decide _); [left; by eexists|].
  destruct (width_at forms 0 ≫= _) as [node_number|]; apply IH; by simpl.
Qed.

(** A node block ends with the file at the latest: given more iterations
    than the file has characters left, [readNBLOCK] returns, or it raises
    [IndexError] (on a line of white space only, whose first character it
    asks for); it raises nothing else and does not run on. *)
Theorem node_block_ends_with_file fuel tokens st :
  (length (rest st) < fuel)%nat ->
  (exists st', readNBLOCK float_of zero fuel tokens st = Ok st')
  \/ readNBLOCK float_of zero fuel tokens st = Raise IndexError.
Proof.
  intros Hlen. unfold readNBLOCK.
  destruct (readline (rest st)) as [format_line rest'] eqn:Hline.
  apply readline_split in Hline.
  destruct (decide (len (detectFormat format_line) < 6)); [left; by eexists|].
  destruct (width <$> take 6 (detectFormat format_line))
    as [|w0 [|w1 [|w2 [|w3 [|w4 [|w5 [|]]]]]]]; try by right.
  apply nblock_loop_outcome. cbn [set_rest rest].
  rewrite Hline, length_app in Hlen. lia.
Qed.

End NodeBlockEnds.

Lemma node_block_ends_with_file_witness :
  let st : state (F := Z) :=
    fresh (lit "(3i8,6e16.9)" ++ newline ++ lit "       1       0       0"
           ++ newline ++ lit "  " ++ newline) in
  (length (rest st) < 50)%nat /\
  ((exists st', readNBLOCK int 0 50 [lit "nblock"; lit "6"; lit "solid"] st
                = Ok st')
   \/ readNBLOCK int 0 50 [lit "nblock"; lit "6"; lit "solid"] st
      = Raise IndexError).
Proof.
  intros st.
  assert (H1 : (length (rest st) < 50)%nat) by (vm_compute; lia).
  split; [exact H1|].
  exact (node_block_ends_with_file int 0 50 [lit "nblock"; lit "6"; lit "solid"]
           st H1).
Defined.
